(** * discord-trading-bot: signal parser and trade executor

    A shallow embedding of [signal_parser.py], [exchange_connector.py],
    [trade_executor.py] and the message handler of [bot.py], and the
    properties of the specification checked against it, followed by
    further properties of the code.

    Modelling conventions.
    - A Python [str] is a list of Unicode code points ([pystr]).
    - A Python [float] is modelled twice.  The parser and the first model
      of the executor compute with exact rationals ([Q]): [float(s)] is
      the decimal [s] writes, and [+], [*], [/] are exact.  That is
      faithful for what does not depend on how a result is rounded: which
      calls are made, in which order, with which expressions as
      arguments, and what is stored where.  Statements about the values
      themselves (the sizes of the tranches, the average entry price) are
      made over the float operations: [Arith] names them, [FP] is the
      executor over any such arithmetic, and [binary64] is the arithmetic
      of the interpreter, IEEE 754 binary64 as computed by Rocq's
      primitive floats, with its rounding, infinities and NaN.  In both
      models the one arithmetic fault the code can hit,
      [ZeroDivisionError] of [/], is kept.
    - The ccxt exchange object is external.  Code that talks to it is a
      program tree ([Prog]) whose nodes are the ccxt calls; an execution is a
      path through the tree, recorded as a list of events ([runs]).
    - [self.active_trades] is a [gmap] from the signal's symbol to the
      stored trade; the object-level view (dict objects on a heap, needed
      for what [get_active_trades] shares with its caller) is [Objects].
    - The Unicode tables of the interpreter are a parameter ([Unicode]);
      [ascii_tables] instantiates them for concrete inputs.
    - Discord is outside the model but for what [on_message] passes to
      [send], and whether the send returns.
    - A call runs from its first statement to its return with nothing
      else touching the executor in between.  Under asyncio the handlers
      of discord.py are tasks of their own, and [execute_signal] awaits
      the exchange between its check of [active_trades] (line 48) and its
      store (line 149); calls that overlap in time are not modelled, and
      what is stated of the ledger across calls is stated of calls that
      run one after the other. *)

From Stdlib Require Import QArith ZArith NArith List String Ascii Lia.
From Stdlib Require Import Sorting.Sorted Permutation.
From Stdlib Require Floats Uint63.
From stdpp Require Import gmap.

Import ListNotations.
Local Open Scope list_scope.
Local Open Scope Q_scope.

(* ================================================================== *)
(** * Python values *)
(* ================================================================== *)

(** A character is a code point, a [str] a list of them. *)
Abbreviation char := N (only parsing).
Abbreviation pystr := (list N) (only parsing).

(** ASCII literals of the source, as [pystr]. *)
Definition str (s : string) : pystr :=
  map N_of_ascii (list_ascii_of_string s).

(** Exceptions the modelled code can raise. *)
Inductive exn : Type :=
| ZeroDivisionError
| ValueError.

(** The result of evaluating a Python expression that may raise. *)
Inductive res (A : Type) : Type :=
| Ok (a : A)
| Raise (e : exn).
Arguments Ok {A} a.
Arguments Raise {A} e.

(** [a < b] and [a >= b] on floats. *)
Definition py_lt (a b : Q) : bool := negb (Qle_bool b a).
Definition py_ge (a b : Q) : bool := Qle_bool b a.

(** [a / b]: true division raises on a zero divisor. *)
Definition py_truediv (a b : Q) : res Q :=
  if Qeq_bool b 0 then Raise ZeroDivisionError else Ok (a / b)%Q.

(** [min(a, b)]: the first argument unless the second is strictly smaller. *)
Definition py_min (a b : Q) : Q := if py_lt b a then b else a.

(* ================================================================== *)
(** * The ccxt exchange and programs over it *)
(* ================================================================== *)

Inductive side : Type := buy | sell.

(** The order types [place_stop_loss_order] asks for. *)
Inductive order_type : Type := STOP_MARKET | stop.

(** An order as ccxt returns it: a dict of which the code reads ['id']. *)
Record Order : Type := mkOrder { order_id : pystr }.

(** [fetch_balance()]: asset -> ['free'] amount ([None] where the entry
    does not convert with [float]). *)
Abbreviation balances := (gmap (list N) (option Q)) (only parsing).
(** [load_markets()]: symbol -> [limits.amount.min], likewise. *)
Abbreviation markets := (gmap (list N) (option Q)) (only parsing).

(** A program over the exchange.  Each node is one ccxt call; the
    continuation receives what the call returned, [None] standing for
    "the call (or reading its result) raised". *)
Inductive Prog (A : Type) : Type :=
| Ret (a : A)
| fetch_balance (k : option balances -> Prog A)
| load_markets (k : option markets -> Prog A)
| create_limit_order (symbol : pystr) (sd : side) (amount price : Q)
    (k : option Order -> Prog A)
| create_order (symbol : pystr) (ty : order_type) (sd : side) (amount : Q)
    (price : option Q) (stopPrice : Q) (k : option Order -> Prog A).
Arguments Ret {A} a.
Arguments fetch_balance {A} k.
Arguments load_markets {A} k.
Arguments create_limit_order {A} symbol sd amount price k.
Arguments create_order {A} symbol ty sd amount price stopPrice k.

Fixpoint bind {A B : Type} (p : Prog A) (f : A -> Prog B) : Prog B :=
  match p with
  | Ret a => f a
  | fetch_balance k => fetch_balance (fun r => bind (k r) f)
  | load_markets k => load_markets (fun r => bind (k r) f)
  | create_limit_order s sd a p k =>
      create_limit_order s sd a p (fun r => bind (k r) f)
  | create_order s ty sd a p sp k =>
      create_order s ty sd a p sp (fun r => bind (k r) f)
  end.

(** Programs that may also raise. *)
Definition E (A : Type) : Type := Prog (res A).

Definition ret {A : Type} (a : A) : E A := Ret (Ok a).
Definition lift {A : Type} (p : Prog A) : E A := bind p ret.
Definition pure {A : Type} (r : res A) : E A := Ret r.
Definition bindE {A B : Type} (m : E A) (f : A -> E B) : E B :=
  bind m (fun r => match r with Ok a => f a | Raise e => Ret (Raise e) end).

Declare Scope prog_scope.
Delimit Scope prog_scope with prog.
Notation "x <- m ;; k" := (bindE m (fun x => k))
  (at level 100, m at next level, right associativity) : prog_scope.

(** [try: body except Exception: handler]. *)
Definition try_except {A : Type} (body : E A) (handler : exn -> Prog A) : Prog A :=
  bind body (fun r => match r with Ok a => Ret a | Raise e => handler e end).

(** What an execution did: each ccxt call with its arguments and result. *)
Inductive event : Type :=
| EvFetchBalance (r : option balances)
| EvLoadMarkets (r : option markets)
| EvCreateLimitOrder (symbol : pystr) (sd : side) (amount price : Q)
    (r : option Order)
| EvCreateOrder (symbol : pystr) (ty : order_type) (sd : side) (amount : Q)
    (price : option Q) (stopPrice : Q) (r : option Order).

(** [runs p tr a]: some execution of [p] makes exactly the calls of [tr],
    is answered as [tr] says, and returns [a]. *)
Inductive runs {A : Type} : Prog A -> list event -> A -> Prop :=
| runs_Ret a : runs (Ret a) [] a
| runs_fetch_balance k r tr a :
    runs (k r) tr a -> runs (fetch_balance k) (EvFetchBalance r :: tr) a
| runs_load_markets k r tr a :
    runs (k r) tr a -> runs (load_markets k) (EvLoadMarkets r :: tr) a
| runs_create_limit_order s sd am p k r tr a :
    runs (k r) tr a ->
    runs (create_limit_order s sd am p k) (EvCreateLimitOrder s sd am p r :: tr) a
| runs_create_order s ty sd am p sp k r tr a :
    runs (k r) tr a ->
    runs (create_order s ty sd am p sp k) (EvCreateOrder s ty sd am p sp r :: tr) a.

(** An exchange that answers from a script, for running programs on
    concrete inputs. *)
Inductive reply : Type :=
| RBalances (r : option balances)
| RMarkets (r : option markets)
| ROrder (r : option Order).

Fixpoint play {A : Type} (p : Prog A) (script : list reply) : option (list event * A) :=
  match p with
  | Ret a => Some ([], a)
  | fetch_balance k =>
      match script with
      | RBalances r :: script' =>
          match play (k r) script' with
          | Some (tr, a) => Some (EvFetchBalance r :: tr, a)
          | None => None
          end
      | _ => None
      end
  | load_markets k =>
      match script with
      | RMarkets r :: script' =>
          match play (k r) script' with
          | Some (tr, a) => Some (EvLoadMarkets r :: tr, a)
          | None => None
          end
      | _ => None
      end
  | create_limit_order s sd am p k =>
      match script with
      | ROrder r :: script' =>
          match play (k r) script' with
          | Some (tr, a) => Some (EvCreateLimitOrder s sd am p r :: tr, a)
          | None => None
          end
      | _ => None
      end
  | create_order s ty sd am p sp k =>
      match script with
      | ROrder r :: script' =>
          match play (k r) script' with
          | Some (tr, a) => Some (EvCreateOrder s ty sd am p sp r :: tr, a)
          | None => None
          end
      | _ => None
      end
  end.

(** Is this event an order placement (of any kind)? *)
Definition is_order (e : event) : bool :=
  match e with
  | EvCreateLimitOrder _ _ _ _ _ | EvCreateOrder _ _ _ _ _ _ _ => true
  | _ => false
  end.

(** Is this event a buy order? *)
Definition is_buy (e : event) : bool :=
  match e with
  | EvCreateLimitOrder _ buy _ _ _ | EvCreateOrder _ _ buy _ _ _ _ => true
  | _ => false
  end.

(* ================================================================== *)
(** * signal_parser.py: the signal *)
(* ================================================================== *)

(** [@dataclass class TradingSignal]. *)
Module TradingSignal.
Record t : Type := mk {
  symbol : pystr;
  first_buy_range : Q * Q;
  second_buy : Q;
  cmp : Q;
  targets : list Q;
  stop_loss : Q
}.
End TradingSignal.

(* ================================================================== *)
(** * config.py *)
(* ================================================================== *)

(** The trading options, read from the environment at import time. *)
Module config.
Record t : Type := mk {
  DEFAULT_QUOTE_ASSET : pystr;
  MAX_POSITION_SIZE : Q;
  POSITION_SIZE_PERCENTAGE : Q;
  ENABLE_STOP_LOSS : bool;
  ENABLE_TAKE_PROFIT : bool
}.

(** The values used when the environment sets none. *)
Definition default : t :=
  {| DEFAULT_QUOTE_ASSET := str "USDT";
     MAX_POSITION_SIZE := 100;
     POSITION_SIZE_PERCENTAGE := 10;
     ENABLE_STOP_LOSS := true;
     ENABLE_TAKE_PROFIT := true |}.
End config.

(* ================================================================== *)
(** * exchange_connector.py *)
(* ================================================================== *)

Module ExchangeConnector.

(** The connector; of its attributes the modelled methods read
    [exchange_name] only. *)
Record t : Type := mk { exchange_name : pystr }.

(** What [get_balance] returns for the answer [r] of [fetch_balance]:
    [0.0] when the asset is absent and when anything raised. *)
Definition free_balance (r : option balances) (asset : pystr) : Q :=
  match r with
  | Some balance =>
      match balance !! asset with
      | Some (Some free) => free
      | Some None => 0
      | None => 0
      end
  | None => 0
  end.

(** [get_balance]. *)
Definition get_balance (self : t) (asset : pystr) : Prog Q :=
  fetch_balance (fun r => Ret (free_balance r asset)).

(** [place_limit_order]: the order, or [None] when ccxt raises. *)
Definition place_limit_order (self : t) (symbol : pystr) (sd : side)
    (amount price : Q) : Prog (option Order) :=
  create_limit_order symbol sd amount price (fun r =>
    match r with
    | Some order => Ret (Some order)
    | None => Ret None
    end).

(** [place_stop_loss_order]: a stop order of the type the exchange name
    selects; when that raises, a limit sell at the stop price.  (The
    Binance call passes one more positional [None] before the params,
    which the event does not record.) *)
Definition place_stop_loss_order (self : t) (symbol : pystr)
    (amount stop_price : Q) : Prog (option Order) :=
  let fallback := place_limit_order self symbol sell amount stop_price in
  if decide (exchange_name self = str "binance") then
    create_order symbol STOP_MARKET sell amount None stop_price (fun r =>
      match r with
      | Some order => Ret (Some order)
      | None => fallback
      end)
  else
    create_order symbol stop sell amount (Some stop_price) stop_price (fun r =>
      match r with
      | Some order => Ret (Some order)
      | None => fallback
      end).

(** [place_take_profit_order]: a limit sell. *)
Definition place_take_profit_order (self : t) (symbol : pystr)
    (amount target_price : Q) : Prog (option Order) :=
  place_limit_order self symbol sell amount target_price.

(** [get_symbol]: [f"{base_asset}/{quote_asset}"]. *)
Definition get_symbol (self : t) (base_asset quote_asset : pystr) : pystr :=
  base_asset ++ str "/" ++ quote_asset.

(** What [get_min_order_size] returns for the answer [r] of
    [load_markets]: the market's minimum amount; [0.001] when the symbol
    is unknown and when anything raised. *)
Definition amount_min (r : option markets) (symbol : pystr) : Q :=
  match r with
  | Some mkts =>
      match mkts !! symbol with
      | Some (Some m) => m
      | Some None => 0.001
      | None => 0.001
      end
  | None => 0.001
  end.

(** [get_min_order_size]. *)
Definition get_min_order_size (self : t) (symbol : pystr) : Prog Q :=
  load_markets (fun r => Ret (amount_min r symbol)).

End ExchangeConnector.

(* ================================================================== *)
(** * trade_executor.py *)
(* ================================================================== *)

(** The dict stored in [active_trades] for one trade. *)
Module Trade.
Record t : Type := mk {
  symbol : pystr;
  base_symbol : pystr;
  first_order : Order;
  second_order : option Order;
  stop_loss_order : option Order;
  take_profit_orders : list Order;
  total_amount : Q;
  avg_entry_price : Q;
  signal : TradingSignal.t
}.
End Trade.

Module TradeExecutor.
Local Open Scope prog_scope.

Record t : Type := mk {
  exchange : ExchangeConnector.t;
  active_trades : gmap (list N) Trade.t
}.

(** [__init__]. *)
Definition init (exchange_connector : ExchangeConnector.t) : t :=
  {| exchange := exchange_connector; active_trades := ∅ |}.

(** The [for target_percent in signal.targets] loop of [execute_signal];
    [take_profit_orders] is the list built so far. *)
Fixpoint take_profit_loop (ex : ExchangeConnector.t) (symbol : pystr)
    (amount_per_target avg_entry_price : Q) (targets : list Q)
    (take_profit_orders : list Order) : E (list Order) :=
  match targets with
  | [] => ret take_profit_orders
  | target_percent :: rest =>
      pct <- pure (py_truediv target_percent 100) ;;
      let target_price := avg_entry_price * (1 + pct) in
      tp_order <- lift (ExchangeConnector.place_take_profit_order ex symbol
                          amount_per_target target_price) ;;
      take_profit_loop ex symbol amount_per_target avg_entry_price rest
        (match tp_order with
         | Some o => take_profit_orders ++ [o]
         | None => take_profit_orders
         end)
  end.

(** The body of the [try] of [execute_signal]: the returned flag and the
    executor after it. *)
Definition execute_signal_try (cfg : config.t) (self : t)
    (signal : TradingSignal.t) : E (bool * t) :=
  let symbol := ExchangeConnector.get_symbol (exchange self)
                  (TradingSignal.symbol signal) (config.DEFAULT_QUOTE_ASSET cfg) in
  if decide (is_Some (active_trades self !! TradingSignal.symbol signal)) then
    ret (false, self)
  else
  balance <- lift (ExchangeConnector.get_balance (exchange self)
                     (config.DEFAULT_QUOTE_ASSET cfg)) ;;
  if py_lt balance 10 then ret (false, self) else
  pct <- pure (py_truediv (config.POSITION_SIZE_PERCENTAGE cfg) 100) ;;
  let position_size := py_min (balance * pct) (config.MAX_POSITION_SIZE cfg) in
  let first_buy_size := position_size * 0.6 in
  let second_buy_size := position_size * 0.4 in
  first_buy_price <- pure (py_truediv
      (fst (TradingSignal.first_buy_range signal)
       + snd (TradingSignal.first_buy_range signal)) 2) ;;
  first_buy_amount <- pure (py_truediv first_buy_size first_buy_price) ;;
  min_order_size <- lift (ExchangeConnector.get_min_order_size (exchange self) symbol) ;;
  let below := py_lt first_buy_amount min_order_size in
  let first_buy_amount := if below then min_order_size else first_buy_amount in
  let first_buy_size := if below then first_buy_amount * first_buy_price
                        else first_buy_size in
  first_order <- lift (ExchangeConnector.place_limit_order (exchange self)
                         symbol buy first_buy_amount first_buy_price) ;;
  match first_order with
  | None => ret (false, self)
  | Some first_order =>
  let total_amount := first_buy_amount in
  let total_cost := first_buy_size in
  second_buy_amount <- pure (py_truediv second_buy_size
                               (TradingSignal.second_buy signal)) ;;
  second <-
    (if py_ge second_buy_amount min_order_size then
       second_order <- lift (ExchangeConnector.place_limit_order (exchange self)
                               symbol buy second_buy_amount
                               (TradingSignal.second_buy signal)) ;;
       match second_order with
       | Some _ => ret (second_order, total_amount + second_buy_amount,
                        total_cost + second_buy_size)
       | None => ret (second_order, total_amount, total_cost)
       end
     else ret (None, total_amount, total_cost)) ;;
  let second_order := fst (fst second) in
  let total_amount := snd (fst second) in
  let total_cost := snd second in
  avg_entry_price <-
    (if py_lt 0 total_amount then pure (py_truediv total_cost total_amount)
     else ret first_buy_price) ;;
  stop_loss_order <-
    (if config.ENABLE_STOP_LOSS cfg then
       lift (ExchangeConnector.place_stop_loss_order (exchange self) symbol
               total_amount (TradingSignal.stop_loss signal))
     else ret None) ;;
  take_profit_orders <-
    (match config.ENABLE_TAKE_PROFIT cfg, TradingSignal.targets signal with
     | true, _ :: _ =>
         amount_per_target <- pure (py_truediv total_amount
             (inject_Z (Z.of_nat (length (TradingSignal.targets signal))))) ;;
         take_profit_loop (exchange self) symbol amount_per_target
           avg_entry_price (TradingSignal.targets signal) []
     | _, _ => ret []
     end) ;;
  ret (true,
       {| exchange := exchange self;
          active_trades :=
            <[ TradingSignal.symbol signal :=
               {| Trade.symbol := symbol;
                  Trade.base_symbol := TradingSignal.symbol signal;
                  Trade.first_order := first_order;
                  Trade.second_order :=
                    if py_ge second_buy_amount min_order_size
                    then second_order else None;
                  Trade.stop_loss_order := stop_loss_order;
                  Trade.take_profit_orders := take_profit_orders;
                  Trade.total_amount := total_amount;
                  Trade.avg_entry_price := avg_entry_price;
                  Trade.signal := signal |} ]> (active_trades self) |})
  end.

(** [execute_signal]: any exception of the body is logged and turned into
    [False]; the executor is then as the body found it. *)
Definition execute_signal (cfg : config.t) (self : t)
    (signal : TradingSignal.t) : Prog (bool * t) :=
  try_except (execute_signal_try cfg self signal) (fun e => Ret (false, self)).

(** [check_trade_status]. *)
Definition check_trade_status (self : t) (symbol : pystr) : option Trade.t :=
  active_trades self !! symbol.

(** [get_active_trades]: [self.active_trades.copy()].  By value the copy
    is the mapping itself; which objects it shares with the executor is
    the matter of [Objects] below. *)
Definition get_active_trades (self : t) : gmap (list N) Trade.t :=
  active_trades self.

(** [remove_trade]. *)
Definition remove_trade (self : t) (symbol : pystr) : t :=
  {| exchange := exchange self;
     active_trades := delete symbol (active_trades self) |}.

End TradeExecutor.

(* ================================================================== *)
(** * The parts of Python's [re], [str] and [float] the parser uses *)
(* ================================================================== *)

(** The Unicode tables behind [\d], [\s], [re.IGNORECASE], [str.upper] and
    [float].  They belong to the interpreter, not to the repository, so
    the parser is modelled over any such tables. *)
Class Unicode : Type := {
  decimal : char -> option N;   (* the value of a decimal digit *)
  isspace : char -> bool;
  lower : char -> char;         (* the case folding of IGNORECASE *)
  upper : char -> pystr         (* [str.upper] of one character *)
}.

Module re.
Section Engine.
Context {U : Unicode}.

(** One element of a character set [[...]] (a set of one element stands
    for a literal character or a bare class such as [\d]). *)
Inductive citem : Type :=
| CChar (c : char)
| CRange (lo hi : char)
| CDigit                        (* \d *)
| CSpace.                       (* \s *)

(** The code points [lo], [lo+1], ... ([n] of them). *)
Fixpoint codes (lo : char) (n : nat) : list char :=
  match n with
  | O => []
  | S n' => lo :: codes (N.succ lo) n'
  end.

(** Does [ch] match the set element?  [ic] is the IGNORECASE flag. *)
Definition citem_match (ic : bool) (it : citem) (ch : char) : bool :=
  match it with
  | CChar c => if ic then N.eqb (lower c) (lower ch) else N.eqb c ch
  | CRange lo hi =>
      if ic then
        existsb (fun c => N.eqb (lower c) (lower ch))
          (codes lo (N.to_nat (N.succ hi - lo)))
      else N.leb lo ch && N.leb ch hi
  | CDigit => match decimal ch with Some _ => true | None => false end
  | CSpace => isspace ch
  end.

Definition cmatch (ic : bool) (c : list citem) (ch : char) : bool :=
  existsb (fun it => citem_match ic it ch) c.

(** The patterns of the parser are sequences of these pieces; every
    quantifier in them applies to one character set, and every group is
    a [+]-repetition of one. *)
Inductive piece : Type :=
| One (c : list citem)          (* x *)
| Opt (c : list citem)          (* x? *)
| Star (c : list citem)         (* x* *)
| Plus (c : list citem)         (* x+ *)
| Group (c : list citem).       (* (x+) *)

(** A literal string inside a pattern. *)
Definition lit (s : string) : list piece :=
  map (fun c => One [CChar c]) (str s).

(** A greedy repetition that backtracks: take one more character when it
    is in the set and the rest then matches, else stop here.  [acc] is
    what the repetition has taken so far. *)
Fixpoint greedy {A : Type} (ic : bool) (c : list citem)
    (k : pystr -> pystr -> option A) (acc s : pystr) : option A :=
  match s with
  | ch :: s' =>
      if cmatch ic c ch then
        match greedy ic c k (acc ++ [ch]) s' with
        | Some x => Some x
        | None => k acc s
        end
      else k acc s
  | [] => k acc s
  end.

(** Match the pattern at the start of [s]: the captured groups and the
    unread rest of [s], following the priorities of a backtracking
    matcher. *)
Fixpoint match_here (ic : bool) (r : list piece) (s : pystr)
    : option (list pystr * pystr) :=
  match r with
  | [] => Some ([], s)
  | One c :: r' =>
      match s with
      | ch :: s' => if cmatch ic c ch then match_here ic r' s' else None
      | [] => None
      end
  | Opt c :: r' =>
      match s with
      | ch :: s' =>
          if cmatch ic c ch then
            match match_here ic r' s' with
            | Some x => Some x
            | None => match_here ic r' s
            end
          else match_here ic r' s
      | [] => match_here ic r' s
      end
  | Star c :: r' => greedy ic c (fun _ t => match_here ic r' t) [] s
  | Plus c :: r' =>
      match s with
      | ch :: s' =>
          if cmatch ic c ch
          then greedy ic c (fun _ t => match_here ic r' t) [ch] s'
          else None
      | [] => None
      end
  | Group c :: r' =>
      match s with
      | ch :: s' =>
          if cmatch ic c ch then
            greedy ic c
              (fun g t =>
                 match match_here ic r' t with
                 | Some (gs, rest) => Some (g :: gs, rest)
                 | None => None
                 end) [ch] s'
          else None
      | [] => None
      end
  end.

(** [re.search]: the groups of the leftmost match. *)
Fixpoint search (ic : bool) (r : list piece) (s : pystr) : option (list pystr) :=
  match match_here ic r s with
  | Some (gs, _) => Some gs
  | None =>
      match s with
      | [] => None
      | _ :: s' => search ic r s'
      end
  end.

(** [Match.group(n)], [n >= 1]. *)
Definition group (m : list pystr) (n : nat) : pystr := nth (n - 1) m [].

(** [re.findall] for a pattern with one group: group 1 of every match,
    left to right, matches not overlapping.  [skip] counts the characters
    still covered by the last match. *)
Fixpoint findall_from (ic : bool) (r : list piece) (skip : nat) (s : pystr)
    : list pystr :=
  match s with
  | [] => []
  | _ :: s' =>
      match skip with
      | S n => findall_from ic r n s'
      | O =>
          match match_here ic r s with
          | Some (gs, rest) =>
              group gs 1 :: findall_from ic r (length s - length rest - 1) s'
          | None => findall_from ic r 0 s'
          end
      end
  end.

Definition findall (ic : bool) (r : list piece) (s : pystr) : list pystr :=
  findall_from ic r 0 s.

End Engine.
End re.

Section Builtins.
Context {U : Unicode}.

(** [float(s)] on the strings the parser hands it, which consist of
    decimal digits and dots: digits with at most one dot and at least one
    digit convert, anything else raises [ValueError].  [num / den] is the
    value read so far.  The result is the decimal the string writes, as
    an exact rational; Python returns the binary64 number nearest to it
    ([float_of_Q] below), and [inf] when that is out of range, which
    takes a string of 309 digits or more. *)
Fixpoint float_from (s : pystr) (num : Z) (den : positive)
    (seen_dot seen_digit : bool) : res Q :=
  match s with
  | [] => if seen_digit then Ok (num # den) else Raise ValueError
  | ch :: s' =>
      if N.eqb ch 46 then
        if seen_dot then Raise ValueError
        else float_from s' num den true seen_digit
      else
        match decimal ch with
        | Some d =>
            float_from s' (10 * num + Z.of_N d)
              (if seen_dot then 10 * den else den) seen_dot true
        | None => Raise ValueError
        end
  end.

Definition float (s : pystr) : res Q := float_from s 0 1 false false.

(** [s.upper()]. *)
Definition str_upper (s : pystr) : pystr := flat_map upper s.

End Builtins.

(** [sorted(l)] on floats: ascending and stable. *)
Fixpoint insert_sorted (x : Q) (l : list Q) : list Q :=
  match l with
  | [] => [x]
  | y :: l' => if Qle_bool x y then x :: l else y :: insert_sorted x l'
  end.

Definition sorted (l : list Q) : list Q := fold_right insert_sorted [] l.

(** The tables on the ASCII range: the digits 0-9, the whitespace of
    [str.isspace] below 128 (U+0009 to U+000D, U+001C to U+001F and the
    space), and the letters A-Z and a-z. *)
Definition ascii_decimal (ch : char) : option N :=
  if (N.leb 48 ch && N.leb ch 57)%bool then Some (ch - 48)%N else None.
Definition ascii_isspace (ch : char) : bool :=
  ((N.leb 9 ch && N.leb ch 13) || (N.leb 28 ch && N.leb ch 32))%bool.
Definition ascii_lower (ch : char) : char :=
  if (N.leb 65 ch && N.leb ch 90)%bool then (ch + 32)%N else ch.
Definition ascii_upper (ch : char) : pystr :=
  [if (N.leb 97 ch && N.leb ch 122)%bool then (ch - 32)%N else ch].

Definition ascii_tables : Unicode :=
  {| decimal := ascii_decimal; isspace := ascii_isspace;
     lower := ascii_lower; upper := ascii_upper |}.

(* ================================================================== *)
(** * signal_parser.py: the parser *)
(* ================================================================== *)

Module SignalParser.
Section Parser.
Context {U : Unicode}.
Import re.

Definition chr (a : ascii) : char := N_of_ascii a.
(** The en dash of the first-buy pattern, U+2013. *)
Definition en_dash : char := 8211%N.

(** [[\d.]]. *)
Definition number_chars : list citem := [CDigit; CChar (chr ".")].

(** [r'\$([A-Z0-9]+)'] *)
Definition symbol_re : list piece :=
  [One [CChar (chr "$")];
   Group [CRange (chr "A") (chr "Z"); CRange (chr "0") (chr "9")]].

(** [r'first\s+buying[:\s]+([\d.]+)[\s–-]+([\d.]+)'] *)
Definition first_buy_re : list piece :=
  lit "first" ++ [Plus [CSpace]] ++ lit "buying"
  ++ [Plus [CChar (chr ":"); CSpace];
      Group number_chars;
      Plus [CSpace; CChar en_dash; CChar (chr "-")];
      Group number_chars].

(** [r'second\s+buying[:\s]+([\d.]+)'] *)
Definition second_buy_re : list piece :=
  lit "second" ++ [Plus [CSpace]] ++ lit "buying"
  ++ [Plus [CChar (chr ":"); CSpace]; Group number_chars].

(** [r'cmp[:\s]+([\d.]+)'] *)
Definition cmp_re : list piece :=
  lit "cmp" ++ [Plus [CChar (chr ":"); CSpace]; Group number_chars].

(** [r'(\d+)%'] *)
Definition percent_re : list piece := [Group [CDigit]; One [CChar (chr "%")]].

(** [r'targets?\s*[:\n]+([\d%\s,]+)'] *)
Definition target_section_re : list piece :=
  lit "target" ++ [Opt [CChar (chr "s")]; Star [CSpace];
                   Plus [CChar (chr ":"); CChar 10%N];
                   Group [CDigit; CChar (chr "%"); CSpace; CChar (chr ",")]].

(** [r'sl[:\s]+([\d.]+)'] *)
Definition sl_re : list piece :=
  lit "sl" ++ [Plus [CChar (chr ":"); CSpace]; Group number_chars].

(** [[float(t) for t in l]], stopping at the first conversion that
    raises. *)
Fixpoint floats (l : list pystr) : res (list Q) :=
  match l with
  | [] => Ok []
  | t :: l' =>
      match float t with
      | Ok x => match floats l' with Ok xs => Ok (x :: xs) | Raise e => Raise e end
      | Raise e => Raise e
      end
  end.

(** Sequencing of expressions that may raise. *)
Definition and_then {A B : Type} (r : res A) (f : A -> res B) : res B :=
  match r with Ok a => f a | Raise e => Raise e end.

(** The body of the [try] of [parse_message]. *)
Definition parse_message_try (message_content : pystr)
    : res (option TradingSignal.t) :=
  match search true symbol_re message_content with
  | None => Ok None
  | Some symbol_match =>
  let symbol := str_upper (group symbol_match 1) in
  match search true first_buy_re message_content with
  | None => Ok None
  | Some first_buy_match =>
  and_then (float (group first_buy_match 1)) (fun first_buy_min =>
  and_then (float (group first_buy_match 2)) (fun first_buy_max =>
  match search true second_buy_re message_content with
  | None => Ok None
  | Some second_buy_match =>
  and_then (float (group second_buy_match 1)) (fun second_buy =>
  match search true cmp_re message_content with
  | None => Ok None
  | Some cmp_match =>
  and_then (float (group cmp_match 1)) (fun cmp =>
  let target_matches := findall false percent_re message_content in
  and_then (floats target_matches) (fun targets =>
  and_then
    (match targets with
     | _ :: _ => Ok targets
     | [] =>
         match search true target_section_re message_content with
         | Some target_section =>
             floats (findall false percent_re (group target_section 1))
         | None => Ok targets
         end
     end) (fun targets =>
  match search true sl_re message_content with
  | None => Ok None
  | Some sl_match =>
  and_then (float (group sl_match 1)) (fun stop_loss =>
  Ok (Some
    {| TradingSignal.symbol := symbol;
       TradingSignal.first_buy_range := (first_buy_min, first_buy_max);
       TradingSignal.second_buy := second_buy;
       TradingSignal.cmp := cmp;
       TradingSignal.targets := sorted targets;
       TradingSignal.stop_loss := stop_loss |}))
  end)))
  end)
  end))
  end
  end.

(** [parse_message]: the signal, or [None] when a field is missing or
    the body raises. *)
Definition parse_message (message_content : pystr) : option TradingSignal.t :=
  match parse_message_try message_content with
  | Ok r => r
  | Raise _ => None
  end.

(** [bool(re.search(...))]. *)
Definition found (m : option (list pystr)) : bool :=
  match m with Some _ => true | None => false end.

(** [is_signal_message]. *)
Definition is_signal_message (message_content : pystr) : bool :=
  let has_symbol :=
    found (search true [One [CChar (chr "$")];
                        Plus [CRange (chr "A") (chr "Z"); CRange (chr "0") (chr "9")]]
             message_content) in
  let has_buying := found (search true (lit "buying") message_content) in
  let has_cmp := found (search true (lit "cmp") message_content) in
  let has_targets :=
    found (search false [Plus [CDigit]; One [CChar (chr "%")]] message_content) in
  let has_sl :=
    found (search true (lit "sl" ++ [Plus [CChar (chr ":"); CSpace];
                                     Plus number_chars]) message_content) in
  has_symbol && has_buying && (has_cmp || has_targets || has_sl).

End Parser.
End SignalParser.

(* ================================================================== *)
(** * The local variables of [execute_signal] *)
(* ================================================================== *)

(** The values [execute_signal] gives its local variables, as functions
    of what [get_balance] and [get_min_order_size] returned.  [/] is the
    division of [Q] here; that the code reaches none of them with a zero
    divisor, and uses exactly these values, is lemma
    [execute_signal_exits] below. *)
Module Locals.
Section Locals.
Variable cfg : config.t.
Variable ex : ExchangeConnector.t.
Variable signal : TradingSignal.t.
Variables balance min_order_size : Q.

Definition symbol : pystr :=
  ExchangeConnector.get_symbol ex (TradingSignal.symbol signal)
    (config.DEFAULT_QUOTE_ASSET cfg).

Definition position_size : Q :=
  py_min (balance * (config.POSITION_SIZE_PERCENTAGE cfg / 100))
    (config.MAX_POSITION_SIZE cfg).

Definition second_buy_size : Q := position_size * 0.4.

Definition first_buy_price : Q :=
  (fst (TradingSignal.first_buy_range signal)
   + snd (TradingSignal.first_buy_range signal)) / 2.

(** [first_buy_amount] as first computed, before the minimum is looked at. *)
Definition first_buy_amount_computed : Q :=
  position_size * 0.6 / first_buy_price.

(** [first_buy_amount] and [first_buy_size] when the order is placed. *)
Definition first_buy_amount : Q :=
  if py_lt first_buy_amount_computed min_order_size
  then min_order_size else first_buy_amount_computed.

Definition first_buy_size : Q :=
  if py_lt first_buy_amount_computed min_order_size
  then first_buy_amount * first_buy_price else position_size * 0.6.

Definition second_buy_amount : Q :=
  second_buy_size / TradingSignal.second_buy signal.

(** [total_amount] and [total_cost] after the second tranche, whose
    order returned [second_order] ([None] also when it was not placed). *)
Definition total_amount (second_order : option Order) : Q :=
  match second_order with
  | Some _ => first_buy_amount + second_buy_amount
  | None => first_buy_amount
  end.

Definition total_cost (second_order : option Order) : Q :=
  match second_order with
  | Some _ => first_buy_size + second_buy_size
  | None => first_buy_size
  end.

Definition avg_entry_price (second_order : option Order) : Q :=
  if py_lt 0 (total_amount second_order)
  then total_cost second_order / total_amount second_order
  else first_buy_price.

(** The dict stored at the end. *)
Definition trade (first_order : Order) (second_order stop_loss_order : option Order)
    (take_profit_orders : list Order) : Trade.t :=
  {| Trade.symbol := symbol;
     Trade.base_symbol := TradingSignal.symbol signal;
     Trade.first_order := first_order;
     Trade.second_order := second_order;
     Trade.stop_loss_order := stop_loss_order;
     Trade.take_profit_orders := take_profit_orders;
     Trade.total_amount := total_amount second_order;
     Trade.avg_entry_price := avg_entry_price second_order;
     Trade.signal := signal |}.

End Locals.
End Locals.

(** The ways out of [execute_signal], one constructor per [return] and
    per statement that can raise, each with the calls made until then. *)
Inductive exit (cfg : config.t) (self : TradeExecutor.t) (signal : TradingSignal.t)
    : list event -> bool * TradeExecutor.t -> Prop :=
| exit_duplicate :
    is_Some (TradeExecutor.active_trades self !! TradingSignal.symbol signal) ->
    exit cfg self signal [] (false, self)
| exit_balance r_bal :
    TradeExecutor.active_trades self !! TradingSignal.symbol signal = None ->
    let balance := ExchangeConnector.free_balance r_bal (config.DEFAULT_QUOTE_ASSET cfg) in
    balance < 10 ->
    exit cfg self signal [EvFetchBalance r_bal] (false, self)
| exit_first_price_zero r_bal :
    TradeExecutor.active_trades self !! TradingSignal.symbol signal = None ->
    let balance := ExchangeConnector.free_balance r_bal (config.DEFAULT_QUOTE_ASSET cfg) in
    10 <= balance ->
    Locals.first_buy_price signal == 0 ->
    exit cfg self signal [EvFetchBalance r_bal] (false, self)
| exit_first_buy_failed r_bal r_mk :
    TradeExecutor.active_trades self !! TradingSignal.symbol signal = None ->
    let ex := TradeExecutor.exchange self in
    let balance := ExchangeConnector.free_balance r_bal (config.DEFAULT_QUOTE_ASSET cfg) in
    let min_order_size := ExchangeConnector.amount_min r_mk (Locals.symbol cfg ex signal) in
    10 <= balance ->
    ~ Locals.first_buy_price signal == 0 ->
    exit cfg self signal
      [EvFetchBalance r_bal; EvLoadMarkets r_mk;
       EvCreateLimitOrder (Locals.symbol cfg ex signal) buy
         (Locals.first_buy_amount cfg signal balance min_order_size)
         (Locals.first_buy_price signal) None]
      (false, self)
| exit_second_price_zero r_bal r_mk first_order :
    TradeExecutor.active_trades self !! TradingSignal.symbol signal = None ->
    let ex := TradeExecutor.exchange self in
    let balance := ExchangeConnector.free_balance r_bal (config.DEFAULT_QUOTE_ASSET cfg) in
    let min_order_size := ExchangeConnector.amount_min r_mk (Locals.symbol cfg ex signal) in
    10 <= balance ->
    ~ Locals.first_buy_price signal == 0 ->
    TradingSignal.second_buy signal == 0 ->
    exit cfg self signal
      [EvFetchBalance r_bal; EvLoadMarkets r_mk;
       EvCreateLimitOrder (Locals.symbol cfg ex signal) buy
         (Locals.first_buy_amount cfg signal balance min_order_size)
         (Locals.first_buy_price signal) (Some first_order)]
      (false, self)
| exit_recorded r_bal r_mk first_order tr_second second_order tr_stop stop_loss_order
    tr_targets take_profit_orders :
    TradeExecutor.active_trades self !! TradingSignal.symbol signal = None ->
    let ex := TradeExecutor.exchange self in
    let symbol := Locals.symbol cfg ex signal in
    let balance := ExchangeConnector.free_balance r_bal (config.DEFAULT_QUOTE_ASSET cfg) in
    let min_order_size := ExchangeConnector.amount_min r_mk symbol in
    let second_buy_amount := Locals.second_buy_amount cfg signal balance in
    let total_amount := Locals.total_amount cfg signal balance min_order_size second_order in
    let avg_entry_price := Locals.avg_entry_price cfg signal balance min_order_size second_order in
    10 <= balance ->
    ~ Locals.first_buy_price signal == 0 ->
    ~ TradingSignal.second_buy signal == 0 ->
    (* the second buy: placed when its amount reaches the minimum *)
    (if py_ge second_buy_amount min_order_size
     then tr_second = [EvCreateLimitOrder symbol buy second_buy_amount
                         (TradingSignal.second_buy signal) second_order]
     else tr_second = [] /\ second_order = None) ->
    (* the stop loss *)
    (if config.ENABLE_STOP_LOSS cfg
     then runs (ExchangeConnector.place_stop_loss_order ex symbol total_amount
                  (TradingSignal.stop_loss signal)) tr_stop stop_loss_order
     else tr_stop = [] /\ stop_loss_order = None) ->
    (* the take-profit orders *)
    (if config.ENABLE_TAKE_PROFIT cfg && negb (Nat.eqb (length (TradingSignal.targets signal)) 0)
     then runs (TradeExecutor.take_profit_loop ex symbol
                  (total_amount / inject_Z (Z.of_nat (length (TradingSignal.targets signal))))
                  avg_entry_price (TradingSignal.targets signal) [])
            tr_targets (Ok take_profit_orders)
     else tr_targets = [] /\ take_profit_orders = []) ->
    exit cfg self signal
      ([EvFetchBalance r_bal; EvLoadMarkets r_mk;
        EvCreateLimitOrder symbol buy
          (Locals.first_buy_amount cfg signal balance min_order_size)
          (Locals.first_buy_price signal) (Some first_order)]
       ++ tr_second ++ tr_stop ++ tr_targets)
      (true,
       {| TradeExecutor.exchange := ex;
          TradeExecutor.active_trades :=
            <[ TradingSignal.symbol signal :=
               Locals.trade cfg ex signal balance min_order_size first_order
                 second_order stop_loss_order take_profit_orders ]>
              (TradeExecutor.active_trades self) |}).

(* ================================================================== *)
(** * [active_trades] as Python objects *)
(* ================================================================== *)

(** [execute_signal] only ever binds a key of [self.active_trades] to a
    new dict, so the executor above carries the dict by value.
    [get_active_trades] hands a dict to the caller, and what the caller
    can then do to the executor's state depends on which objects the two
    share.  Here dicts live on a heap: a dict of trades maps each key to
    the reference of a trade dict. *)
Module Objects.

Record heap : Type := mk {
  dicts : gmap nat (gmap (list N) nat);   (* the dicts of trades *)
  trades : gmap nat Trade.t               (* the trade dicts *)
}.

(** The executor: [self.active_trades] is a reference. *)
Record executor : Type := mk_executor { active_trades : nat }.

(** The items of the dict at [d]. *)
Definition items (h : heap) (d : nat) : gmap (list N) nat :=
  default ∅ (dicts h !! d).

(** [d.copy()]: a new dict object with the same keys, bound to the same
    objects. *)
Definition dict_copy (h : heap) (d : nat) : nat * heap :=
  let d' := fresh (dom (dicts h)) in
  (d', {| dicts := <[ d' := items h d ]> (dicts h); trades := trades h |}).

(** [get_active_trades]. *)
Definition get_active_trades (h : heap) (self : executor) : nat * heap :=
  dict_copy h (active_trades self).

(** [self.active_trades[k] = {...}], the store that ends [execute_signal]:
    the dict display makes a new trade dict. *)
Definition store (h : heap) (self : executor) (k : pystr) (t : Trade.t) : heap :=
  let r := fresh (dom (trades h)) in
  {| dicts := <[ active_trades self := <[ k := r ]> (items h (active_trades self)) ]> (dicts h);
     trades := <[ r := t ]> (trades h) |}.

(** What a holder of the reference [d] can do to the state. *)
Inductive mutation : Type :=
| SetItem (k : pystr) (r : nat)                      (* d[k] = r *)
| DelItem (k : pystr)                                (* del d[k] *)
| SetField (k : pystr) (update : Trade.t -> Trade.t). (* d[k][field] = v *)

(** Does the mutation act on the mapping itself (rather than on a trade
    dict reached through it)? *)
Definition on_mapping (m : mutation) : bool :=
  match m with
  | SetItem _ _ | DelItem _ => true
  | SetField _ _ => false
  end.

Definition mutate (h : heap) (d : nat) (m : mutation) : heap :=
  match m with
  | SetItem k r =>
      {| dicts := <[ d := <[ k := r ]> (items h d) ]> (dicts h); trades := trades h |}
  | DelItem k =>
      {| dicts := <[ d := delete k (items h d) ]> (dicts h); trades := trades h |}
  | SetField k update =>
      match items h d !! k with
      | Some r => {| dicts := dicts h; trades := alter update r (trades h) |}
      | None => h
      end
  end.

(** What reading through [d] shows: each key with the trade its
    reference leads to. *)
Definition contents (h : heap) (d : nat) : gmap (list N) Trade.t :=
  omap (fun r => trades h !! r) (items h d).

(** Every reference stored in a dict leads to a trade dict. *)
Definition well_formed (h : heap) : Prop :=
  forall d m k r, dicts h !! d = Some m -> m !! k = Some r -> is_Some (trades h !! r).

End Objects.

(* ================================================================== *)
(** * The language of a pattern *)
(* ================================================================== *)

Module relang.
Section Lang.
Context {U : Unicode}.
Import re.

(** [lang ic r u]: the pattern [r] matches the whole of [u].  Groups do
    not matter here. *)
Fixpoint lang (ic : bool) (r : list piece) (u : pystr) : Prop :=
  match r with
  | [] => u = []
  | One c :: r' =>
      exists ch u', u = ch :: u' /\ cmatch ic c ch = true /\ lang ic r' u'
  | Opt c :: r' =>
      lang ic r' u
      \/ exists ch u', u = ch :: u' /\ cmatch ic c ch = true /\ lang ic r' u'
  | Star c :: r' =>
      exists v w, u = v ++ w /\ Forall (fun ch => cmatch ic c ch = true) v
                  /\ lang ic r' w
  | Plus c :: r' | Group c :: r' =>
      exists ch v w, u = ch :: v ++ w /\ cmatch ic c ch = true
                     /\ Forall (fun ch => cmatch ic c ch = true) v
                     /\ lang ic r' w
  end.

(** The pattern without its groups. *)
Definition ungroup (r : list piece) : list piece :=
  map (fun p => match p with Group c => Plus c | _ => p end) r.

(** [t] occurs in [s]. *)
Definition infix (t s : pystr) : Prop := exists pre post, s = pre ++ t ++ post.

End Lang.
End relang.

(* ================================================================== *)
(** * What a trace shows *)
(* ================================================================== *)

(** Did the first order of the trace, the mandatory first-tranche buy,
    return an order? *)
Definition first_buy_filled (tr : list event) : bool :=
  match find is_order tr with
  | Some (EvCreateLimitOrder _ buy _ _ (Some _)) => true
  | _ => false
  end.

(** Is the event anything but a stop order? *)
Definition is_limit (e : event) : Prop :=
  match e with EvCreateOrder _ _ _ _ _ _ _ => False | _ => True end.

(* ================================================================== *)
(** * Concrete inputs *)
(* ================================================================== *)

Module Examples.

Definition nl : pystr := [10%N].

(** The signal of the specification's first scenario. *)
Definition lsk_text : pystr :=
  str "Buying $LSK" ++ nl ++ str "First buying: 0.208-0.210" ++ nl
  ++ str "Second buying: 0.205" ++ nl ++ str "CMP: 0.209" ++ nl
  ++ str "Targets: 5%, 10%, 15%" ++ nl ++ str "SL: 0.195".

Definition lsk_signal : TradingSignal.t :=
  {| TradingSignal.symbol := str "LSK";
     TradingSignal.first_buy_range := (0.208, 0.210);
     TradingSignal.second_buy := 0.205;
     TradingSignal.cmp := 0.209;
     TradingSignal.targets := [5; 10; 15];
     TradingSignal.stop_loss := 0.195 |}.

(** The same message with a second-buy price of zero. *)
Definition zero_second_text : pystr :=
  str "Buying $LSK" ++ nl ++ str "First buying: 0.208-0.210" ++ nl
  ++ str "Second buying: 0" ++ nl ++ str "CMP: 0.209" ++ nl
  ++ str "Targets: 5%, 10%, 15%" ++ nl ++ str "SL: 0.195".

Definition zero_second_signal : TradingSignal.t :=
  {| TradingSignal.symbol := str "LSK";
     TradingSignal.first_buy_range := (0.208, 0.210);
     TradingSignal.second_buy := 0;
     TradingSignal.cmp := 0.209;
     TradingSignal.targets := [5; 10; 15];
     TradingSignal.stop_loss := 0.195 |}.

(** The same message without a targets line. *)
Definition no_targets_text : pystr :=
  str "Buying $LSK" ++ nl ++ str "First buying: 0.208-0.210" ++ nl
  ++ str "Second buying: 0.205" ++ nl ++ str "CMP: 0.209" ++ nl
  ++ str "SL: 0.195".

Definition no_targets_signal : TradingSignal.t :=
  {| TradingSignal.symbol := str "LSK";
     TradingSignal.first_buy_range := (0.208, 0.210);
     TradingSignal.second_buy := 0.205;
     TradingSignal.cmp := 0.209;
     TradingSignal.targets := [];
     TradingSignal.stop_loss := 0.195 |}.

Definition binance : ExchangeConnector.t :=
  {| ExchangeConnector.exchange_name := str "binance" |}.

(** An executor with no trade yet. *)
Definition fresh_executor : TradeExecutor.t := TradeExecutor.init binance.

Definition order (id : string) : Order := {| order_id := str id |}.

(** A trade in LSK as [execute_signal] would have stored it. *)
Definition lsk_trade : Trade.t :=
  {| Trade.symbol := str "LSK/USDT";
     Trade.base_symbol := str "LSK";
     Trade.first_order := order "1";
     Trade.second_order := None;
     Trade.stop_loss_order := None;
     Trade.take_profit_orders := [];
     Trade.total_amount := 300;
     Trade.avg_entry_price := 0.209;
     Trade.signal := lsk_signal |}.

(** An executor that already holds it. *)
Definition busy_executor : TradeExecutor.t :=
  {| TradeExecutor.exchange := binance;
     TradeExecutor.active_trades := {[ str "LSK" := lsk_trade ]} |}.

(** Answers of the exchange: a free balance of [usdt], and the market
    table with the given minimum amount for LSK/USDT. *)
Definition balance_of (usdt : Q) : option (gmap (list N) (option Q)) :=
  Some {[ str "USDT" := Some usdt ]}.
Definition markets_of (amount_min : Q) : option (gmap (list N) (option Q)) :=
  Some {[ str "LSK/USDT" := Some amount_min ]}.

(** Scenario A: balance 1000 and the default minimum.  Both buys are
    accepted; the stop order and its fallback are rejected; of the three
    take-profit orders the second is rejected. *)
Definition script_a : list reply :=
  [RBalances (balance_of 1000); RMarkets None;
   ROrder (Some (order "1")); ROrder (Some (order "2"));
   ROrder None; ROrder None;
   ROrder (Some (order "3")); ROrder None; ROrder (Some (order "4"))].

Definition run_a : option (list event * (bool * TradeExecutor.t)) :=
  play (TradeExecutor.execute_signal config.default fresh_executor lsk_signal) script_a.

(** Scenario B: balance 1000 and a minimum order size of 300.  The first
    buy is raised to 300 and accepted, the second tranche (about 195) is
    below the minimum; the stop order and the take-profit orders are
    accepted. *)
Definition script_b : list reply :=
  [RBalances (balance_of 1000); RMarkets (markets_of 300);
   ROrder (Some (order "1")); ROrder (Some (order "2"));
   ROrder (Some (order "3")); ROrder (Some (order "4")); ROrder (Some (order "5"))].

Definition run_b : option (list event * (bool * TradeExecutor.t)) :=
  play (TradeExecutor.execute_signal config.default fresh_executor lsk_signal) script_b.

(** Scenario C: the signal with a zero second-buy price; the first buy
    is accepted. *)
Definition script_c : list reply :=
  [RBalances (balance_of 1000); RMarkets (markets_of 300); ROrder (Some (order "1"))].

(** The trace and the result of a played execution. *)
Definition trace_of {A : Type} (run : option (list event * A)) : list event :=
  match run with Some (tr, _) => tr | None => [] end.
Definition result_of (run : option (list event * (bool * TradeExecutor.t)))
    : bool * TradeExecutor.t :=
  match run with Some (_, res) => res | None => (false, fresh_executor) end.

(** A heap on which [busy_executor]'s dict is object 0 and its LSK
    trade object 0 of the trade dicts. *)
Definition busy_heap : Objects.heap :=
  {| Objects.dicts := {[ 0%nat := {[ str "LSK" := 0%nat ]} ]};
     Objects.trades := {[ 0%nat := lsk_trade ]} |}.
Definition busy_object : Objects.executor := {| Objects.active_trades := 0%nat |}.

(** [trade['total_amount'] = 0]. *)
Definition zero_amount (t : Trade.t) : Trade.t :=
  {| Trade.symbol := Trade.symbol t;
     Trade.base_symbol := Trade.base_symbol t;
     Trade.first_order := Trade.first_order t;
     Trade.second_order := Trade.second_order t;
     Trade.stop_loss_order := Trade.stop_loss_order t;
     Trade.take_profit_orders := Trade.take_profit_orders t;
     Trade.total_amount := 0;
     Trade.avg_entry_price := Trade.avg_entry_price t;
     Trade.signal := Trade.signal t |}.

End Examples.

(* ================================================================== *)
(** * bot.py *)
(* ================================================================== *)

Module bot.

(** What the handlers read of a [discord.Message]; users and channels
    are their ids. *)
Record Message : Type := mk_message {
  author : N;
  channel_id : Z;
  content : pystr
}.

(** What [on_message] passes to [message.channel.send].  The texts are
    formatted from the signal and its symbol; the model keeps which
    message it is and the value it is formatted from. *)
Inductive sent : Type :=
| SignalDetected (signal : TradingSignal.t)  (* the embed "Trading Signal Detected" *)
| ExecutionInitiated (symbol : pystr)        (* "Trade execution initiated for $..." *)
| ExecutionFailed (symbol : pystr)           (* "Failed to execute trade for $..." *)
| NotConnected                               (* "Exchange not connected. ..." *)
| CouldNotParse.                             (* "Could not parse trading signal. ..." *)

(** The globals of the module that [on_message] reads: [bot.user],
    [DISCORD_CHANNEL_ID], and [trade_executor], which is [None] until
    [on_ready] has connected the exchange. *)
Record t : Type := mk {
  user : N;
  DISCORD_CHANNEL_ID : Z;
  trade_executor : option TradeExecutor.t
}.

Section Handlers.
Context {U : Unicode}.

(** [on_message]: what it passed to [send], in order, and the globals
    after it.  [send] is a call to Discord and can raise; the handler
    catches nothing, so an exception ends it there.  [send_ok m] says
    whether sending [m] returns.  It matters for the embed only, which is
    sent before [execute_signal] is called: every other message is the
    last thing the handler does. *)
Definition on_message (cfg : config.t) (send_ok : sent -> bool) (self : t)
    (message : Message) : Prog (list sent * t) :=
  if decide (author message = user self) then Ret ([], self) else
  if decide (channel_id message <> DISCORD_CHANNEL_ID self) then Ret ([], self) else
  if negb (SignalParser.is_signal_message (content message)) then Ret ([], self) else
  match SignalParser.parse_message (content message) with
  | Some signal =>
      if negb (send_ok (SignalDetected signal)) then Ret ([SignalDetected signal], self)
      else
      match trade_executor self with
      | Some executor =>
          bind (TradeExecutor.execute_signal cfg executor signal) (fun r =>
            let success := fst r in
            Ret ([SignalDetected signal;
                  if success then ExecutionInitiated (TradingSignal.symbol signal)
                  else ExecutionFailed (TradingSignal.symbol signal)],
                 {| user := user self;
                    DISCORD_CHANNEL_ID := DISCORD_CHANNEL_ID self;
                    trade_executor := Some (snd r) |}))
      | None => Ret ([SignalDetected signal; NotConnected], self)
      end
  | None => Ret ([CouldNotParse], self)
  end.

End Handlers.
End bot.

(* ================================================================== *)
(** * The life of an executor *)
(* ================================================================== *)

(** The states an executor goes through: [__init__] creates it, and
    only [execute_signal] and [remove_trade] change it.  The options of
    [config.py] are read once, at import. *)
Inductive reachable (cfg : config.t) (ex : ExchangeConnector.t)
    : TradeExecutor.t -> Prop :=
| reachable_init : reachable cfg ex (TradeExecutor.init ex)
| reachable_execute_signal self signal tr res :
    reachable cfg ex self ->
    runs (TradeExecutor.execute_signal cfg self signal) tr res ->
    reachable cfg ex (snd res)
| reachable_remove_trade self symbol :
    reachable cfg ex self ->
    reachable cfg ex (TradeExecutor.remove_trade self symbol).

(** The globals after any number of messages handled one after the
    other, each handler running to its end before the next starts, with
    no [on_ready] in between (it replaces the executor by a new one, whose
    ledger is empty) and no [remove_trade] (nothing in the repository
    calls it). *)
Inductive handled_later {U : Unicode} (cfg : config.t) : bot.t -> bot.t -> Prop :=
| handled_later_refl self : handled_later cfg self self
| handled_later_step self self1 send_ok message tr out self2 :
    handled_later cfg self self1 ->
    runs (bot.on_message cfg send_ok self1 message) tr (out, self2) ->
    handled_later cfg self self2.

(** The signal with another current market price. *)
Definition with_cmp (signal : TradingSignal.t) (cmp : Q) : TradingSignal.t :=
  {| TradingSignal.symbol := TradingSignal.symbol signal;
     TradingSignal.first_buy_range := TradingSignal.first_buy_range signal;
     TradingSignal.second_buy := TradingSignal.second_buy signal;
     TradingSignal.cmp := cmp;
     TradingSignal.targets := TradingSignal.targets signal;
     TradingSignal.stop_loss := TradingSignal.stop_loss signal |}.

(* ================================================================== *)
(** * More of what a trace shows *)
(* ================================================================== *)

(** Is this event a sell order? *)
Definition is_sell (e : event) : bool :=
  match e with
  | EvCreateLimitOrder _ sell _ _ _ | EvCreateOrder _ _ sell _ _ _ _ => true
  | _ => false
  end.

(** The pair an order is placed on. *)
Definition order_symbol (e : event) : option pystr :=
  match e with
  | EvCreateLimitOrder s _ _ _ _ | EvCreateOrder s _ _ _ _ _ _ => Some s
  | _ => None
  end.

(** The amount of an order. *)
Definition order_amount (e : event) : Q :=
  match e with
  | EvCreateLimitOrder _ _ a _ _ | EvCreateOrder _ _ _ a _ _ _ => a
  | _ => 0
  end.

(** The take-profit calls for [targets], answered by [replies] in turn. *)
Definition take_profit_events (symbol : pystr) (amount_per_target avg_entry_price : Q)
    (targets : list Q) (replies : list (option Order)) : list event :=
  map (fun tr => EvCreateLimitOrder symbol sell amount_per_target
                   (avg_entry_price * (1 + fst tr / 100)) (snd tr))
    (combine targets replies).

(** The orders among the replies. *)
Fixpoint accepted (replies : list (option Order)) : list Order :=
  match replies with
  | [] => []
  | Some o :: rest => o :: accepted rest
  | None :: rest => accepted rest
  end.

(* ================================================================== *)
(** * More concrete inputs *)
(* ================================================================== *)

Module Scenarios.

(** A signal whose first-buy range is "0-0", executed with a balance of
    1000. *)
Definition zero_range_signal : TradingSignal.t :=
  {| TradingSignal.symbol := str "LSK";
     TradingSignal.first_buy_range := (0, 0);
     TradingSignal.second_buy := 0.205;
     TradingSignal.cmp := 0.209;
     TradingSignal.targets := [5; 10; 15];
     TradingSignal.stop_loss := 0.195 |}.

Definition run_zero_range : option (list event * (bool * TradeExecutor.t)) :=
  play (TradeExecutor.execute_signal config.default Examples.fresh_executor
          zero_range_signal)
    [RBalances (Examples.balance_of 1000)].

(** The LSK signal when [fetch_balance] raises. *)
Definition run_no_balance : option (list event * (bool * TradeExecutor.t)) :=
  play (TradeExecutor.execute_signal config.default Examples.fresh_executor
          Examples.lsk_signal)
    [RBalances None].

(** The options with both risk orders switched off, and the LSK signal
    executed under them: both buys are accepted. *)
Definition no_risk_orders : config.t :=
  {| config.DEFAULT_QUOTE_ASSET := str "USDT";
     config.MAX_POSITION_SIZE := 100;
     config.POSITION_SIZE_PERCENTAGE := 10;
     config.ENABLE_STOP_LOSS := false;
     config.ENABLE_TAKE_PROFIT := false |}.

Definition run_no_risk_orders : option (list event * (bool * TradeExecutor.t)) :=
  play (TradeExecutor.execute_signal no_risk_orders Examples.fresh_executor
          Examples.lsk_signal)
    [RBalances (Examples.balance_of 1000); RMarkets None;
     ROrder (Some (Examples.order "1")); ROrder (Some (Examples.order "2"))].

(** The LSK message with a CMP of "0.2.9". *)
Definition two_dots_text : pystr :=
  str "Buying $LSK" ++ Examples.nl ++ str "First buying: 0.208-0.210" ++ Examples.nl
  ++ str "Second buying: 0.205" ++ Examples.nl ++ str "CMP: 0.2.9" ++ Examples.nl
  ++ str "Targets: 5%, 10%, 15%" ++ Examples.nl ++ str "SL: 0.195".

(** The LSK message inside a longer one. *)
Definition quoted_text : pystr :=
  str "fwd: " ++ Examples.lsk_text ++ str " (what do you think?)".

(** A bot with user id 1 that listens on channel 7, its executor
    connected and without trades; the LSK message, written there by user
    2; every send returns. *)
Definition connected_bot : bot.t :=
  {| bot.user := 1%N;
     bot.DISCORD_CHANNEL_ID := 7%Z;
     bot.trade_executor := Some Examples.fresh_executor |}.

Definition lsk_message : bot.Message :=
  {| bot.author := 2%N; bot.channel_id := 7%Z; bot.content := Examples.lsk_text |}.

Definition all_sent (m : bot.sent) : bool := true.

(** The message handled, the exchange answering as in scenario A. *)
Definition handled : option (list event * (list bot.sent * bot.t)) :=
  play (bot.on_message (U := ascii_tables) config.default all_sent connected_bot
          lsk_message)
    Examples.script_a.

Definition sent_of (run : option (list event * (list bot.sent * bot.t))) : list bot.sent :=
  match run with Some (_, (out, _)) => out | None => [] end.
Definition bot_of (run : option (list event * (list bot.sent * bot.t))) : bot.t :=
  match run with Some (_, (_, self)) => self | None => connected_bot end.

(** A signal for BTC, written in the channel after the LSK message was
    handled, and handled in turn: its first buy is raised to the default
    minimum of 0.001 and accepted, its second tranche is skipped. *)
Definition btc_message : bot.Message :=
  {| bot.author := 2%N; bot.channel_id := 7%Z;
     bot.content :=
       str "Buying $BTC" ++ Examples.nl ++ str "First buying: 60000-61000" ++ Examples.nl
       ++ str "Second buying: 59000" ++ Examples.nl ++ str "CMP: 60500" ++ Examples.nl
       ++ str "Targets: 5%, 10%" ++ Examples.nl ++ str "SL: 58000" |}.

Definition btc_script : list reply :=
  [RBalances (Examples.balance_of 1000); RMarkets None;
   ROrder (Some (Examples.order "5")); ROrder (Some (Examples.order "6"));
   ROrder (Some (Examples.order "7")); ROrder (Some (Examples.order "8"))].

Definition handled_btc : option (list event * (list bot.sent * bot.t)) :=
  play (bot.on_message (U := ascii_tables) config.default all_sent (bot_of handled)
          btc_message)
    btc_script.

End Scenarios.

(* ================================================================== *)
(** * The arithmetic of [float] *)
(* ================================================================== *)

(** [execute_signal] computes with Python floats, that is, in IEEE 754
    binary64, where every sum, product and quotient is rounded.  The
    executor above computes with exact rationals, which is faithful for
    what does not depend on the values computed.  What does depend on
    them is settled over the operations themselves: [Arith F] names the
    float operations [execute_signal] uses, with no law assumed of them,
    and [FP] below is the same executor over any such arithmetic.  What
    is proved there holds in particular for [binary64], the arithmetic of
    the interpreter. *)
Class Arith (F : Type) : Type := {
  fadd : F -> F -> F;         (* a + b *)
  fmul : F -> F -> F;         (* a * b *)
  fdiv : F -> F -> F;         (* a / b, for a divisor that is not zero *)
  fis_zero : F -> bool;       (* b == 0: the divisors on which [/] raises *)
  flt : F -> F -> bool;       (* a < b *)
  fle : F -> F -> bool;       (* a <= b *)
  flit : Q -> F               (* the float of a numeric literal, or of an int *)
}.

Section Operators.
Context {F : Type} {A : Arith F}.

(** [a / b]: raises on a zero divisor. *)
Definition truediv (a b : F) : res F :=
  if fis_zero b then Raise ZeroDivisionError else Ok (fdiv a b).

(** [min(a, b)]: the first argument unless the second is smaller. *)
Definition fmin (a b : F) : F := if flt b a then b else a.

(** [a >= b] and [a > b]. *)
Definition fge (a b : F) : bool := fle b a.
Definition fgt (a b : F) : bool := flt b a.

End Operators.

(** The one law of floats the executor relies on: a number above zero
    is not zero, so the division of line 117, guarded by
    [total_amount > 0], does not raise. *)
Definition guarded {F : Type} (A : Arith F) : Prop :=
  forall a : F, fgt a (flit 0) = true -> fis_zero a = false.

(** The exact arithmetic of the rationals, in which the executor above
    computes. *)
#[export] Instance rationals : Arith Q :=
  {| fadd := Qplus; fmul := Qmult; fdiv := Qdiv;
     fis_zero := fun b => Qeq_bool b 0;
     flt := fun a b => negb (Qle_bool b a);
     fle := Qle_bool;
     flit := fun q => q |}.

(** The float of an int (exact below 2^53). *)
Definition float_of_Z (z : Z) : PrimFloat.float :=
  match z with
  | Z0 => PrimFloat.zero
  | Zpos _ => PrimFloat.of_uint63 (Uint63.of_Z z)
  | Zneg p => PrimFloat.opp (PrimFloat.of_uint63 (Uint63.of_Z (Zpos p)))
  end.

(** The float of a decimal [n / 10^k], as Python reads a literal and
    as [float] converts a string: the binary64 number nearest to it.
    Here it is the quotient of the floats of [n] and [10^k]; these are
    exact below 2^53, and the quotient of two floats is rounded to
    nearest, so the result is the nearest float for decimals of up to 15
    digits, which covers the literals of the code and the examples. *)
Definition float_of_Q (q : Q) : PrimFloat.float :=
  PrimFloat.div (float_of_Z (Qnum q)) (float_of_Z (Zpos (Qden q))).

(** IEEE 754 binary64 with rounding to nearest, ties to even: the
    arithmetic of Python's [float].  Comparisons with a NaN are false,
    and [/] raises on [0.0] and [-0.0]. *)
#[export] Instance binary64 : Arith PrimFloat.float :=
  {| fadd := PrimFloat.add; fmul := PrimFloat.mul; fdiv := PrimFloat.div;
     fis_zero := fun b => PrimFloat.eqb b PrimFloat.zero;
     flt := PrimFloat.ltb;
     fle := PrimFloat.leb;
     flit := float_of_Q |}.

(* ================================================================== *)
(** * The executor over any arithmetic *)
(* ================================================================== *)

Module FP.

(** Strings, orders and the connector are those of the first part; the
    floats are of type [F]. *)
Definition Connector : Type := ExchangeConnector.t.
Definition connector_name : Connector -> pystr := ExchangeConnector.exchange_name.

(** Programs over the exchange, their events and executions. *)
Inductive Prog (F A : Type) : Type :=
| Ret (a : A)
| fetch_balance (k : option (gmap (list N) (option F)) -> Prog F A)
| load_markets (k : option (gmap (list N) (option F)) -> Prog F A)
| create_limit_order (symbol : pystr) (sd : side) (amount price : F)
    (k : option Order -> Prog F A)
| create_order (symbol : pystr) (ty : order_type) (sd : side) (amount : F)
    (price : option F) (stopPrice : F) (k : option Order -> Prog F A).
Arguments Ret {F A} a.
Arguments fetch_balance {F A} k.
Arguments load_markets {F A} k.
Arguments create_limit_order {F A} symbol sd amount price k.
Arguments create_order {F A} symbol ty sd amount price stopPrice k.

Fixpoint bind {F A B : Type} (p : Prog F A) (f : A -> Prog F B) : Prog F B :=
  match p with
  | Ret a => f a
  | fetch_balance k => fetch_balance (fun r => bind (k r) f)
  | load_markets k => load_markets (fun r => bind (k r) f)
  | create_limit_order s sd a p k =>
      create_limit_order s sd a p (fun r => bind (k r) f)
  | create_order s ty sd a p sp k =>
      create_order s ty sd a p sp (fun r => bind (k r) f)
  end.

Definition E (F A : Type) : Type := Prog F (res A).

Definition ret {F A : Type} (a : A) : E F A := Ret (Ok a).
Definition lift {F A : Type} (p : Prog F A) : E F A := bind p ret.
Definition pure {F A : Type} (r : res A) : E F A := Ret r.
Definition bindE {F A B : Type} (m : E F A) (f : A -> E F B) : E F B :=
  bind m (fun r => match r with Ok a => f a | Raise e => Ret (Raise e) end).

Declare Scope fprog_scope.
Delimit Scope fprog_scope with fprog.
Notation "x <- m ;; k" := (bindE m (fun x => k))
  (at level 100, m at next level, right associativity) : fprog_scope.

Definition try_except {F A : Type} (body : E F A) (handler : exn -> Prog F A)
    : Prog F A :=
  bind body (fun r => match r with Ok a => Ret a | Raise e => handler e end).

Inductive event (F : Type) : Type :=
| EvFetchBalance (r : option (gmap (list N) (option F)))
| EvLoadMarkets (r : option (gmap (list N) (option F)))
| EvCreateLimitOrder (symbol : pystr) (sd : side) (amount price : F)
    (r : option Order)
| EvCreateOrder (symbol : pystr) (ty : order_type) (sd : side) (amount : F)
    (price : option F) (stopPrice : F) (r : option Order).
Arguments EvFetchBalance {F} r.
Arguments EvLoadMarkets {F} r.
Arguments EvCreateLimitOrder {F} symbol sd amount price r.
Arguments EvCreateOrder {F} symbol ty sd amount price stopPrice r.

Inductive runs {F A : Type} : Prog F A -> list (event F) -> A -> Prop :=
| runs_Ret a : runs (Ret a) [] a
| runs_fetch_balance k r tr a :
    runs (k r) tr a -> runs (fetch_balance k) (EvFetchBalance r :: tr) a
| runs_load_markets k r tr a :
    runs (k r) tr a -> runs (load_markets k) (EvLoadMarkets r :: tr) a
| runs_create_limit_order s sd am p k r tr a :
    runs (k r) tr a ->
    runs (create_limit_order s sd am p k) (EvCreateLimitOrder s sd am p r :: tr) a
| runs_create_order s ty sd am p sp k r tr a :
    runs (k r) tr a ->
    runs (create_order s ty sd am p sp k) (EvCreateOrder s ty sd am p sp r :: tr) a.

(** An exchange that answers from a script. *)
Inductive reply (F : Type) : Type :=
| RBalances (r : option (gmap (list N) (option F)))
| RMarkets (r : option (gmap (list N) (option F)))
| ROrder (r : option Order).
Arguments RBalances {F} r.
Arguments RMarkets {F} r.
Arguments ROrder {F} r.

Fixpoint play {F A : Type} (p : Prog F A) (script : list (reply F))
    : option (list (event F) * A) :=
  match p with
  | Ret a => Some ([], a)
  | fetch_balance k =>
      match script with
      | RBalances r :: script' =>
          match play (k r) script' with
          | Some (tr, a) => Some (EvFetchBalance r :: tr, a)
          | None => None
          end
      | _ => None
      end
  | load_markets k =>
      match script with
      | RMarkets r :: script' =>
          match play (k r) script' with
          | Some (tr, a) => Some (EvLoadMarkets r :: tr, a)
          | None => None
          end
      | _ => None
      end
  | create_limit_order s sd am p k =>
      match script with
      | ROrder r :: script' =>
          match play (k r) script' with
          | Some (tr, a) => Some (EvCreateLimitOrder s sd am p r :: tr, a)
          | None => None
          end
      | _ => None
      end
  | create_order s ty sd am p sp k =>
      match script with
      | ROrder r :: script' =>
          match play (k r) script' with
          | Some (tr, a) => Some (EvCreateOrder s ty sd am p sp r :: tr, a)
          | None => None
          end
      | _ => None
      end
  end.

(** Is this event a buy order? *)
Definition is_buy {F : Type} (e : event F) : bool :=
  match e with
  | EvCreateLimitOrder _ buy _ _ _ | EvCreateOrder _ _ buy _ _ _ _ => true
  | _ => false
  end.

(** The buy orders the exchange accepted, as (amount, price). *)
Fixpoint filled_buys {F : Type} (tr : list (event F)) : list (F * F) :=
  match tr with
  | [] => []
  | EvCreateLimitOrder _ buy amount price (Some _) :: tr' =>
      (amount, price) :: filled_buys tr'
  | _ :: tr' => filled_buys tr'
  end.

(** [@dataclass class TradingSignal]. *)
Module TradingSignal.
Record t (F : Type) : Type := mk {
  symbol : pystr;
  first_buy_range : F * F;
  second_buy : F;
  cmp : F;
  targets : list F;
  stop_loss : F
}.
Arguments mk {F}.
Arguments symbol {F}.
Arguments first_buy_range {F}.
Arguments second_buy {F}.
Arguments cmp {F}.
Arguments targets {F}.
Arguments stop_loss {F}.
End TradingSignal.

(** The trading options of [config.py]. *)
Module config.
Record t (F : Type) : Type := mk {
  DEFAULT_QUOTE_ASSET : pystr;
  MAX_POSITION_SIZE : F;
  POSITION_SIZE_PERCENTAGE : F;
  ENABLE_STOP_LOSS : bool;
  ENABLE_TAKE_PROFIT : bool
}.
Arguments mk {F}.
Arguments DEFAULT_QUOTE_ASSET {F}.
Arguments MAX_POSITION_SIZE {F}.
Arguments POSITION_SIZE_PERCENTAGE {F}.
Arguments ENABLE_STOP_LOSS {F}.
Arguments ENABLE_TAKE_PROFIT {F}.

Definition default {F : Type} {A : Arith F} : t F :=
  {| DEFAULT_QUOTE_ASSET := str "USDT";
     MAX_POSITION_SIZE := flit 100;
     POSITION_SIZE_PERCENTAGE := flit 10;
     ENABLE_STOP_LOSS := true;
     ENABLE_TAKE_PROFIT := true |}.
End config.

(** [exchange_connector.py]. *)
Module ExchangeConnector.
Section Methods.
Context {F : Type} {A : Arith F}.

(** What [get_balance] returns for the answer [r] of [fetch_balance]:
    [0.0] when the asset is absent and when anything raised. *)
Definition free_balance (r : option (gmap (list N) (option F))) (asset : pystr) : F :=
  match r with
  | Some balance =>
      match balance !! asset with
      | Some (Some free) => free
      | Some None => flit 0
      | None => flit 0
      end
  | None => flit 0
  end.

Definition get_balance (self : Connector) (asset : pystr) : Prog F F :=
  fetch_balance (fun r => Ret (free_balance r asset)).

Definition place_limit_order (self : Connector) (symbol : pystr) (sd : side)
    (amount price : F) : Prog F (option Order) :=
  create_limit_order symbol sd amount price (fun r =>
    match r with
    | Some order => Ret (Some order)
    | None => Ret None
    end).

Definition place_stop_loss_order (self : Connector) (symbol : pystr)
    (amount stop_price : F) : Prog F (option Order) :=
  let fallback := place_limit_order self symbol sell amount stop_price in
  if decide (connector_name self = str "binance") then
    create_order symbol STOP_MARKET sell amount None stop_price (fun r =>
      match r with
      | Some order => Ret (Some order)
      | None => fallback
      end)
  else
    create_order symbol stop sell amount (Some stop_price) stop_price (fun r =>
      match r with
      | Some order => Ret (Some order)
      | None => fallback
      end).

Definition place_take_profit_order (self : Connector) (symbol : pystr)
    (amount target_price : F) : Prog F (option Order) :=
  place_limit_order self symbol sell amount target_price.

Definition get_symbol (self : Connector) (base_asset quote_asset : pystr) : pystr :=
  base_asset ++ str "/" ++ quote_asset.

(** What [get_min_order_size] returns for the answer [r] of
    [load_markets]: [0.001] when the symbol is unknown and when anything
    raised. *)
Definition amount_min (r : option (gmap (list N) (option F))) (symbol : pystr) : F :=
  match r with
  | Some mkts =>
      match mkts !! symbol with
      | Some (Some m) => m
      | Some None => flit 0.001
      | None => flit 0.001
      end
  | None => flit 0.001
  end.

Definition get_min_order_size (self : Connector) (symbol : pystr) : Prog F F :=
  load_markets (fun r => Ret (amount_min r symbol)).

End Methods.
End ExchangeConnector.

(** The dict stored in [active_trades] for one trade. *)
Module Trade.
Record t (F : Type) : Type := mk {
  symbol : pystr;
  base_symbol : pystr;
  first_order : Order;
  second_order : option Order;
  stop_loss_order : option Order;
  take_profit_orders : list Order;
  total_amount : F;
  avg_entry_price : F;
  signal : TradingSignal.t F
}.
Arguments mk {F}.
Arguments symbol {F}.
Arguments base_symbol {F}.
Arguments first_order {F}.
Arguments second_order {F}.
Arguments stop_loss_order {F}.
Arguments take_profit_orders {F}.
Arguments total_amount {F}.
Arguments avg_entry_price {F}.
Arguments signal {F}.
End Trade.

(** [trade_executor.py]. *)
Module TradeExecutor.
Local Open Scope fprog_scope.

Record t (F : Type) : Type := mk {
  exchange : Connector;
  active_trades : gmap (list N) (Trade.t F)
}.
Arguments mk {F}.
Arguments exchange {F}.
Arguments active_trades {F}.

Section Methods.
Context {F : Type} {A : Arith F}.

(** [__init__]. *)
Definition init (exchange_connector : Connector) : t F :=
  {| exchange := exchange_connector; active_trades := ∅ |}.

(** The [for target_percent in signal.targets] loop.  The divisor 100
    is a literal: the division cannot raise. *)
Fixpoint take_profit_loop (ex : Connector) (symbol : pystr)
    (amount_per_target avg_entry_price : F) (targets : list F)
    (take_profit_orders : list Order) : E F (list Order) :=
  match targets with
  | [] => ret take_profit_orders
  | target_percent :: rest =>
      let target_price :=
        fmul avg_entry_price (fadd (flit 1) (fdiv target_percent (flit 100))) in
      tp_order <- lift (ExchangeConnector.place_take_profit_order ex symbol
                          amount_per_target target_price) ;;
      take_profit_loop ex symbol amount_per_target avg_entry_price rest
        (match tp_order with
         | Some o => take_profit_orders ++ [o]
         | None => take_profit_orders
         end)
  end.

(** The body of the [try] of [execute_signal].  Divisions by a literal
    ([100], [2]) and by [len(signal.targets)] where the list is not empty
    cannot raise and are [fdiv]; the others are [truediv]. *)
Definition execute_signal_try (cfg : config.t F) (self : t F)
    (signal : TradingSignal.t F) : E F (bool * t F) :=
  let symbol := ExchangeConnector.get_symbol (exchange self)
                  (TradingSignal.symbol signal) (config.DEFAULT_QUOTE_ASSET cfg) in
  if decide (is_Some (active_trades self !! TradingSignal.symbol signal)) then
    ret (false, self)
  else
  balance <- lift (ExchangeConnector.get_balance (exchange self)
                     (config.DEFAULT_QUOTE_ASSET cfg)) ;;
  if flt balance (flit 10) then ret (false, self) else
  let position_size :=
    fmin (fmul balance (fdiv (config.POSITION_SIZE_PERCENTAGE cfg) (flit 100)))
      (config.MAX_POSITION_SIZE cfg) in
  let first_buy_size := fmul position_size (flit 0.6) in
  let second_buy_size := fmul position_size (flit 0.4) in
  let first_buy_price :=
    fdiv (fadd (fst (TradingSignal.first_buy_range signal))
               (snd (TradingSignal.first_buy_range signal))) (flit 2) in
  first_buy_amount <- pure (truediv first_buy_size first_buy_price) ;;
  min_order_size <- lift (ExchangeConnector.get_min_order_size (exchange self) symbol) ;;
  let below := flt first_buy_amount min_order_size in
  let first_buy_amount := if below then min_order_size else first_buy_amount in
  let first_buy_size := if below then fmul first_buy_amount first_buy_price
                        else first_buy_size in
  first_order <- lift (ExchangeConnector.place_limit_order (exchange self)
                         symbol buy first_buy_amount first_buy_price) ;;
  match first_order with
  | None => ret (false, self)
  | Some first_order =>
  let total_amount := first_buy_amount in
  let total_cost := first_buy_size in
  second_buy_amount <- pure (truediv second_buy_size
                               (TradingSignal.second_buy signal)) ;;
  second <-
    (if fge second_buy_amount min_order_size then
       second_order <- lift (ExchangeConnector.place_limit_order (exchange self)
                               symbol buy second_buy_amount
                               (TradingSignal.second_buy signal)) ;;
       match second_order with
       | Some _ => ret (second_order, fadd total_amount second_buy_amount,
                        fadd total_cost second_buy_size)
       | None => ret (second_order, total_amount, total_cost)
       end
     else ret (None, total_amount, total_cost)) ;;
  let second_order := fst (fst second) in
  let total_amount := snd (fst second) in
  let total_cost := snd second in
  avg_entry_price <-
    (if fgt total_amount (flit 0) then pure (truediv total_cost total_amount)
     else ret first_buy_price) ;;
  stop_loss_order <-
    (if config.ENABLE_STOP_LOSS cfg then
       lift (ExchangeConnector.place_stop_loss_order (exchange self) symbol
               total_amount (TradingSignal.stop_loss signal))
     else ret None) ;;
  take_profit_orders <-
    (match config.ENABLE_TAKE_PROFIT cfg, TradingSignal.targets signal with
     | true, _ :: _ =>
         let amount_per_target :=
           fdiv total_amount
             (flit (inject_Z (Z.of_nat (length (TradingSignal.targets signal))))) in
         take_profit_loop (exchange self) symbol amount_per_target
           avg_entry_price (TradingSignal.targets signal) []
     | _, _ => ret []
     end) ;;
  ret (true,
       {| exchange := exchange self;
          active_trades :=
            <[ TradingSignal.symbol signal :=
               {| Trade.symbol := symbol;
                  Trade.base_symbol := TradingSignal.symbol signal;
                  Trade.first_order := first_order;
                  Trade.second_order :=
                    if fge second_buy_amount min_order_size
                    then second_order else None;
                  Trade.stop_loss_order := stop_loss_order;
                  Trade.take_profit_orders := take_profit_orders;
                  Trade.total_amount := total_amount;
                  Trade.avg_entry_price := avg_entry_price;
                  Trade.signal := signal |} ]> (active_trades self) |})
  end.

(** [execute_signal]. *)
Definition execute_signal (cfg : config.t F) (self : t F)
    (signal : TradingSignal.t F) : Prog F (bool * t F) :=
  try_except (execute_signal_try cfg self signal) (fun e => Ret (false, self)).

End Methods.
End TradeExecutor.

End FP.


(* ================================================================== *)
(** * Concrete executions in binary64 *)
(* ================================================================== *)

Module FloatExamples.

Definition binance : FP.Connector := Examples.binance.

Definition fresh_executor : FP.TradeExecutor.t PrimFloat.float :=
  FP.TradeExecutor.init binance.

(** A signal as [parse_message] builds it: each number is [float] of a
    decimal, the binary64 number nearest to it. *)
Definition signal_of (lo hi second : Q) : FP.TradingSignal.t PrimFloat.float :=
  {| FP.TradingSignal.symbol := str "LSK";
     FP.TradingSignal.first_buy_range := (float_of_Q lo, float_of_Q hi);
     FP.TradingSignal.second_buy := float_of_Q second;
     FP.TradingSignal.cmp := float_of_Q 0.209;
     FP.TradingSignal.targets := [float_of_Q 5; float_of_Q 10; float_of_Q 15];
     FP.TradingSignal.stop_loss := float_of_Q 0.195 |}.

Definition balance_of (usdt : Q) : option (gmap (list N) (option PrimFloat.float)) :=
  Some {[ str "USDT" := Some (float_of_Q usdt) ]}.
Definition markets_of (amount_min : Q) : option (gmap (list N) (option PrimFloat.float)) :=
  Some {[ str "LSK/USDT" := Some (float_of_Q amount_min) ]}.

Definition run (cfg : FP.config.t PrimFloat.float) (signal : FP.TradingSignal.t PrimFloat.float)
    (script : list (FP.reply PrimFloat.float)) :=
  FP.play (FP.TradeExecutor.execute_signal cfg fresh_executor signal) script.

Definition trace_of {X : Type} (r : option (list (FP.event PrimFloat.float) * X)) :=
  match r with Some (tr, _) => tr | None => [] end.
Definition result_of (r : option (list (FP.event PrimFloat.float)
                                   * (bool * FP.TradeExecutor.t PrimFloat.float))) :=
  match r with Some (_, res) => res | None => (false, fresh_executor) end.

(** Answers of the exchange that accept every order. *)
Definition all_accepted : list (FP.reply PrimFloat.float) :=
  [FP.ROrder (Some (Examples.order "1")); FP.ROrder (Some (Examples.order "2"));
   FP.ROrder (Some (Examples.order "3")); FP.ROrder (Some (Examples.order "4"));
   FP.ROrder (Some (Examples.order "5")); FP.ROrder (Some (Examples.order "6"))].


(** Default options, a balance of 1000, a minimum order size of 300 and
    a second-buy price of 0.1: the first amount, 60 over the midpoint,
    about 287, is raised to 300; the second, 40 / 0.1 = 400, is placed;
    both are accepted. *)
Definition run_raised :=
  run FP.config.default (signal_of 0.208 0.210 0.1)
    (FP.RBalances (balance_of 1000) :: FP.RMarkets (markets_of 300) :: all_accepted).

(** [MAX_POSITION_SIZE] 70, a balance of 1000, a minimum order size of
    200 and a second-buy price of 0.14: the first buy, 42 over the
    midpoint, about 201, is accepted; the second amount is
    28 / 0.14 = 199.99999999999997, below 200. *)
Definition capped_70 : FP.config.t PrimFloat.float :=
  {| FP.config.DEFAULT_QUOTE_ASSET := str "USDT";
     FP.config.MAX_POSITION_SIZE := float_of_Q 70;
     FP.config.POSITION_SIZE_PERCENTAGE := float_of_Q 10;
     FP.config.ENABLE_STOP_LOSS := true;
     FP.config.ENABLE_TAKE_PROFIT := true |}.

Definition run_skipped :=
  run capped_70 (signal_of 0.208 0.210 0.14)
    (FP.RBalances (balance_of 1000) :: FP.RMarkets (markets_of 200) :: all_accepted).

(** Default options, a balance of 1000, the first-buy range 0.104-0.104:
    the first buy, 60 / 0.104, is accepted, the second is rejected. *)
Definition run_first_only :=
  run FP.config.default (signal_of 0.104 0.104 0.1)
    [FP.RBalances (balance_of 1000); FP.RMarkets None;
     FP.ROrder (Some (Examples.order "1")); FP.ROrder None;
     FP.ROrder (Some (Examples.order "2")); FP.ROrder (Some (Examples.order "3"));
     FP.ROrder (Some (Examples.order "4")); FP.ROrder (Some (Examples.order "5"))].

(** [MAX_POSITION_SIZE] 0 and a minimum order size of 0: both buys are
    for an amount of zero, and both are accepted. *)
Definition capped_0 : FP.config.t PrimFloat.float :=
  {| FP.config.DEFAULT_QUOTE_ASSET := str "USDT";
     FP.config.MAX_POSITION_SIZE := float_of_Q 0;
     FP.config.POSITION_SIZE_PERCENTAGE := float_of_Q 10;
     FP.config.ENABLE_STOP_LOSS := true;
     FP.config.ENABLE_TAKE_PROFIT := true |}.

Definition run_empty :=
  run capped_0 (signal_of 0.208 0.210 0.2)
    (FP.RBalances (balance_of 1000) :: FP.RMarkets (markets_of 0) :: all_accepted).

End FloatExamples.

(* ================================================================== *)
(** * Executions of programs *)
(* ================================================================== *)

(** Invert an execution of a program whose first call is known; the
    rest of the execution keeps the name of the hypothesis. *)
Ltac inv_runs :=
  let r := fresh "r" in
  let Hk := fresh "Hk" in
  match goal with
  | H : runs (Ret _) _ _ |- _ => inversion H; subst; clear H
  | H : runs (fetch_balance _) _ _ |- _ =>
      inversion H as [|? r ? ? Hk| | |]; subst; clear H; rename Hk into H
  | H : runs (load_markets _) _ _ |- _ =>
      inversion H as [| |? r ? ? Hk| |]; subst; clear H; rename Hk into H
  | H : runs (create_limit_order _ _ _ _ _) _ _ |- _ =>
      inversion H as [| | |? ? ? ? ? r ? ? Hk|]; subst; clear H; rename Hk into H
  | H : runs (create_order _ _ _ _ _ _ _) _ _ |- _ =>
      inversion H as [| | | |? ? ? ? ? ? ? r ? ? Hk]; subst; clear H; rename Hk into H
  end.

Section Runs.
Context {A B : Type}.

(** An execution of [bind p f] is one of [p] followed by one of [f]. *)
Lemma runs_bind_inv (p : Prog A) (f : A -> Prog B) tr b :
  runs (bind p f) tr b ->
  exists tr1 a tr2, runs p tr1 a /\ runs (f a) tr2 b /\ tr = tr1 ++ tr2.
Proof.
  revert tr. induction p as [a|k IH|k IH|s sd am pr k IH|s ty sd am pr sp k IH];
    intros tr Hr; simpl in Hr.
  - exists [], a, tr. split; [constructor | split; [assumption | reflexivity]].
  - inv_runs. destruct (IH _ _ Hr) as (tr1 & a & tr2 & H1 & H2 & ->).
    exists (EvFetchBalance r :: tr1), a, tr2. split; [constructor; assumption | auto].
  - inv_runs. destruct (IH _ _ Hr) as (tr1 & a & tr2 & H1 & H2 & ->).
    exists (EvLoadMarkets r :: tr1), a, tr2. split; [constructor; assumption | auto].
  - inv_runs. destruct (IH _ _ Hr) as (tr1 & a & tr2 & H1 & H2 & ->).
    exists (EvCreateLimitOrder s sd am pr r :: tr1), a, tr2.
    split; [constructor; assumption | auto].
  - inv_runs. destruct (IH _ _ Hr) as (tr1 & a & tr2 & H1 & H2 & ->).
    exists (EvCreateOrder s ty sd am pr sp r :: tr1), a, tr2.
    split; [constructor; assumption | auto].
Qed.

Lemma runs_bind (p : Prog A) (f : A -> Prog B) tr1 a tr2 b :
  runs p tr1 a -> runs (f a) tr2 b -> runs (bind p f) (tr1 ++ tr2) b.
Proof.
  induction 1; intros Hf; simpl; try constructor; auto.
Qed.

End Runs.

(** The scripted exchange produces executions. *)
Lemma play_sound {A : Type} (p : Prog A) script tr a :
  play p script = Some (tr, a) -> runs p tr a.
Proof.
  revert script tr.
  induction p as [x|k IH|k IH|s sd am pr k IH|s ty sd am pr sp k IH];
    intros script tr Hp; simpl in Hp.
  - injection Hp as <- <-. constructor.
  - destruct script as [|[r|r|r] script]; try discriminate.
    destruct (play (k r) script) as [[tr' a']|] eqn:E; try discriminate.
    injection Hp as <- <-. constructor. eauto.
  - destruct script as [|[r|r|r] script]; try discriminate.
    destruct (play (k r) script) as [[tr' a']|] eqn:E; try discriminate.
    injection Hp as <- <-. constructor. eauto.
  - destruct script as [|[r|r|r] script]; try discriminate.
    destruct (play (k r) script) as [[tr' a']|] eqn:E; try discriminate.
    injection Hp as <- <-. constructor. eauto.
  - destruct script as [|[r|r|r] script]; try discriminate.
    destruct (play (k r) script) as [[tr' a']|] eqn:E; try discriminate.
    injection Hp as <- <-. constructor. eauto.
Qed.

(** Every execution is one the scripted exchange can be made to play. *)
Lemma play_complete {A : Type} (p : Prog A) tr a :
  runs p tr a -> exists script, play p script = Some (tr, a).
Proof.
  induction 1 as [a|k r tr a _ [sc IH]|k r tr a _ [sc IH]
                 |s sd am pr k r tr a _ [sc IH]|s ty sd am pr sp k r tr a _ [sc IH]].
  - exists []. reflexivity.
  - exists (RBalances r :: sc). simpl. rewrite IH. reflexivity.
  - exists (RMarkets r :: sc). simpl. rewrite IH. reflexivity.
  - exists (ROrder r :: sc). simpl. rewrite IH. reflexivity.
  - exists (ROrder r :: sc). simpl. rewrite IH. reflexivity.
Qed.

(* ================================================================== *)
(** * Comparisons and division *)
(* ================================================================== *)

Lemma py_lt_true a b : py_lt a b = true <-> a < b.
Proof.
  unfold py_lt. rewrite negb_true_iff. split; intros H.
  - apply Qnot_le_lt. intros Hle. apply Qle_bool_iff in Hle. congruence.
  - destruct (Qle_bool b a) eqn:E; [|reflexivity].
    apply Qle_bool_iff in E. exfalso. eapply Qlt_not_le; eauto.
Qed.

Lemma py_lt_false a b : py_lt a b = false <-> b <= a.
Proof.
  unfold py_lt. rewrite negb_false_iff. apply Qle_bool_iff.
Qed.

Lemma py_ge_true a b : py_ge a b = true <-> b <= a.
Proof. unfold py_ge. apply Qle_bool_iff. Qed.

Lemma py_ge_false a b : py_ge a b = false <-> a < b.
Proof.
  unfold py_ge. split; intros H.
  - apply Qnot_le_lt. intros Hle. apply Qle_bool_iff in Hle. congruence.
  - destruct (Qle_bool b a) eqn:E; [|reflexivity].
    apply Qle_bool_iff in E. exfalso. eapply Qlt_not_le; eauto.
Qed.

Lemma py_truediv_ok a b : ~ b == 0 -> py_truediv a b = Ok (a / b).
Proof.
  intros H. unfold py_truediv. destruct (Qeq_bool b 0) eqn:E; [|reflexivity].
  apply Qeq_bool_iff in E. contradiction.
Qed.

Lemma py_truediv_zero a b : b == 0 -> py_truediv a b = Raise ZeroDivisionError.
Proof.
  intros H. unfold py_truediv. apply Qeq_bool_iff in H. rewrite H. reflexivity.
Qed.

(* ================================================================== *)
(** * Every execution of [execute_signal] leaves by one of its exits *)
(* ================================================================== *)

Lemma runs_bind_assoc {A B C : Type} (p : Prog A) (f : A -> Prog B) (g : B -> Prog C) tr c :
  runs (bind (bind p f) g) tr c -> runs (bind p (fun x => bind (f x) g)) tr c.
Proof.
  revert tr. induction p; intros tr Hr; simpl in *; auto.
  - inv_runs. constructor. auto.
  - inv_runs. constructor. auto.
  - inv_runs. constructor. auto.
  - inv_runs. constructor. auto.
Qed.

Lemma runs_place_limit_order ex s sd a p tr res :
  runs (ExchangeConnector.place_limit_order ex s sd a p) tr res ->
  tr = [EvCreateLimitOrder s sd a p res].
Proof.
  unfold ExchangeConnector.place_limit_order. intros H. inv_runs.
  destruct r; inv_runs; reflexivity.
Qed.

#[local] Arguments TradeExecutor.take_profit_loop : simpl never.
#[local] Arguments ExchangeConnector.place_stop_loss_order : simpl never.

Ltac step := cbn beta iota zeta delta [bind bindE lift ret pure try_except
  ExchangeConnector.get_balance ExchangeConnector.get_min_order_size
  ExchangeConnector.place_limit_order fst snd] in *.

(** Split off the execution of a sub-program that heads the remaining
    program. *)
Ltac split_run H tr1 v H1 :=
  unfold bindE, lift in H;
  repeat match type of H with
         | runs (bind (bind _ _) _) _ _ => apply runs_bind_assoc in H
         end;
  apply runs_bind_inv in H;
  destruct H as (tr1 & v & ? & H1 & H & ->).

Lemma runs_take_profit_loop ex s apt avg targets acc tr res :
  runs (TradeExecutor.take_profit_loop ex s apt avg targets acc) tr res ->
  Forall (fun e => exists p r, e = EvCreateLimitOrder s sell apt p r) tr
  /\ exists tps, res = Ok tps.
Proof.
  revert acc tr. induction targets as [|t targets IH]; intros acc tr H;
    unfold TradeExecutor.take_profit_loop in H; fold TradeExecutor.take_profit_loop in H.
  - unfold ret in H. inv_runs. split; [constructor | eauto].
  - rewrite (py_truediv_ok t 100) in H by (intros E; discriminate E).
    unfold ExchangeConnector.place_take_profit_order in H.
    step. inv_runs. destruct r; step; apply IH in H; destruct H as [HF Hres];
      (split; [constructor; eauto | assumption]).
Qed.


Lemma avg_entry_price_step total_cost total_amount first_buy_price :
  (if py_lt 0 total_amount then pure (py_truediv total_cost total_amount)
   else ret first_buy_price)
  = ret (if py_lt 0 total_amount then total_cost / total_amount else first_buy_price).
Proof.
  destruct (py_lt 0 total_amount) eqn:E; [|reflexivity].
  apply py_lt_true in E. rewrite py_truediv_ok; [reflexivity|].
  intros Hz. rewrite Hz in E. exact (Qlt_irrefl 0 E).
Qed.

Lemma length_ne_0 (l : list Q) : l <> [] -> ~ inject_Z (Z.of_nat (length l)) == 0.
Proof.
  destruct l as [|x l]; [congruence|]. intros _ H.
  unfold Qeq in H. simpl in H. lia.
Qed.

Lemma execute_signal_exits cfg self signal tr res :
  runs (TradeExecutor.execute_signal cfg self signal) tr res ->
  exit cfg self signal tr res.
Proof.
  unfold TradeExecutor.execute_signal, TradeExecutor.execute_signal_try.
  intros H.
  destruct (decide (is_Some (TradeExecutor.active_trades self !! TradingSignal.symbol signal))) as [Hdup|Hdup].
  { step. inv_runs. constructor. assumption. }
  assert (Hnone : TradeExecutor.active_trades self !! TradingSignal.symbol signal = None).
  { destruct (TradeExecutor.active_trades self !! TradingSignal.symbol signal) eqn:E; [|reflexivity].
    exfalso. apply Hdup. eauto. }
  step. inv_runs. rename r into r_bal. step.
  destruct (py_lt _ 10) eqn:Hbal.
  { step. inv_runs. apply exit_balance; [assumption|]. apply py_lt_true. assumption. }
  apply py_lt_false in Hbal. step.
  destruct (Qeq_dec (Locals.first_buy_price signal) 0) as [Hp1|Hp1].
  { unfold Locals.first_buy_price in Hp1.
    rewrite py_truediv_zero in H by assumption. step. inv_runs.
    apply exit_first_price_zero; assumption. }
  pose proof Hp1 as Hp1'. unfold Locals.first_buy_price in Hp1'.
  rewrite py_truediv_ok in H by assumption. clear Hp1'. step. inv_runs. rename r into r_mk.
  inv_runs. destruct r as [first_order|]; step.
  2:{ inv_runs. apply exit_first_buy_failed; assumption. }
  destruct (Qeq_dec (TradingSignal.second_buy signal) 0) as [Hp2|Hp2].
  { rewrite py_truediv_zero in H by assumption. step. inv_runs.
    apply exit_second_price_zero; assumption. }
  rewrite py_truediv_ok in H by assumption. step.
  pose proof (exit_recorded cfg self signal r_bal r_mk first_order) as Hexit.
  cbv zeta in Hexit.
  pose (sym := Locals.symbol cfg (TradeExecutor.exchange self) signal).
  pose (a2 := Locals.second_buy_amount cfg signal
                (ExchangeConnector.free_balance r_bal (config.DEFAULT_QUOTE_ASSET cfg))).
  destruct (py_ge _ _) eqn:Hge in H;
    [ step; inv_runs; destruct r as [second_order|]; step;
      [ specialize (Hexit [EvCreateLimitOrder sym buy a2 (TradingSignal.second_buy signal)
                             (Some second_order)] (Some second_order))
      | specialize (Hexit [EvCreateLimitOrder sym buy a2 (TradingSignal.second_buy signal)
                             None] None) ]
    | step; specialize (Hexit [] None) ].
  all: rewrite avg_entry_price_step in H; step.
  all: destruct (config.ENABLE_STOP_LOSS cfg) eqn:Hsl;
    [ split_run H tr_stop sl Hstop; specialize (Hexit tr_stop sl); step
    | step; specialize (Hexit [] None) ].
  all: destruct (config.ENABLE_TAKE_PROFIT cfg) eqn:Htp;
    [ destruct (TradingSignal.targets signal) as [|t ts] eqn:Hts;
      [ step; inv_runs; specialize (Hexit [] [])
      | rewrite py_truediv_ok in H by (apply length_ne_0; discriminate);
        step; split_run H tr_tp tpr Hloop;
        destruct (runs_take_profit_loop _ _ _ _ _ _ _ _ Hloop) as [_ [tps ->]];
        step; inv_runs; specialize (Hexit tr_tp tps) ]
    | step; inv_runs; specialize (Hexit [] []) ].
  all: specialize (Hexit Hnone Hbal Hp1 Hp2).
  all: match type of Hexit with
       | (if ?c then _ else _) -> _ =>
           let Hc := fresh in
           first [ assert (Hc : c = true) by exact Hge
                 | assert (Hc : c = false) by exact Hge ];
           rewrite Hc in Hexit;
           first [ specialize (Hexit eq_refl)
                 | specialize (Hexit (conj eq_refl eq_refl)) ]
       end.
  all: first [ specialize (Hexit Hstop) | specialize (Hexit (conj eq_refl eq_refl)) ].
  all: cbn [andb negb length Nat.eqb] in Hexit.
  all: first [ specialize (Hexit Hloop) | specialize (Hexit (conj eq_refl eq_refl)) ].
  all: cbn [app] in Hexit; rewrite ?app_nil_r in Hexit; rewrite ?app_nil_r; exact Hexit.
Qed.
Lemma runs_bind_assoc_inv {A B C : Type} (p : Prog A) (f : A -> Prog B) (g : B -> Prog C) tr c :
  runs (bind p (fun x => bind (f x) g)) tr c -> runs (bind (bind p f) g) tr c.
Proof.
  revert tr. induction p; intros tr Hr; simpl in *; auto.
  - inv_runs. constructor. auto.
  - inv_runs. constructor. auto.
  - inv_runs. constructor. auto.
  - inv_runs. constructor. auto.
Qed.

(** Put the execution of a sub-program in front of the execution of
    what follows it. *)
Ltac compose_run Hsub :=
  cbn [app]; unfold bindE, lift;
  repeat match goal with
         | |- runs (bind (bind _ _) _) _ _ => apply runs_bind_assoc_inv
         end;
  eapply runs_bind; [exact Hsub|]; step.

(** Conversely, every exit is taken by some execution. *)
Lemma exits_execute_signal cfg self signal tr res :
  exit cfg self signal tr res ->
  runs (TradeExecutor.execute_signal cfg self signal) tr res.
Proof.
  intros H. unfold TradeExecutor.execute_signal, TradeExecutor.execute_signal_try.
  destruct H as [Hdup|r_bal Hnone balance Hbal|r_bal Hnone balance Hbal Hp1
                 |r_bal r_mk Hnone ex balance min_order_size Hbal Hp1
                 |r_bal r_mk first_order Hnone ex balance min_order_size Hbal Hp1 Hp2
                 |r_bal r_mk first_order tr_second second_order tr_stop
                    stop_loss_order tr_targets take_profit_orders Hnone ex symbol
                    balance min_order_size a2 total avg Hbal Hp1 Hp2 Hsecond Hstop Htargets].
  { destruct (decide _) as [_|Hn]; [constructor | contradiction]. }
  all: destruct (decide _) as [[x Hx]|_]; [rewrite Hnone in Hx; discriminate|].
  all: step; constructor; step; fold balance.
  { apply py_lt_true in Hbal. rewrite Hbal. step. constructor. }
  all: apply py_lt_false in Hbal; rewrite Hbal; step.
  all: unfold Locals.first_buy_price in Hp1.
  all: rewrite (py_truediv_ok _ 100) by (intros E; discriminate E).
  all: rewrite (py_truediv_ok _ 2) by (intros E; discriminate E).
  { rewrite (py_truediv_zero _ _ Hp1). step. constructor. }
  all: rewrite (py_truediv_ok _ _ Hp1); step; constructor; constructor; step.
  { constructor. }
  { rewrite (py_truediv_zero _ _ Hp2). step. constructor. }
  rewrite (py_truediv_ok _ _ Hp2). step.
  subst total avg a2 min_order_size symbol balance ex.
  unfold Locals.second_buy_amount, Locals.second_buy_size, Locals.position_size,
    Locals.symbol in Hsecond.
  destruct (py_ge _ _) eqn:Hge;
    [ subst tr_second; step; constructor; destruct second_order; step
    | destruct Hsecond as [-> ->]; step ].
  all: rewrite avg_entry_price_step; step.
  all: destruct (config.ENABLE_STOP_LOSS cfg) eqn:Hsl;
    [ compose_run Hstop | destruct Hstop as [-> ->]; step ].
  all: destruct (config.ENABLE_TAKE_PROFIT cfg) eqn:Htp;
    [ destruct (TradingSignal.targets signal) as [|t ts] eqn:Hts;
      [ destruct Htargets as [-> ->]; step; constructor
      | rewrite py_truediv_ok by (apply length_ne_0; discriminate);
        simpl in Htargets; rewrite <- (app_nil_r tr_targets);
        compose_run Htargets; constructor ]
    | destruct Htargets as [-> ->]; step; constructor ].
Qed.

(** The executions of [execute_signal] are exactly its exits. *)
Lemma execute_signal_exits_iff cfg self signal tr res :
  runs (TradeExecutor.execute_signal cfg self signal) tr res
  <-> exit cfg self signal tr res.
Proof.
  split; [apply execute_signal_exits | apply exits_execute_signal].
Qed.

(* ================================================================== *)
(** * The duplicate guard *)
(* ================================================================== *)

(** C2.  When the signal's symbol already has a trade in
    [active_trades], [execute_signal] is the program that returns [False]
    at once: it makes no call to the exchange (no balance query, no
    market query, no order), and leaves the executor as it was. *)
Theorem C2_duplicate_guard cfg self signal :
  is_Some (TradeExecutor.active_trades self !! TradingSignal.symbol signal) ->
  TradeExecutor.execute_signal cfg self signal = Ret (false, self)
  /\ forall tr res,
       runs (TradeExecutor.execute_signal cfg self signal) tr res ->
       tr = [] /\ res = (false, self).
Proof.
  intros Hdup.
  assert (Heq : TradeExecutor.execute_signal cfg self signal = Ret (false, self)).
  { unfold TradeExecutor.execute_signal, TradeExecutor.execute_signal_try.
    destruct (decide _) as [_|Hn]; [reflexivity | contradiction]. }
  split; [exact Heq|].
  intros tr res Hr. rewrite Heq in Hr. inv_runs. split; reflexivity.
Qed.

Lemma C2_duplicate_guard_witness :
  TradeExecutor.execute_signal config.default Examples.busy_executor Examples.lsk_signal
  = Ret (false, Examples.busy_executor)
  /\ forall tr res,
       runs (TradeExecutor.execute_signal config.default Examples.busy_executor
               Examples.lsk_signal) tr res ->
       tr = [] /\ res = (false, Examples.busy_executor).
Proof.
  apply (C2_duplicate_guard config.default Examples.busy_executor Examples.lsk_signal).
  vm_compute. eexists. reflexivity.
Defined.

(* ================================================================== *)
(** * The stop loss *)
(* ================================================================== *)

(** [place_stop_loss_order] asks for a stop order; when that is
    rejected it places a limit sell of the same amount at the stop price
    and returns what that returns. *)
Lemma runs_place_stop_loss_order ex s a sp tr res :
  runs (ExchangeConnector.place_stop_loss_order ex s a sp) tr res ->
  exists ty pr,
    (exists o, tr = [EvCreateOrder s ty sell a pr sp (Some o)] /\ res = Some o)
    \/ tr = [EvCreateOrder s ty sell a pr sp None; EvCreateLimitOrder s sell a sp res].
Proof.
  unfold ExchangeConnector.place_stop_loss_order. intros H.
  destruct (decide _); inv_runs; destruct r as [o|];
    try (inv_runs; do 2 eexists; left; eexists; split; reflexivity);
    apply runs_place_limit_order in H; subst; do 2 eexists; right; reflexivity.
Qed.

(** Locating an element of a list that is known not to lie in its
    first, respectively last, part. *)
Lemma app_locate_l {X : Type} (P : X -> Prop) (A B pre post : list X) x :
  Forall P A -> ~ P x -> pre ++ x :: post = A ++ B ->
  exists pre', pre = A ++ pre' /\ B = pre' ++ x :: post.
Proof.
  intros HA Hx. revert pre. induction HA as [|a A Ha HA IH]; intros pre Heq; simpl in *.
  - exists pre. auto.
  - destruct pre as [|y pre]; simpl in Heq; injection Heq as -> Heq.
    + contradiction.
    + destruct (IH _ Heq) as (pre' & -> & ->). exists pre'. auto.
Qed.

Lemma app_locate_r {X : Type} (P : X -> Prop) (B C pre post : list X) x :
  Forall P C -> ~ P x -> pre ++ x :: post = B ++ C ->
  exists post', post = post' ++ C /\ B = pre ++ x :: post'.
Proof.
  intros HC Hx. revert pre. induction B as [|b B IH]; intros pre Heq; simpl in *.
  - exfalso. apply Hx. rewrite List.Forall_forall in HC. apply HC. rewrite <- Heq.
    apply in_elt.
  - destruct pre as [|y pre]; simpl in Heq; injection Heq as -> Heq.
    + exists B. auto.
    + destruct (IH _ Heq) as (post' & -> & ->). exists post'. auto.
Qed.

Lemma take_profit_trace_limit ex s apt avg targets acc tr res :
  runs (TradeExecutor.take_profit_loop ex s apt avg targets acc) tr res ->
  Forall is_limit tr.
Proof.
  intros H. apply runs_take_profit_loop in H. destruct H as [H _].
  eapply List.Forall_impl; [|exact H]. intros e (p & r & ->). exact I.
Qed.

(** C8.  Whenever the exchange rejects the stop order that
    [execute_signal] asks for (an execution contains a [create_order]
    call answered by a failure), stop-loss placement is enabled and the
    first buy had succeeded; the rejected order was a sell with the
    signal's stop-loss price as stop price; the very next call is a plain
    limit sell of the same amount at that same price; and whatever that
    fallback returns, an order or again a failure, [execute_signal]
    returns [True] and the trade is in [active_trades], its
    [stop_loss_order] being what the fallback returned ([None] when both
    failed). *)
Theorem C8_stop_loss_fallback cfg self signal tr res pre post s ty sd am p sp :
  runs (TradeExecutor.execute_signal cfg self signal) tr res ->
  tr = pre ++ EvCreateOrder s ty sd am p sp None :: post ->
  config.ENABLE_STOP_LOSS cfg = true
  /\ first_buy_filled tr = true
  /\ sd = sell /\ sp = TradingSignal.stop_loss signal
  /\ exists r post',
       post = EvCreateLimitOrder s sell am sp r :: post'
       /\ fst res = true
       /\ exists t,
            TradeExecutor.active_trades (snd res) !! TradingSignal.symbol signal = Some t
            /\ Trade.stop_loss_order t = r.
Proof.
  intros Hr Htr. apply execute_signal_exits in Hr.
  assert (Hin : In (EvCreateOrder s ty sd am p sp None) tr)
    by (rewrite Htr; apply in_elt).
  destruct Hr as [| | | | |r_bal r_mk first_order tr_second second_order tr_stop
                       stop_loss_order tr_targets take_profit_orders Hnone ex symbol
                       balance min_order_size a2 total avg Hbal Hp1 Hp2 Hsecond Hstop Htargets].
  1-5: exfalso; simpl in Hin; intuition discriminate.
  assert (Hsec : Forall is_limit tr_second).
  { destruct (py_ge _ _); [subst tr_second; repeat constructor|].
    destruct Hsecond as [-> _]. constructor. }
  assert (Htar : Forall is_limit tr_targets).
  { destruct (_ && _); [eapply take_profit_trace_limit; exact Htargets|].
    destruct Htargets as [-> _]. constructor. }
  rewrite app_assoc in Htr. symmetry in Htr.
  apply (app_locate_l is_limit) in Htr;
    [|simpl; repeat (constructor; [exact I|]); exact Hsec|simpl; tauto].
  destruct Htr as (pre' & -> & Htr). symmetry in Htr.
  apply (app_locate_r is_limit) in Htr; [|exact Htar|simpl; tauto].
  destruct Htr as (post' & -> & Htr).
  destruct (config.ENABLE_STOP_LOSS cfg) eqn:Hsl.
  2:{ destruct Hstop as [-> _]. destruct pre'; discriminate. }
  apply runs_place_stop_loss_order in Hstop.
  destruct Hstop as (ty' & pr' & [(o & -> & ->)| ->]).
  { destruct pre' as [|? [|? ?]]; discriminate. }
  destruct pre' as [|? [|? [|? ?]]]; try discriminate.
  injection Htr as -> -> -> -> -> -> <-.
  split; [reflexivity|]. split; [reflexivity|]. split; [reflexivity|].
  split; [reflexivity|]. exists stop_loss_order, tr_targets.
  split; [reflexivity|]. split; [reflexivity|].
  eexists. split; [apply lookup_insert_eq | reflexivity].
Qed.

(* ================================================================== *)
(** * The buy orders of an execution *)
(* ================================================================== *)

Lemma filter_buy_stop ex s a sp tr res :
  runs (ExchangeConnector.place_stop_loss_order ex s a sp) tr res ->
  List.filter is_buy tr = [].
Proof.
  intros H. apply runs_place_stop_loss_order in H.
  destruct H as (ty & pr & [(o & -> & _)| ->]); reflexivity.
Qed.

Lemma filter_buy_targets ex s apt avg targets acc tr res :
  runs (TradeExecutor.take_profit_loop ex s apt avg targets acc) tr res ->
  List.filter is_buy tr = [].
Proof.
  intros H. apply runs_take_profit_loop in H. destruct H as [H _].
  induction H as [|e tr (p & r & ->) _ IH]; [reflexivity|]. simpl. exact IH.
Qed.

Lemma all_orders_stop ex s a sp tr res :
  runs (ExchangeConnector.place_stop_loss_order ex s a sp) tr res ->
  forallb is_order tr = true.
Proof.
  intros H. apply runs_place_stop_loss_order in H.
  destruct H as (ty & pr & [(o & -> & _)| ->]); reflexivity.
Qed.

Lemma all_orders_targets ex s apt avg targets acc tr res :
  runs (TradeExecutor.take_profit_loop ex s apt avg targets acc) tr res ->
  forallb is_order tr = true.
Proof.
  intros H. apply runs_take_profit_loop in H. destruct H as [H _].
  induction H as [|e tr (p & r & ->) _ IH]; [reflexivity|]. simpl. exact IH.
Qed.

(** After the first buy: the only buy order left is the second, when
    its amount reaches the minimum; everything else is an order too. *)
Lemma rest_of_execution cfg ex symbol (signal : TradingSignal.t) a2 min_order_size total avg
    tr_second second_order tr_stop stop_loss_order tr_targets take_profit_orders :
  (if py_ge a2 min_order_size
   then tr_second = [EvCreateLimitOrder symbol buy a2
                       (TradingSignal.second_buy signal) second_order]
   else tr_second = [] /\ second_order = None) ->
  (if config.ENABLE_STOP_LOSS cfg
   then runs (ExchangeConnector.place_stop_loss_order ex symbol total
                (TradingSignal.stop_loss signal)) tr_stop stop_loss_order
   else tr_stop = [] /\ stop_loss_order = None) ->
  (if config.ENABLE_TAKE_PROFIT cfg && negb (Nat.eqb (length (TradingSignal.targets signal)) 0)
   then runs (TradeExecutor.take_profit_loop ex symbol
                (total / inject_Z (Z.of_nat (length (TradingSignal.targets signal))))
                avg (TradingSignal.targets signal) [])
          tr_targets (Ok take_profit_orders)
   else tr_targets = [] /\ take_profit_orders = []) ->
  List.filter is_buy (tr_second ++ tr_stop ++ tr_targets)
  = (if py_ge a2 min_order_size
     then [EvCreateLimitOrder symbol buy a2 (TradingSignal.second_buy signal) second_order]
     else [])
  /\ (py_ge a2 min_order_size = false -> second_order = None)
  /\ forallb is_order (tr_second ++ tr_stop ++ tr_targets) = true.
Proof.
  intros Hsecond Hstop Htargets.
  assert (Hs : List.filter is_buy tr_stop = [] /\ forallb is_order tr_stop = true).
  { destruct (config.ENABLE_STOP_LOSS cfg).
    - split; [eapply filter_buy_stop | eapply all_orders_stop]; exact Hstop.
    - destruct Hstop as [-> _]. split; reflexivity. }
  assert (Ht : List.filter is_buy tr_targets = [] /\ forallb is_order tr_targets = true).
  { destruct (_ && _).
    - split; [eapply filter_buy_targets | eapply all_orders_targets]; exact Htargets.
    - destruct Htargets as [-> _]. split; reflexivity. }
  destruct Hs as [Hs Hs'], Ht as [Ht Ht'].
  rewrite !List.filter_app, Hs, Ht, !app_nil_r.
  rewrite !forallb_app, Hs', Ht', !andb_true_r.
  destruct (py_ge a2 min_order_size).
  - subst tr_second. split; [reflexivity|]. split; [discriminate|]. reflexivity.
  - destruct Hsecond as [-> ->]. split; [reflexivity|]. split; reflexivity.
Qed.

(** The shape of an execution that got as far as the market query. *)
Lemma exit_after_markets cfg self signal r_bal r_mk tr' res :
  exit cfg self signal (EvFetchBalance r_bal :: EvLoadMarkets r_mk :: tr') res ->
  let ex := TradeExecutor.exchange self in
  let symbol := Locals.symbol cfg ex signal in
  let balance := ExchangeConnector.free_balance r_bal (config.DEFAULT_QUOTE_ASSET cfg) in
  let min_order_size := ExchangeConnector.amount_min r_mk symbol in
  let second_buy_amount := Locals.second_buy_amount cfg signal balance in
  TradeExecutor.active_trades self !! TradingSignal.symbol signal = None
  /\ 10 <= balance
  /\ ~ Locals.first_buy_price signal == 0
  /\ exists r1 tr'',
       tr' = EvCreateLimitOrder symbol buy
               (Locals.first_buy_amount cfg signal balance min_order_size)
               (Locals.first_buy_price signal) r1 :: tr''
       /\ match r1 with
          | None => tr'' = [] /\ res = (false, self)
          | Some first_order =>
              (TradingSignal.second_buy signal == 0 /\ tr'' = [] /\ res = (false, self))
              \/ (~ TradingSignal.second_buy signal == 0
                  /\ exists second_order stop_loss_order take_profit_orders,
                       res = (true,
                              {| TradeExecutor.exchange := ex;
                                 TradeExecutor.active_trades :=
                                   <[ TradingSignal.symbol signal :=
                                      Locals.trade cfg ex signal balance min_order_size
                                        first_order second_order stop_loss_order
                                        take_profit_orders ]>
                                     (TradeExecutor.active_trades self) |})
                       /\ List.filter is_buy tr''
                          = (if py_ge second_buy_amount min_order_size
                             then [EvCreateLimitOrder symbol buy second_buy_amount
                                     (TradingSignal.second_buy signal) second_order]
                             else [])
                       /\ (py_ge second_buy_amount min_order_size = false ->
                           second_order = None)
                       /\ forallb is_order tr'' = true)
          end.
Proof.
  intros H. cbv zeta.
  remember (EvFetchBalance r_bal :: EvLoadMarkets r_mk :: tr') as tr eqn:Htr.
  destruct H as [| | |r_bal' r_mk' Hnone ex balance min_order_size Hbal Hp1
                 |r_bal' r_mk' first_order Hnone ex balance min_order_size Hbal Hp1 Hp2
                 |r_bal' r_mk' first_order tr_second second_order tr_stop
                    stop_loss_order tr_targets take_profit_orders Hnone ex symbol
                    balance min_order_size a2 total avg Hbal Hp1 Hp2 Hsecond Hstop Htargets];
    try discriminate.
  - injection Htr as -> -> <-. repeat (split; [assumption|]).
    exists None, []. split; [reflexivity|]. split; reflexivity.
  - injection Htr as -> -> <-. repeat (split; [assumption|]).
    exists (Some first_order), []. split; [reflexivity|]. left. auto.
  - simpl in Htr. injection Htr as -> -> <-. repeat (split; [assumption|]).
    exists (Some first_order), (tr_second ++ tr_stop ++ tr_targets).
    split; [reflexivity|]. right. split; [assumption|].
    exists second_order, stop_loss_order, take_profit_orders.
    split; [reflexivity|].
    eapply rest_of_execution; eassumption.
Qed.

(* ================================================================== *)
(** * The first order and the minimum *)
(* ================================================================== *)

(** The first order is never below the minimum order size. *)
Lemma first_buy_amount_min cfg signal balance min_order_size :
  min_order_size <= Locals.first_buy_amount cfg signal balance min_order_size.
Proof.
  unfold Locals.first_buy_amount.
  destruct (py_lt _ _) eqn:E; [apply Qle_refl|]. apply py_lt_false in E. exact E.
Qed.

(* ================================================================== *)
(** * The commit *)
(* ================================================================== *)

(** What holds of the commit in general: an execution either returns
    [False] and leaves the executor as it was, or returns [True] after a
    first buy that was accepted and has stored a trade under the signal's
    symbol; and after an accepted first buy it does return [True],
    provided the second-buy price is not zero. *)
Lemma execute_signal_commit cfg self signal tr res :
  runs (TradeExecutor.execute_signal cfg self signal) tr res ->
  (res = (false, self)
   \/ (first_buy_filled tr = true
       /\ exists t,
            res = (true, {| TradeExecutor.exchange := TradeExecutor.exchange self;
                            TradeExecutor.active_trades :=
                              <[ TradingSignal.symbol signal := t ]>
                                (TradeExecutor.active_trades self) |})))
  /\ (first_buy_filled tr = true -> ~ TradingSignal.second_buy signal == 0 ->
      fst res = true).
Proof.
  intros Hr. apply execute_signal_exits in Hr.
  destruct Hr as [| | | |? ? ? ? ? ? ? ? ? Hz|].
  1-4: split; [left; reflexivity | intros E; discriminate E].
  - split; [left; reflexivity | intros _ Hnz; contradiction].
  - split; [|intros _ _; reflexivity].
    right. split; [reflexivity|]. eexists. reflexivity.
Qed.

(** C1, evaluated where it fails.  The signal has a second-buy price of
    zero, the balance is 1000 and the minimum order size 300.  The
    execution queries the balance and the markets and places the first
    buy, 300 at 0.209, which the exchange accepts; the division by the
    second-buy price then raises, and [execute_signal] returns [False]
    with [active_trades] still empty: the accepted first buy is not
    recorded. *)
Theorem C1_first_buy_not_recorded :
  SignalParser.parse_message (U := ascii_tables) Examples.zero_second_text
  = Some Examples.zero_second_signal
  /\ runs (TradeExecutor.execute_signal config.default Examples.fresh_executor
             Examples.zero_second_signal)
       [EvFetchBalance (Examples.balance_of 1000);
        EvLoadMarkets (Examples.markets_of 300);
        EvCreateLimitOrder (str "LSK/USDT") buy 300 ((0.208 + 0.210) / 2)
          (Some (Examples.order "1"))]
       (false, Examples.fresh_executor)
  /\ TradeExecutor.active_trades Examples.fresh_executor !! str "LSK" = None.
Proof.
  split; [vm_compute; reflexivity|]. split; [|reflexivity].
  apply play_sound with (script := Examples.script_c). vm_compute. reflexivity.
Qed.


(* ================================================================== *)
(** * The matcher and the language of a pattern *)
(* ================================================================== *)

Section Matcher.
Context {U : Unicode}.
Import re relang.

Lemma greedy_sound {A : Type} ic c (k : pystr -> pystr -> option A) acc s x :
  greedy ic c k acc s = Some x ->
  exists v w, s = v ++ w /\ Forall (fun ch => cmatch ic c ch = true) v
              /\ k (acc ++ v) w = Some x.
Proof.
  revert acc. induction s as [|ch s IH]; intros acc H; simpl in H.
  - exists [], []. rewrite (app_nil_r acc). auto.
  - destruct (cmatch ic c ch) eqn:Hc.
    + destruct (greedy ic c k (acc ++ [ch]) s) as [y|] eqn:Hg.
      * injection H as <-. destruct (IH _ Hg) as (v & w & -> & Hv & Hk).
        exists (ch :: v), w. rewrite <- app_assoc in Hk. auto.
      * exists [], (ch :: s). rewrite (app_nil_r acc). auto.
    + exists [], (ch :: s). rewrite (app_nil_r acc). auto.
Qed.

Lemma greedy_fallback {A : Type} ic c (k : pystr -> pystr -> option A) acc s :
  is_Some (k acc s) -> is_Some (greedy ic c k acc s).
Proof.
  intros Hk. destruct s as [|ch s]; simpl; [exact Hk|].
  destruct (cmatch ic c ch); [|exact Hk].
  destruct (greedy ic c k (acc ++ [ch]) s); [eauto | exact Hk].
Qed.

Lemma greedy_complete {A : Type} ic c (k : pystr -> pystr -> option A) acc v w :
  Forall (fun ch => cmatch ic c ch = true) v ->
  is_Some (k (acc ++ v) w) -> is_Some (greedy ic c k acc (v ++ w)).
Proof.
  intros Hv. revert acc. induction Hv as [|ch v Hc Hv IH]; intros acc Hk.
  - rewrite app_nil_r in Hk. apply greedy_fallback. exact Hk.
  - simpl. rewrite Hc.
    assert (Hs : is_Some (greedy ic c k (acc ++ [ch]) (v ++ w))).
    { apply IH. rewrite <- app_assoc. exact Hk. }
    destruct Hs as [y ->]. eauto.
Qed.

(** A match found at the start of [s] is a match of the language. *)
Lemma match_here_sound ic r s gs rest :
  match_here ic r s = Some (gs, rest) ->
  exists u, s = u ++ rest /\ lang ic r u.
Proof.
  revert s gs rest. induction r as [|p r IH]; intros s gs rest H.
  - injection H as <- <-. exists []. split; reflexivity.
  - destruct p as [c|c|c|c|c]; simpl in H.
    + destruct s as [|ch s]; [discriminate|].
      destruct (cmatch ic c ch) eqn:Hc; [|discriminate].
      destruct (IH _ _ _ H) as (u & -> & Hu).
      exists (ch :: u). split; [reflexivity|]. simpl. eauto.
    + assert (Hskip : match_here ic r s = Some (gs, rest) ->
                      exists u, s = u ++ rest /\ lang ic (Opt c :: r) u).
      { intros H'. destruct (IH _ _ _ H') as (u & -> & Hu). exists u. simpl. auto. }
      destruct s as [|ch s]; [auto|].
      destruct (cmatch ic c ch) eqn:Hc; [|auto].
      destruct (match_here ic r s) as [[gs' rest']|] eqn:Hm; [|auto].
      injection H as <- <-. destruct (IH _ _ _ Hm) as (u & -> & Hu).
      exists (ch :: u). split; [reflexivity|]. simpl. right. eauto.
    + apply greedy_sound in H. destruct H as (v & w & -> & Hv & Hk).
      destruct (IH _ _ _ Hk) as (u & -> & Hu).
      exists (v ++ u). rewrite <- app_assoc. split; [reflexivity|]. simpl. eauto.
    + destruct s as [|ch s]; [discriminate|].
      destruct (cmatch ic c ch) eqn:Hc; [|discriminate].
      apply greedy_sound in H. destruct H as (v & w & -> & Hv & Hk).
      destruct (IH _ _ _ Hk) as (u & -> & Hu).
      exists (ch :: v ++ u). split; [simpl; rewrite <- app_assoc; reflexivity|].
      simpl. eauto 10.
    + destruct s as [|ch s]; [discriminate|].
      destruct (cmatch ic c ch) eqn:Hc; [|discriminate].
      apply greedy_sound in H. destruct H as (v & w & -> & Hv & Hk).
      destruct (match_here ic r w) as [[gs' rest']|] eqn:Hm; [|discriminate].
      injection Hk as <- <-.
      destruct (IH _ _ _ Hm) as (u & -> & Hu).
      exists (ch :: v ++ u). split; [simpl; rewrite <- app_assoc; reflexivity|].
      simpl. eauto 10.
Qed.

(** Where the language has a match, the matcher finds one. *)
Lemma match_here_complete ic r u rest :
  lang ic r u -> is_Some (match_here ic r (u ++ rest)).
Proof.
  revert u. induction r as [|p r IH]; intros u H.
  - simpl in H. subst. simpl. eauto.
  - destruct p as [c|c|c|c|c]; simpl in H.
    + destruct H as (ch & u' & -> & Hc & Hu). simpl. rewrite Hc. auto.
    + destruct H as [Hu|(ch & u' & -> & Hc & Hu)].
      * specialize (IH _ Hu). simpl. destruct (u ++ rest) as [|ch s]; [exact IH|].
        destruct (cmatch ic c ch); [|exact IH].
        destruct (match_here ic r s); [eauto | exact IH].
      * specialize (IH _ Hu). simpl. rewrite Hc.
        destruct IH as [y ->]. eauto.
    + destruct H as (v & w & -> & Hv & Hw). simpl. rewrite <- app_assoc.
      apply greedy_complete; [exact Hv|]. simpl. auto.
    + destruct H as (ch & v & w & -> & Hc & Hv & Hw). simpl. rewrite Hc.
      rewrite <- app_assoc. apply greedy_complete; [exact Hv|]. auto.
    + destruct H as (ch & v & w & -> & Hc & Hv & Hw). simpl. rewrite Hc.
      rewrite <- app_assoc. apply greedy_complete; [exact Hv|].
      destruct (IH _ Hw) as [[gs' rest'] ->]. eauto.
Qed.

Lemma search_sound ic r s gs :
  search ic r s = Some gs ->
  exists pre u post, s = pre ++ u ++ post /\ lang ic r u.
Proof.
  induction s as [|ch s IH]; simpl; intros H.
  - destruct (match_here ic r []) as [[gs' rest]|] eqn:Hm; [|discriminate].
    apply match_here_sound in Hm. destruct Hm as (u & Hs & Hu).
    exists [], u, rest. auto.
  - destruct (match_here ic r (ch :: s)) as [[gs' rest]|] eqn:Hm.
    + apply match_here_sound in Hm. destruct Hm as (u & Hs & Hu).
      exists [], u, rest. auto.
    + destruct (IH H) as (pre & u & post & -> & Hu).
      exists (ch :: pre), u, post. auto.
Qed.

Lemma search_complete ic r pre u post :
  lang ic r u -> is_Some (search ic r (pre ++ u ++ post)).
Proof.
  intros Hu. induction pre as [|ch pre IH]; simpl.
  - destruct (match_here_complete ic r u post Hu) as [[gs rest] Hm].
    destruct (u ++ post); simpl; rewrite Hm; eauto.
  - destruct (match_here ic r (ch :: pre ++ u ++ post)) as [[gs rest]|]; eauto.
Qed.

Lemma lang_app ic r1 r2 u :
  lang ic (r1 ++ r2) u <-> exists u1 u2, u = u1 ++ u2 /\ lang ic r1 u1 /\ lang ic r2 u2.
Proof.
  revert u. induction r1 as [|p r1 IH]; intros u.
  - simpl. split.
    + intros H. exists [], u. auto.
    + intros (u1 & u2 & -> & -> & H). exact H.
  - destruct p as [c|c|c|c|c]; simpl; split.
    + intros (ch & u' & -> & Hc & H). apply IH in H.
      destruct H as (u1 & u2 & -> & H1 & H2). exists (ch :: u1), u2. eauto 10.
    + intros (u1 & u2 & -> & (ch & u' & -> & Hc & H1) & H2).
      exists ch, (u' ++ u2). split; [reflexivity|]. split; [exact Hc|].
      apply IH. eauto.
    + intros [H|(ch & u' & -> & Hc & H)]; apply IH in H;
        destruct H as (u1 & u2 & -> & H1 & H2).
      * exists u1, u2. auto.
      * exists (ch :: u1), u2. split; [reflexivity|]. split; [|exact H2]. right. eauto.
    + intros (u1 & u2 & -> & [H1|(ch & u' & -> & Hc & H1)] & H2).
      * left. apply IH. eauto.
      * right. exists ch, (u' ++ u2). split; [reflexivity|]. split; [exact Hc|].
        apply IH. eauto.
    + intros (v & w & -> & Hv & H). apply IH in H.
      destruct H as (u1 & u2 & -> & H1 & H2). exists (v ++ u1), u2.
      rewrite app_assoc. eauto 10.
    + intros (u1 & u2 & -> & (v & w & -> & Hv & H1) & H2).
      exists v, (w ++ u2). rewrite app_assoc. split; [reflexivity|].
      split; [exact Hv|]. apply IH. eauto.
    + intros (ch & v & w & -> & Hc & Hv & H). apply IH in H.
      destruct H as (u1 & u2 & -> & H1 & H2). exists (ch :: v ++ u1), u2.
      simpl. rewrite app_assoc. eauto 10.
    + intros (u1 & u2 & -> & (ch & v & w & -> & Hc & Hv & H1) & H2).
      exists ch, v, (w ++ u2). simpl. rewrite app_assoc. split; [reflexivity|].
      split; [exact Hc|]. split; [exact Hv|]. apply IH. eauto.
    + intros (ch & v & w & -> & Hc & Hv & H). apply IH in H.
      destruct H as (u1 & u2 & -> & H1 & H2). exists (ch :: v ++ u1), u2.
      simpl. rewrite app_assoc. eauto 10.
    + intros (u1 & u2 & -> & (ch & v & w & -> & Hc & Hv & H1) & H2).
      exists ch, v, (w ++ u2). simpl. rewrite app_assoc. split; [reflexivity|].
      split; [exact Hc|]. split; [exact Hv|]. apply IH. eauto.
Qed.

Lemma lang_ungroup ic r u : lang ic (ungroup r) u <-> lang ic r u.
Proof.
  revert u. induction r as [|p r IH]; intros u; [reflexivity|].
  destruct p as [c|c|c|c|c]; simpl.
  - split; intros (ch & u' & -> & Hc & H); apply IH in H; eauto.
  - split; (intros [H|(ch & u' & -> & Hc & H)]; apply IH in H; [left|right]; eauto).
  - split; intros (v & w & -> & Hv & H); apply IH in H; eauto.
  - split; intros (ch & v & w & -> & Hc & Hv & H); apply IH in H; eauto 10.
  - split; intros (ch & v & w & -> & Hc & Hv & H); apply IH in H; eauto 10.
Qed.

(** A pattern found in a text, any part of the pattern (groups aside)
    is found in it too. *)
Lemma search_part ic r1 r2 r3 r2' s gs :
  ungroup r2' = ungroup r2 ->
  search ic (r1 ++ r2 ++ r3) s = Some gs ->
  is_Some (search ic r2' s).
Proof.
  intros Hr H. apply search_sound in H. destruct H as (pre & u & post & -> & Hu).
  apply lang_app in Hu. destruct Hu as (u1 & u23 & -> & _ & Hu).
  apply lang_app in Hu. destruct Hu as (u2 & u3 & -> & Hu & _).
  apply (proj2 (lang_ungroup _ _ _)) in Hu. rewrite <- Hr in Hu.
  apply (proj1 (lang_ungroup _ _ _)) in Hu.
  replace (pre ++ (u1 ++ u2 ++ u3) ++ post) with ((pre ++ u1) ++ u2 ++ (u3 ++ post))
    by (rewrite <- !app_assoc; reflexivity).
  apply search_complete. exact Hu.
Qed.

End Matcher.

(* ================================================================== *)
(** * The parser *)
(* ================================================================== *)

Section ParserFacts.
Context {U : Unicode}.
Import re relang SignalParser.

(** What a successful parse went through. *)
Lemma parse_message_inv s sig :
  parse_message s = Some sig ->
  exists symbol_match first_buy_match second_buy_match cmp_match sl_match targets,
    search true symbol_re s = Some symbol_match
    /\ search true first_buy_re s = Some first_buy_match
    /\ search true second_buy_re s = Some second_buy_match
    /\ search true cmp_re s = Some cmp_match
    /\ search true sl_re s = Some sl_match
    /\ TradingSignal.symbol sig = str_upper (group symbol_match 1)
    /\ float (group first_buy_match 1) = Ok (fst (TradingSignal.first_buy_range sig))
    /\ float (group first_buy_match 2) = Ok (snd (TradingSignal.first_buy_range sig))
    /\ float (group second_buy_match 1) = Ok (TradingSignal.second_buy sig)
    /\ float (group cmp_match 1) = Ok (TradingSignal.cmp sig)
    /\ float (group sl_match 1) = Ok (TradingSignal.stop_loss sig)
    /\ TradingSignal.targets sig = sorted targets
    /\ exists found_everywhere,
         floats (findall false percent_re s) = Ok found_everywhere
         /\ match found_everywhere with
            | _ :: _ => targets = found_everywhere
            | [] =>
                match search true target_section_re s with
                | Some target_section =>
                    floats (findall false percent_re (group target_section 1))
                    = Ok targets
                | None => targets = []
                end
            end.
Proof.
  unfold parse_message. intros H.
  destruct (parse_message_try s) as [[sig'|]|] eqn:E; try discriminate.
  injection H as ->. unfold parse_message_try in E.
  destruct (search true symbol_re s) as [symbol_match|] eqn:H1; [|discriminate].
  destruct (search true first_buy_re s) as [first_buy_match|] eqn:H2; [|discriminate].
  destruct (float (group first_buy_match 1)) as [first_buy_min|] eqn:F1; [|discriminate].
  destruct (float (group first_buy_match 2)) as [first_buy_max|] eqn:F2; [|discriminate].
  simpl in E.
  destruct (search true second_buy_re s) as [second_buy_match|] eqn:H3; [|discriminate].
  destruct (float (group second_buy_match 1)) as [second_buy|] eqn:F3; [|discriminate].
  simpl in E.
  destruct (search true cmp_re s) as [cmp_match|] eqn:H4; [|discriminate].
  destruct (float (group cmp_match 1)) as [cmp|] eqn:F4; [|discriminate].
  simpl in E.
  destruct (floats (findall false percent_re s)) as [everywhere|] eqn:F5; [|discriminate].
  simpl in E.
  match type of E with
  | and_then ?m _ = _ => destruct m as [targets|] eqn:HT; [|discriminate]
  end.
  simpl in E.
  destruct (search true sl_re s) as [sl_match|] eqn:H5; [|discriminate].
  destruct (float (group sl_match 1)) as [stop_loss|] eqn:F6; [|discriminate].
  simpl in E. injection E as <-.
  exists symbol_match, first_buy_match, second_buy_match, cmp_match, sl_match, targets.
  simpl. repeat (split; [first [reflexivity | assumption]|]).
  exists everywhere. split; [reflexivity|].
  destruct everywhere as [|x everywhere].
  - destruct (search true target_section_re s); [exact HT|]. injection HT as <-. reflexivity.
  - injection HT as <-. reflexivity.
Qed.

(** C10.  Every text from which [parse_message] returns a signal passes
    the pre-filter [is_signal_message]: a successful parse has found the
    symbol pattern, the first-buy pattern (which contains the word
    "buying") and the stop-loss pattern, and these are, groups aside, the
    patterns the pre-filter looks for.  This holds whatever the Unicode
    tables are. *)
Theorem C10_prefilter_accepts_parsed s sig :
  parse_message s = Some sig -> is_signal_message s = true.
Proof.
  intros H. apply parse_message_inv in H.
  destruct H as (m1 & m2 & m3 & m4 & m5 & targets & H1 & H2 & _ & _ & H5 & _).
  unfold is_signal_message.
  assert (Hsym : found (search true [One [CChar (chr "$")];
                                     Plus [CRange (chr "A") (chr "Z");
                                           CRange (chr "0") (chr "9")]] s) = true).
  { destruct (search_part true [] symbol_re []
                [One [CChar (chr "$")];
                 Plus [CRange (chr "A") (chr "Z"); CRange (chr "0") (chr "9")]]
                s m1 eq_refl H1) as [x ->].
    reflexivity. }
  assert (Hbuy : found (search true (lit "buying") s) = true).
  { destruct (search_part true (lit "first" ++ [Plus [CSpace]]) (lit "buying")
                [Plus [CChar (chr ":"); CSpace]; Group number_chars;
                 Plus [CSpace; CChar en_dash; CChar (chr "-")]; Group number_chars]
                (lit "buying") s m2 eq_refl H2) as [x ->].
    reflexivity. }
  assert (Hsl : found (search true (lit "sl" ++ [Plus [CChar (chr ":"); CSpace];
                                                 Plus number_chars]) s) = true).
  { destruct (search_part true [] sl_re []
                (lit "sl" ++ [Plus [CChar (chr ":"); CSpace]; Plus number_chars])
                s m5 eq_refl H5) as [x ->].
    reflexivity. }
  rewrite Hsym, Hbuy, Hsl. simpl. apply orb_true_r.
Qed.

End ParserFacts.

(* ================================================================== *)
(** * The targets *)
(* ================================================================== *)

Lemma insert_sorted_perm x l : Permutation (x :: l) (insert_sorted x l).
Proof.
  induction l as [|y l IH]; simpl; [reflexivity|].
  destruct (Qle_bool x y); [reflexivity|].
  rewrite perm_swap. apply perm_skip. exact IH.
Qed.

Lemma sorted_perm l : Permutation l (sorted l).
Proof.
  induction l as [|x l IH]; simpl; [reflexivity|].
  rewrite <- insert_sorted_perm. apply perm_skip. exact IH.
Qed.

Lemma insert_sorted_Sorted x l :
  Sorted Qle l -> Sorted Qle (insert_sorted x l).
Proof.
  induction 1 as [|y l Hl IH Hy]; simpl; [repeat constructor|].
  destruct (Qle_bool x y) eqn:E.
  - apply Qle_bool_iff in E. repeat constructor; assumption.
  - assert (Hyx : y <= x).
    { apply Qlt_le_weak. apply Qnot_le_lt. intros Hle.
      apply Qle_bool_iff in Hle. congruence. }
    constructor; [exact IH|].
    destruct l as [|z l]; simpl; [constructor; exact Hyx|].
    destruct (Qle_bool x z); constructor; [exact Hyx|].
    inversion Hy; assumption.
Qed.

(** [sorted] sorts, keeping every element. *)
Lemma sorted_Sorted l : Sorted Qle (sorted l).
Proof.
  induction l as [|x l IH]; simpl; [constructor|].
  apply insert_sorted_Sorted. exact IH.
Qed.

Section Targets.
Context {U : Unicode}.
Import re relang SignalParser.

Lemma infix_nil (s : pystr) : infix [] s.
Proof. exists [], s. reflexivity. Qed.

Lemma infix_cons (g s : pystr) ch : infix g s -> infix g (ch :: s).
Proof. intros (pre & post & ->). exists (ch :: pre), post. reflexivity. Qed.

Lemma infix_app_l (g s pre : pystr) : infix g s -> infix g (pre ++ s).
Proof.
  intros (pre' & post & ->). exists (pre ++ pre'), post.
  rewrite <- app_assoc. reflexivity.
Qed.

(** Every group of a match is a part of the text. *)
Lemma match_here_groups ic r s gs rest :
  match_here ic r s = Some (gs, rest) -> forall g, In g gs -> infix g s.
Proof.
  revert s gs rest. induction r as [|p r IH]; intros s gs rest H g Hg.
  - injection H as <- <-. destruct Hg.
  - destruct p as [c|c|c|c|c]; simpl in H.
    + destruct s as [|ch s]; [discriminate|].
      destruct (cmatch ic c ch); [|discriminate].
      apply infix_cons. eapply IH; eauto.
    + destruct s as [|ch s]; [eapply IH; eauto|].
      destruct (cmatch ic c ch); [|eapply IH; eauto].
      destruct (match_here ic r s) as [[gs' rest']|] eqn:Hm; [|eapply IH; eauto].
      injection H as <- <-. apply infix_cons. eapply IH; eauto.
    + apply greedy_sound in H. destruct H as (v & w & -> & _ & Hk).
      apply infix_app_l. eapply IH; eauto.
    + destruct s as [|ch s]; [discriminate|].
      destruct (cmatch ic c ch); [|discriminate].
      apply greedy_sound in H. destruct H as (v & w & -> & _ & Hk).
      apply infix_cons, infix_app_l. eapply IH; eauto.
    + destruct s as [|ch s]; [discriminate|].
      destruct (cmatch ic c ch); [|discriminate].
      apply greedy_sound in H. destruct H as (v & w & -> & _ & Hk).
      destruct (match_here ic r w) as [[gs' rest']|] eqn:Hm; [|discriminate].
      injection Hk as <- <-. destruct Hg as [<-|Hg].
      * exists [], w. reflexivity.
      * apply infix_cons, infix_app_l. eapply IH; eauto.
Qed.

Lemma search_groups ic r s gs n :
  search ic r s = Some gs -> infix (group gs n) s.
Proof.
  intros H.
  assert (Hall : forall g, In g gs -> infix g s).
  { induction s as [|ch s IH]; simpl in H.
    - destruct (match_here ic r []) as [[gs' rest]|] eqn:Hm; [|discriminate].
      injection H as <-. eapply match_here_groups; eauto.
    - destruct (match_here ic r (ch :: s)) as [[gs' rest]|] eqn:Hm.
      + injection H as <-. eapply match_here_groups; eauto.
      + intros g Hg. apply infix_cons. apply IH; assumption. }
  unfold group. destruct (nth_in_or_default (n - 1) gs []) as [Hin| ->].
  - apply Hall. exact Hin.
  - apply infix_nil.
Qed.

(** [findall] finds nothing exactly when the pattern matches nowhere. *)
Lemma findall_nil ic r s :
  findall ic r s = [] ->
  forall pre ch t, s = pre ++ ch :: t -> match_here ic r (ch :: t) = None.
Proof.
  unfold findall. induction s as [|c s IH]; intros H pre ch t Hs.
  - destruct pre; discriminate.
  - simpl in H. destruct (match_here ic r (c :: s)) as [[gs rest]|] eqn:Hm; [discriminate|].
    destruct pre as [|c' pre]; simpl in Hs; injection Hs as -> Hs.
    + subst s. exact Hm.
    + eapply IH; eauto.
Qed.

Lemma nowhere_findall_nil ic r s :
  (forall pre ch t, s = pre ++ ch :: t -> match_here ic r (ch :: t) = None) ->
  findall ic r s = [].
Proof.
  unfold findall. induction s as [|c s IH]; intros H; [reflexivity|].
  simpl. rewrite (H [] c s eq_refl). apply IH.
  intros pre ch t ->. apply (H (c :: pre) ch t). reflexivity.
Qed.

(** Nothing found in a text, nothing found in a part of it. *)
Lemma findall_nil_infix ic r s t :
  findall ic r s = [] -> infix t s -> findall ic r t = [].
Proof.
  intros Hs (a & b & ->). apply nowhere_findall_nil. intros pre ch t2 ->.
  destruct (match_here ic r (ch :: t2)) as [[gs rest]|] eqn:Hm; [|reflexivity].
  exfalso. apply match_here_sound in Hm. destruct Hm as (u & Hu & Hlang).
  pose proof (match_here_complete ic r u (rest ++ b) Hlang) as [x Hx].
  rewrite app_assoc, <- Hu in Hx. simpl in Hx.
  rewrite (findall_nil ic r _ Hs (a ++ pre) ch (t2 ++ b)) in Hx; [discriminate|].
  rewrite <- !app_assoc. reflexivity.
Qed.

Lemma floats_nil l : floats l = Ok [] -> l = [].
Proof.
  destruct l as [|t l]; [reflexivity|]. simpl.
  destruct (float t); [|discriminate]. destruct (floats l); discriminate.
Qed.

(** C7, as the code has it.  On every text from which [parse_message]
    returns a signal, the targets are sorted in ascending order and are
    exactly the numbers of the [<digits>%] occurrences of the whole text,
    each as often as it occurs; there may be none.  The symbol, the
    first-buy range, the second-buy price, the CMP and the stop loss were
    each found by their pattern. *)
Theorem C7_targets_sorted s sig :
  parse_message s = Some sig ->
  Sorted Qle (TradingSignal.targets sig)
  /\ (exists percentages,
        floats (findall false percent_re s) = Ok percentages
        /\ TradingSignal.targets sig = sorted percentages
        /\ Permutation percentages (TradingSignal.targets sig))
  /\ found (search true symbol_re s) = true
  /\ found (search true first_buy_re s) = true
  /\ found (search true second_buy_re s) = true
  /\ found (search true cmp_re s) = true
  /\ found (search true sl_re s) = true.
Proof.
  intros H. apply parse_message_inv in H.
  destruct H as (m1 & m2 & m3 & m4 & m5 & targets & H1 & H2 & H3 & H4 & H5 & _ & _ & _
                 & _ & _ & _ & Ht & everywhere & He & Hcase).
  rewrite H1, H2, H3, H4, H5, Ht.
  split; [apply sorted_Sorted|]. split; [|repeat split; reflexivity].
  assert (Heq : targets = everywhere).
  { destruct everywhere as [|x everywhere]; [|exact Hcase].
    destruct (search true target_section_re s) as [section|] eqn:Hsec; [|exact Hcase].
    apply floats_nil in He.
    rewrite (findall_nil_infix false percent_re s (group section 1) He) in Hcase.
    - injection Hcase as <-. reflexivity.
    - eapply search_groups. exact Hsec. }
  subst targets. exists everywhere. split; [exact He|]. split; [reflexivity|].
  apply sorted_perm.
Qed.

End Targets.

(** C7 as the specification states it fails: a message with every field
    but the targets line parses to a signal whose targets are empty. *)
Lemma C7_targets_may_be_empty :
  SignalParser.parse_message (U := ascii_tables) Examples.no_targets_text
  = Some Examples.no_targets_signal
  /\ TradingSignal.targets Examples.no_targets_signal = [].
Proof. split; [vm_compute; reflexivity | reflexivity]. Qed.

(* ================================================================== *)
(** * The snapshot of [get_active_trades] *)
(* ================================================================== *)

Section Snapshot.
Import Objects.

Lemma items_insert_eq h d m trades' :
  items {| dicts := <[ d := m ]> (dicts h); trades := trades' |} d = m.
Proof. unfold items. simpl. rewrite lookup_insert_eq. reflexivity. Qed.

Lemma items_insert_ne h d d' m trades' :
  d <> d' ->
  items {| dicts := <[ d := m ]> (dicts h); trades := trades' |} d' = items h d'.
Proof. intros Hne. unfold items. simpl. rewrite lookup_insert_ne by exact Hne. reflexivity. Qed.

(** The copy is a new object. *)
Lemma dict_copy_fresh h d : dicts h !! fst (dict_copy h d) = None.
Proof.
  unfold dict_copy. simpl. apply not_elem_of_dom. apply is_fresh.
Qed.

(** The store that ends [execute_signal] is, for what reading through
    the executor shows, the insertion of the executor above. *)
Lemma store_contents h self k t :
  well_formed h ->
  is_Some (dicts h !! active_trades self) ->
  contents (store h self k t) (active_trades self)
  = <[ k := t ]> (contents h (active_trades self)).
Proof.
  intros Hwf [m Hm]. unfold store, contents. rewrite items_insert_eq. simpl.
  assert (Hitems : items h (active_trades self) = m) by (unfold items; rewrite Hm; reflexivity).
  rewrite Hitems. apply map_eq. intros k'.
  rewrite lookup_omap. destruct (decide (k = k')) as [<-|Hne].
  - rewrite !lookup_insert_eq. simpl. rewrite lookup_insert_eq. reflexivity.
  - rewrite !lookup_insert_ne by exact Hne. rewrite lookup_omap.
    destruct (m !! k') as [r|] eqn:Hr; simpl; [|reflexivity].
    rewrite lookup_insert_ne; [reflexivity|].
    intros <-. destruct (Hwf _ _ _ _ Hm Hr) as [x Hx].
    apply elem_of_dom_2 in Hx. exact (is_fresh _ Hx).
Qed.

(** C9, as the code has it.  [get_active_trades] returns a new dict
    with the same keys bound to the same trade dicts: read through, it
    shows what the executor's dict shows, and taking it changes nothing.
    Setting or deleting a key of the returned dict is not seen through the
    executor's dict, nor the other way round.  The trade dicts are
    shared: a field of a trade set through the returned dict is set in
    the trade the executor holds. *)
Theorem C9_snapshot_is_shallow h self :
  is_Some (dicts h !! active_trades self) ->
  let d := fst (get_active_trades h self) in
  let h' := snd (get_active_trades h self) in
  d <> active_trades self
  /\ contents h' d = contents h (active_trades self)
  /\ contents h' (active_trades self) = contents h (active_trades self)
  /\ (forall m, on_mapping m = true ->
      contents (mutate h' d m) (active_trades self) = contents h' (active_trades self))
  /\ (forall m, on_mapping m = true ->
      contents (mutate h' (active_trades self) m) d = contents h' d)
  /\ (forall k update t,
      contents h (active_trades self) !! k = Some t ->
      contents (mutate h' d (SetField k update)) (active_trades self) !! k
      = Some (update t)).
Proof.
  intros [m Hm]. cbv zeta. unfold get_active_trades, dict_copy. simpl.
  set (d := fresh (dom (dicts h))).
  assert (Hfresh : dicts h !! d = None) by (apply not_elem_of_dom, is_fresh).
  assert (Hne : d <> active_trades self) by (intros E; rewrite E, Hm in Hfresh; discriminate).
  assert (Hne' : active_trades self <> d) by (intros E; apply Hne; symmetry; exact E).
  split; [exact Hne|].
  split; [unfold contents, items; simpl; rewrite lookup_insert_eq; reflexivity|].
  split; [unfold contents, items; simpl; rewrite lookup_insert_ne by exact Hne; reflexivity|].
  split.
  { intros [k r|k|k update] Hmut; try discriminate Hmut; unfold contents, mutate, items; simpl;
      rewrite !(lookup_insert_ne _ d (active_trades self)) by exact Hne; reflexivity. }
  split.
  { intros [k r|k|k update] Hmut; try discriminate Hmut; unfold contents, mutate, items; simpl;
      rewrite (lookup_insert_ne _ (active_trades self) d) by exact Hne';
      rewrite !lookup_insert_eq; reflexivity. }
  intros k update t Hk. unfold contents, mutate, items in *. simpl.
  rewrite lookup_insert_eq. simpl. rewrite Hm in *. simpl in *.
  rewrite lookup_omap in Hk.
  destruct (m !! k) as [r|] eqn:Hr; [|discriminate].
  simpl in *. rewrite lookup_insert_ne by exact Hne. rewrite Hm. simpl.
  rewrite lookup_omap, Hr. simpl. rewrite lookup_alter_eq, Hk. reflexivity.
Qed.

End Snapshot.

(** C9 as the specification states it fails: through the dict that
    [get_active_trades] returned, the caller sets the total amount of the
    LSK trade to zero, and the trade the executor holds has changed. *)
Lemma C9_snapshot_aliases_trades :
  let d := fst (Objects.get_active_trades Examples.busy_heap Examples.busy_object) in
  let h' := snd (Objects.get_active_trades Examples.busy_heap Examples.busy_object) in
  let h'' := Objects.mutate h' d (Objects.SetField (str "LSK") Examples.zero_amount) in
  Objects.contents h' (Objects.active_trades Examples.busy_object) !! str "LSK"
  = Some Examples.lsk_trade
  /\ Objects.contents h'' (Objects.active_trades Examples.busy_object) !! str "LSK"
     = Some (Examples.zero_amount Examples.lsk_trade)
  /\ Objects.contents h'' (Objects.active_trades Examples.busy_object)
     <> Objects.contents h' (Objects.active_trades Examples.busy_object).
Proof.
  cbv zeta. split; [vm_compute; reflexivity|]. split; [vm_compute; reflexivity|].
  intros E.
  apply (f_equal (fun m => option_map Trade.total_amount (m !! str "LSK"))) in E.
  vm_compute in E. discriminate E.
Qed.

Lemma C9_snapshot_is_shallow_witness :
  let h := Examples.busy_heap in
  let self := Examples.busy_object in
  let d := fst (Objects.get_active_trades h self) in
  let h' := snd (Objects.get_active_trades h self) in
  d <> Objects.active_trades self
  /\ Objects.contents h' d = Objects.contents h (Objects.active_trades self)
  /\ Objects.contents h' (Objects.active_trades self)
     = Objects.contents h (Objects.active_trades self)
  /\ (forall m, Objects.on_mapping m = true ->
      Objects.contents (Objects.mutate h' d m) (Objects.active_trades self)
      = Objects.contents h' (Objects.active_trades self))
  /\ (forall m, Objects.on_mapping m = true ->
      Objects.contents (Objects.mutate h' (Objects.active_trades self) m) d
      = Objects.contents h' d)
  /\ (forall k update t,
      Objects.contents h (Objects.active_trades self) !! k = Some t ->
      Objects.contents (Objects.mutate h' d (Objects.SetField k update))
        (Objects.active_trades self) !! k
      = Some (update t)).
Proof.
  apply (C9_snapshot_is_shallow Examples.busy_heap Examples.busy_object).
  vm_compute. eexists. reflexivity.
Defined.
(* ================================================================== *)
(** * The claims on concrete executions *)
(* ================================================================== *)

Lemma C8_stop_loss_fallback_witness :
  config.ENABLE_STOP_LOSS config.default = true
  /\ first_buy_filled (Examples.trace_of Examples.run_a) = true
  /\ sell = sell /\ 0.195 = TradingSignal.stop_loss Examples.lsk_signal
  /\ exists r post',
       skipn 5 (Examples.trace_of Examples.run_a)
       = EvCreateLimitOrder (str "LSK/USDT") sell
           (Locals.total_amount config.default Examples.lsk_signal 1000 0.001
              (Some (Examples.order "2")))
           0.195 r :: post'
       /\ fst (Examples.result_of Examples.run_a) = true
       /\ exists t,
            TradeExecutor.active_trades (snd (Examples.result_of Examples.run_a))
              !! TradingSignal.symbol Examples.lsk_signal = Some t
            /\ Trade.stop_loss_order t = r.
Proof.
  apply (C8_stop_loss_fallback config.default Examples.fresh_executor Examples.lsk_signal
           (Examples.trace_of Examples.run_a) (Examples.result_of Examples.run_a)
           (firstn 4 (Examples.trace_of Examples.run_a))
           (skipn 5 (Examples.trace_of Examples.run_a))
           (str "LSK/USDT") STOP_MARKET sell
           (Locals.total_amount config.default Examples.lsk_signal 1000 0.001
              (Some (Examples.order "2")))
           None 0.195).
  - apply play_sound with (script := Examples.script_a). vm_compute. reflexivity.
  - vm_compute. reflexivity.
Defined.

Lemma C7_targets_sorted_witness :
  Sorted Qle (TradingSignal.targets Examples.lsk_signal)
  /\ (exists percentages,
        SignalParser.floats (U := ascii_tables)
          (re.findall (U := ascii_tables) false SignalParser.percent_re Examples.lsk_text)
        = Ok percentages
        /\ TradingSignal.targets Examples.lsk_signal = sorted percentages
        /\ Permutation percentages (TradingSignal.targets Examples.lsk_signal))
  /\ SignalParser.found
       (re.search (U := ascii_tables) true SignalParser.symbol_re Examples.lsk_text) = true
  /\ SignalParser.found
       (re.search (U := ascii_tables) true SignalParser.first_buy_re Examples.lsk_text) = true
  /\ SignalParser.found
       (re.search (U := ascii_tables) true SignalParser.second_buy_re Examples.lsk_text) = true
  /\ SignalParser.found
       (re.search (U := ascii_tables) true SignalParser.cmp_re Examples.lsk_text) = true
  /\ SignalParser.found
       (re.search (U := ascii_tables) true SignalParser.sl_re Examples.lsk_text) = true.
Proof.
  apply (C7_targets_sorted (U := ascii_tables) Examples.lsk_text Examples.lsk_signal).
  vm_compute. reflexivity.
Defined.

Lemma C10_prefilter_accepts_parsed_witness :
  SignalParser.is_signal_message (U := ascii_tables) Examples.lsk_text = true.
Proof.
  apply (C10_prefilter_accepts_parsed (U := ascii_tables) Examples.lsk_text
           Examples.lsk_signal).
  vm_compute. reflexivity.
Defined.

(* ================================================================== *)
(** * The ledger across executions *)
(* ================================================================== *)

Lemma executor_eta (self : TradeExecutor.t) :
  {| TradeExecutor.exchange := TradeExecutor.exchange self;
     TradeExecutor.active_trades := TradeExecutor.active_trades self |} = self.
Proof. destruct self. reflexivity. Qed.

(** With a trade under the signal's symbol, [execute_signal] is the
    program that returns [False]. *)
Lemma execute_signal_duplicate cfg self signal :
  is_Some (TradeExecutor.active_trades self !! TradingSignal.symbol signal) ->
  TradeExecutor.execute_signal cfg self signal = Ret (false, self).
Proof.
  intros Hdup. unfold TradeExecutor.execute_signal, TradeExecutor.execute_signal_try.
  destruct (decide _) as [_|Hn]; [reflexivity | contradiction].
Qed.

(** Without one, every execution starts with the balance query. *)
Lemma execute_signal_starts cfg self signal tr res :
  TradeExecutor.active_trades self !! TradingSignal.symbol signal = None ->
  runs (TradeExecutor.execute_signal cfg self signal) tr res ->
  exists r tr', tr = EvFetchBalance r :: tr'.
Proof.
  intros Hnone Hr. apply execute_signal_exits in Hr.
  destruct Hr as [Hdup| | | | |]; simpl; eauto.
  rewrite Hnone in Hdup. destruct Hdup as [? ?]. discriminate.
Qed.

(** What an execution does to the ledger. *)
Lemma execute_signal_result cfg self signal tr res :
  runs (TradeExecutor.execute_signal cfg self signal) tr res ->
  res = (false, self)
  \/ (TradeExecutor.active_trades self !! TradingSignal.symbol signal = None
      /\ exists r_bal r_mk first_order second_order stop_loss_order take_profit_orders,
           res = (true,
                  {| TradeExecutor.exchange := TradeExecutor.exchange self;
                     TradeExecutor.active_trades :=
                       <[ TradingSignal.symbol signal :=
                          Locals.trade cfg (TradeExecutor.exchange self) signal
                            (ExchangeConnector.free_balance r_bal (config.DEFAULT_QUOTE_ASSET cfg))
                            (ExchangeConnector.amount_min r_mk
                               (Locals.symbol cfg (TradeExecutor.exchange self) signal))
                            first_order second_order stop_loss_order take_profit_orders ]>
                         (TradeExecutor.active_trades self) |})).
Proof.
  intros Hr. apply execute_signal_exits in Hr.
  destruct Hr as [| | | | |r_bal r_mk first_order tr_second second_order tr_stop
                       stop_loss_order tr_targets take_profit_orders Hnone ex symbol
                       balance min_order_size a2 total avg Hbal Hp1 Hp2 Hsecond Hstop Htargets];
    [left; reflexivity ..|].
  right. split; [exact Hnone|]. eauto 10.
Qed.

(** What an execution makes of the ledger it started on does not depend
    on the other entries of that ledger: on any executor with the same
    connector and no trade under the signal's symbol, the same calls,
    answered alike, give the same flag and store the same trade. *)
Lemma execute_signal_other_ledger cfg self other signal tr res :
  runs (TradeExecutor.execute_signal cfg self signal) tr res ->
  TradeExecutor.exchange other = TradeExecutor.exchange self ->
  TradeExecutor.active_trades self !! TradingSignal.symbol signal = None ->
  TradeExecutor.active_trades other !! TradingSignal.symbol signal = None ->
  runs (TradeExecutor.execute_signal cfg other signal) tr
    (fst res,
     match TradeExecutor.active_trades (snd res) !! TradingSignal.symbol signal with
     | Some t =>
         {| TradeExecutor.exchange := TradeExecutor.exchange other;
            TradeExecutor.active_trades :=
              <[ TradingSignal.symbol signal := t ]> (TradeExecutor.active_trades other) |}
     | None => other
     end).
Proof.
  intros Hr Hex Hnone Hother. apply execute_signal_exits in Hr.
  apply exits_execute_signal.
  destruct Hr as [Hdup|r_bal _ balance Hbal|r_bal _ balance Hbal Hp1
                 |r_bal r_mk _ ex balance min_order_size Hbal Hp1
                 |r_bal r_mk first_order _ ex balance min_order_size Hbal Hp1 Hp2
                 |r_bal r_mk first_order tr_second second_order tr_stop
                    stop_loss_order tr_targets take_profit_orders _ ex symbol
                    balance min_order_size a2 total avg Hbal Hp1 Hp2 Hsecond Hstop Htargets].
  { rewrite Hnone in Hdup. destruct Hdup as [? ?]. discriminate. }
  - simpl. rewrite Hnone. apply exit_balance; assumption.
  - simpl. rewrite Hnone. apply exit_first_price_zero; assumption.
  - simpl. rewrite Hnone. subst ex min_order_size. rewrite <- Hex.
    apply exit_first_buy_failed; assumption.
  - simpl. rewrite Hnone. subst ex min_order_size. rewrite <- Hex.
    apply exit_second_price_zero; assumption.
  - simpl. rewrite lookup_insert_eq.
    subst ex symbol min_order_size total avg. rewrite <- Hex in *.
    apply exit_recorded; assumption.
Qed.

(** Two calls for one symbol that overlap.  Both are started on the
    ledger of [self]: the second passes the check of line 48 while the
    first awaits the exchange.  Both return [True]; and the store of the
    second (line 149), made on the ledger the first has left, replaces
    the trade of the first: what remains is what the second call alone
    would have left. *)
Lemma overlapping_calls_overwrite cfg self signal1 signal2 tr1 tr2 self1 self2 :
  runs (TradeExecutor.execute_signal cfg self signal1) tr1 (true, self1) ->
  runs (TradeExecutor.execute_signal cfg self signal2) tr2 (true, self2) ->
  TradingSignal.symbol signal1 = TradingSignal.symbol signal2 ->
  exists t1 t2,
    TradeExecutor.active_trades self1 !! TradingSignal.symbol signal1 = Some t1
    /\ Trade.signal t1 = signal1
    /\ TradeExecutor.active_trades self2 !! TradingSignal.symbol signal2 = Some t2
    /\ Trade.signal t2 = signal2
    /\ <[ TradingSignal.symbol signal2 := t2 ]> (TradeExecutor.active_trades self1)
       = TradeExecutor.active_trades self2.
Proof.
  intros H1 H2 Hsym.
  apply execute_signal_result in H1, H2.
  destruct H1 as [E|(_ & r_bal & r_mk & o1 & o2 & sl & tps & E)]; [discriminate E|].
  injection E as ->.
  destruct H2 as [E|(_ & r_bal' & r_mk' & o1' & o2' & sl' & tps' & E)]; [discriminate E|].
  injection E as ->.
  eexists _, _. simpl.
  split; [apply lookup_insert_eq|]. split; [reflexivity|].
  split; [apply lookup_insert_eq|]. split; [reflexivity|].
  rewrite Hsym. apply insert_insert_eq.
Qed.

(** X1.  What one call of [execute_signal] does to the ledger it was
    started on, no other call storing into or removing from that ledger
    before it returns.  The call returns [True] exactly when it has added
    a trade under the signal's symbol, which had none when the call
    started; the trade holds the signal.  When it returns [False] the
    executor is as before.  In either case the trades of all other
    symbols, and the connector, are untouched.  And the call does not
    depend on those other trades: started on any other ledger without a
    trade under the symbol, the same calls, answered alike, give the same
    flag and store the same trade.  (Calls that overlap are not covered:
    the code awaits the exchange between its check at line 48 and its
    store at line 149, so two overlapping calls for one symbol can both
    pass the check, and the store of the second then replaces the trade
    of the first, [overlapping_calls_overwrite].) *)
Theorem execute_signal_ledger cfg self signal tr b self' :
  runs (TradeExecutor.execute_signal cfg self signal) tr (b, self') ->
  TradeExecutor.exchange self' = TradeExecutor.exchange self
  /\ (forall k, k <> TradingSignal.symbol signal ->
      TradeExecutor.active_trades self' !! k = TradeExecutor.active_trades self !! k)
  /\ TradeExecutor.active_trades self ⊆ TradeExecutor.active_trades self'
  /\ (b = false -> self' = self)
  /\ (b = true ->
      TradeExecutor.active_trades self !! TradingSignal.symbol signal = None
      /\ exists t,
           TradeExecutor.active_trades self'
           = <[ TradingSignal.symbol signal := t ]> (TradeExecutor.active_trades self)
           /\ Trade.signal t = signal
           /\ Trade.base_symbol t = TradingSignal.symbol signal)
  /\ (forall other,
      TradeExecutor.exchange other = TradeExecutor.exchange self ->
      TradeExecutor.active_trades self !! TradingSignal.symbol signal = None ->
      TradeExecutor.active_trades other !! TradingSignal.symbol signal = None ->
      runs (TradeExecutor.execute_signal cfg other signal) tr
        (b,
         match TradeExecutor.active_trades self' !! TradingSignal.symbol signal with
         | Some t =>
             {| TradeExecutor.exchange := TradeExecutor.exchange other;
                TradeExecutor.active_trades :=
                  <[ TradingSignal.symbol signal := t ]>
                    (TradeExecutor.active_trades other) |}
         | None => other
         end)).
Proof.
  intros Hr.
  assert (Hother : forall other,
            TradeExecutor.exchange other = TradeExecutor.exchange self ->
            TradeExecutor.active_trades self !! TradingSignal.symbol signal = None ->
            TradeExecutor.active_trades other !! TradingSignal.symbol signal = None ->
            runs (TradeExecutor.execute_signal cfg other signal) tr
              (b,
               match TradeExecutor.active_trades self' !! TradingSignal.symbol signal with
               | Some t =>
                   {| TradeExecutor.exchange := TradeExecutor.exchange other;
                      TradeExecutor.active_trades :=
                        <[ TradingSignal.symbol signal := t ]>
                          (TradeExecutor.active_trades other) |}
               | None => other
               end)).
  { intros other Hex Hnone Hnone'.
    exact (execute_signal_other_ledger cfg self other signal tr (b, self')
             Hr Hex Hnone Hnone'). }
  apply execute_signal_result in Hr.
  destruct Hr as [E|(Hnone & r_bal & r_mk & o1 & o2 & sl & tps & E)];
    injection E as -> ->.
  - split; [reflexivity|]. split; [reflexivity|]. split; [reflexivity|].
    split; [reflexivity|]. split; [discriminate | exact Hother].
  - simpl. split; [reflexivity|].
    split; [intros k Hk; apply lookup_insert_ne; congruence|].
    split; [apply insert_subseteq; exact Hnone|].
    split; [discriminate|]. split; [|exact Hother]. intros _. split; [exact Hnone|].
    eexists. split; [reflexivity|]. split; reflexivity.
Qed.

(** X2.  After an execution that returned [True], every signal for the
    same symbol is refused, whatever its prices and whatever the options:
    [execute_signal] is then the program that returns [False] without a
    call to the exchange. *)
Theorem execute_signal_refuses_repeat cfg self signal tr self' cfg' signal' :
  runs (TradeExecutor.execute_signal cfg self signal) tr (true, self') ->
  TradingSignal.symbol signal' = TradingSignal.symbol signal ->
  TradeExecutor.execute_signal cfg' self' signal' = Ret (false, self').
Proof.
  intros Hr Hsym. apply execute_signal_result in Hr.
  destruct Hr as [E|(Hnone & r_bal & r_mk & o1 & o2 & sl & tps & E)];
    [discriminate E|]. injection E as ->.
  apply execute_signal_duplicate. simpl. rewrite Hsym, lookup_insert_eq. eauto.
Qed.

(** X3.  [remove_trade] undoes an execution: after an execution that
    returned [True], removing the signal's symbol gives back the executor
    as it was before, [check_trade_status] finds nothing under the
    symbol, and a new signal for the symbol is taken up again (its
    execution starts with the balance query). *)
Theorem remove_trade_undoes_execution cfg self signal tr self' :
  runs (TradeExecutor.execute_signal cfg self signal) tr (true, self') ->
  TradeExecutor.check_trade_status self' (TradingSignal.symbol signal) <> None
  /\ TradeExecutor.remove_trade self' (TradingSignal.symbol signal) = self
  /\ TradeExecutor.check_trade_status
       (TradeExecutor.remove_trade self' (TradingSignal.symbol signal))
       (TradingSignal.symbol signal) = None
  /\ forall cfg' signal' tr' res',
       TradingSignal.symbol signal' = TradingSignal.symbol signal ->
       runs (TradeExecutor.execute_signal cfg'
               (TradeExecutor.remove_trade self' (TradingSignal.symbol signal)) signal')
         tr' res' ->
       exists r tr'', tr' = EvFetchBalance r :: tr''.
Proof.
  intros Hr. apply execute_signal_result in Hr.
  destruct Hr as [E|(Hnone & r_bal & r_mk & o1 & o2 & sl & tps & E)];
    [discriminate E|]. injection E as ->.
  assert (Hback : TradeExecutor.remove_trade
                    {| TradeExecutor.exchange := TradeExecutor.exchange self;
                       TradeExecutor.active_trades :=
                         <[ TradingSignal.symbol signal :=
                            Locals.trade cfg (TradeExecutor.exchange self) signal
                              (ExchangeConnector.free_balance r_bal (config.DEFAULT_QUOTE_ASSET cfg))
                              (ExchangeConnector.amount_min r_mk
                                 (Locals.symbol cfg (TradeExecutor.exchange self) signal))
                              o1 o2 sl tps ]> (TradeExecutor.active_trades self) |}
                    (TradingSignal.symbol signal) = self).
  { unfold TradeExecutor.remove_trade. simpl.
    rewrite delete_insert_id by exact Hnone. apply executor_eta. }
  split.
  { unfold TradeExecutor.check_trade_status. simpl. rewrite lookup_insert_eq. discriminate. }
  split; [exact Hback|]. rewrite Hback.
  split; [exact Hnone|].
  intros cfg' signal' tr' res' Hsym Hr'.
  eapply execute_signal_starts; [|exact Hr']. rewrite Hsym. exact Hnone.
Qed.

(* ================================================================== *)
(** * The parts of a completed execution *)
(* ================================================================== *)

(** The executions of the take-profit loop: one limit sell per target,
    in the order of the targets, whatever the exchange answers; the
    orders it returned are appended to the list. *)
Lemma take_profit_loop_inv ex s apt avg targets acc tr res :
  runs (TradeExecutor.take_profit_loop ex s apt avg targets acc) tr res ->
  exists replies,
    length replies = length targets
    /\ tr = take_profit_events s apt avg targets replies
    /\ res = Ok (acc ++ accepted replies).
Proof.
  revert acc tr. induction targets as [|t targets IH]; intros acc tr H;
    unfold TradeExecutor.take_profit_loop in H; fold TradeExecutor.take_profit_loop in H.
  - unfold ret in H. inv_runs. exists []. rewrite app_nil_r. auto.
  - rewrite (py_truediv_ok t 100) in H by (intros E; discriminate E).
    unfold ExchangeConnector.place_take_profit_order in H.
    step. inv_runs. destruct r as [o|]; step; apply IH in H;
      destruct H as (replies & Hlen & -> & ->).
    + exists (Some o :: replies). simpl. rewrite Hlen, <- app_assoc. auto.
    + exists (None :: replies). simpl. rewrite Hlen. auto.
Qed.

Lemma take_profit_loop_intro ex s apt avg targets acc replies :
  length replies = length targets ->
  runs (TradeExecutor.take_profit_loop ex s apt avg targets acc)
    (take_profit_events s apt avg targets replies) (Ok (acc ++ accepted replies)).
Proof.
  revert acc replies. induction targets as [|t targets IH]; intros acc replies Hlen;
    unfold TradeExecutor.take_profit_loop; fold TradeExecutor.take_profit_loop.
  - destruct replies; [|discriminate]. simpl. rewrite app_nil_r. constructor.
  - destruct replies as [|r replies]; [discriminate|]. injection Hlen as Hlen.
    rewrite (py_truediv_ok t 100) by (intros E; discriminate E).
    unfold ExchangeConnector.place_take_profit_order. step.
    unfold take_profit_events. simpl. constructor.
    destruct r as [o|]; step; simpl.
    + replace (acc ++ o :: accepted replies) with ((acc ++ [o]) ++ accepted replies)
        by (rewrite <- app_assoc; reflexivity).
      apply IH. exact Hlen.
    + apply IH. exact Hlen.
Qed.

Lemma length_accepted replies : (length (accepted replies) <= length replies)%nat.
Proof.
  induction replies as [|[o|] replies IH]; simpl; lia.
Qed.

Lemma length_take_profit_events s apt avg targets replies :
  length replies = length targets ->
  length (take_profit_events s apt avg targets replies) = length targets.
Proof.
  intros H. unfold take_profit_events. rewrite length_map, length_combine. lia.
Qed.

(** The shape of an execution that returned [True]: the balance and the
    market query, the first buy, and then the second buy, the stop loss
    and the take-profit orders, each part as the options and the amounts
    have it. *)
Lemma execute_signal_true_inv cfg self signal tr self' :
  runs (TradeExecutor.execute_signal cfg self signal) tr (true, self') ->
  exists r_bal r_mk first_order tr_second second_order tr_stop stop_loss_order
         tr_targets take_profit_orders,
    let ex := TradeExecutor.exchange self in
    let pair := Locals.symbol cfg ex signal in
    let balance := ExchangeConnector.free_balance r_bal (config.DEFAULT_QUOTE_ASSET cfg) in
    let min_order_size := ExchangeConnector.amount_min r_mk pair in
    let total := Locals.total_amount cfg signal balance min_order_size second_order in
    let avg := Locals.avg_entry_price cfg signal balance min_order_size second_order in
    TradeExecutor.active_trades self !! TradingSignal.symbol signal = None
    /\ tr = [EvFetchBalance r_bal; EvLoadMarkets r_mk;
             EvCreateLimitOrder pair buy
               (Locals.first_buy_amount cfg signal balance min_order_size)
               (Locals.first_buy_price signal) (Some first_order)]
            ++ tr_second ++ tr_stop ++ tr_targets
    /\ self' = {| TradeExecutor.exchange := ex;
                  TradeExecutor.active_trades :=
                    <[ TradingSignal.symbol signal :=
                       Locals.trade cfg ex signal balance min_order_size first_order
                         second_order stop_loss_order take_profit_orders ]>
                      (TradeExecutor.active_trades self) |}
    /\ ~ Locals.first_buy_price signal == 0
    /\ ~ TradingSignal.second_buy signal == 0
    /\ ((tr_second = [] /\ second_order = None)
        \/ tr_second = [EvCreateLimitOrder pair buy
                          (Locals.second_buy_amount cfg signal balance)
                          (TradingSignal.second_buy signal) second_order])
    /\ ((config.ENABLE_STOP_LOSS cfg = false /\ tr_stop = [] /\ stop_loss_order = None)
        \/ (config.ENABLE_STOP_LOSS cfg = true
            /\ exists ty pr,
                 (exists o, tr_stop = [EvCreateOrder pair ty sell total pr
                                         (TradingSignal.stop_loss signal) (Some o)]
                            /\ stop_loss_order = Some o)
                 \/ tr_stop = [EvCreateOrder pair ty sell total pr
                                 (TradingSignal.stop_loss signal) None;
                               EvCreateLimitOrder pair sell total
                                 (TradingSignal.stop_loss signal) stop_loss_order]))
    /\ (((config.ENABLE_TAKE_PROFIT cfg = false \/ TradingSignal.targets signal = [])
         /\ tr_targets = [] /\ take_profit_orders = [])
        \/ (config.ENABLE_TAKE_PROFIT cfg = true
            /\ TradingSignal.targets signal <> []
            /\ exists replies,
                 length replies = length (TradingSignal.targets signal)
                 /\ tr_targets
                    = take_profit_events pair
                        (total / inject_Z (Z.of_nat (length (TradingSignal.targets signal))))
                        avg (TradingSignal.targets signal) replies
                 /\ take_profit_orders = accepted replies)).
Proof.
  intros Hr. apply execute_signal_exits in Hr.
  inversion Hr as [| | | | |r_bal r_mk first_order tr_second second_order tr_stop
      stop_loss_order tr_targets take_profit_orders Hnone ex symbol
      balance min_order_size a2 total avg Hbal Hp1 Hp2 Hsecond Hstop Htargets Htr Hres].
  exists r_bal, r_mk, first_order, tr_second, second_order, tr_stop, stop_loss_order,
    tr_targets, take_profit_orders.
  cbv zeta. split; [exact Hnone|]. split; [reflexivity|]. split; [reflexivity|].
  split; [exact Hp1|]. split; [exact Hp2|]. split; [|split].
  - destruct (py_ge a2 min_order_size); [right; exact Hsecond | left; exact Hsecond].
  - destruct (config.ENABLE_STOP_LOSS cfg); [right | left; tauto].
    split; [reflexivity|]. apply runs_place_stop_loss_order in Hstop.
    destruct Hstop as (ty & pr & Hcase). exists ty, pr. exact Hcase.
  - destruct (config.ENABLE_TAKE_PROFIT cfg); [|left; simpl in Htargets; tauto].
    destruct (TradingSignal.targets signal) as [|t ts] eqn:Hts;
      [left; simpl in Htargets; tauto|].
    right. split; [reflexivity|]. split; [discriminate|].
    simpl andb in Htargets. cbv iota in Htargets.
    apply take_profit_loop_inv in Htargets.
    destruct Htargets as (replies & Hlen & Htr' & Hres').
    injection Hres' as ->. exists replies. auto.
Qed.

(** An execution that returned [False]: it ended at one of the first
    three calls, and the executor is as before. *)
Lemma execute_signal_false_inv cfg self signal tr self' :
  runs (TradeExecutor.execute_signal cfg self signal) tr (false, self') ->
  self' = self
  /\ (tr = []
      \/ (exists r_bal, tr = [EvFetchBalance r_bal])
      \/ exists r_bal r_mk a1 r1,
           tr = [EvFetchBalance r_bal; EvLoadMarkets r_mk;
                 EvCreateLimitOrder (Locals.symbol cfg (TradeExecutor.exchange self) signal)
                   buy a1 (Locals.first_buy_price signal) r1]).
Proof.
  intros Hr. apply execute_signal_exits in Hr.
  inversion Hr; subst; (split; [reflexivity|]); eauto 10.
Qed.

(* ================================================================== *)
(** * The take-profit orders *)
(* ================================================================== *)

(** X5.  The take-profit loop places exactly one limit sell per target,
    in the order of the targets, each for [amount_per_target] at
    [avg_entry_price * (1 + target / 100)].  A rejected order does not
    stop the loop: the next target is still placed.  The list returned
    is the list given, followed by the orders the exchange returned, in
    that order; the loop never raises.  Conversely every sequence of
    answers of the exchange gives such an execution. *)
Theorem take_profit_loop_spec ex s apt avg targets acc tr res :
  runs (TradeExecutor.take_profit_loop ex s apt avg targets acc) tr res
  <-> exists replies,
        length replies = length targets
        /\ tr = take_profit_events s apt avg targets replies
        /\ res = Ok (acc ++ accepted replies).
Proof.
  split; [apply take_profit_loop_inv|].
  intros (replies & Hlen & -> & ->). apply take_profit_loop_intro. exact Hlen.
Qed.

Lemma take_profit_events_sells s apt avg targets replies :
  Forall (fun e => is_sell e = true /\ order_symbol e = Some s /\ order_amount e = apt)
    (take_profit_events s apt avg targets replies).
Proof.
  unfold take_profit_events. apply List.Forall_forall. intros e He.
  apply in_map_iff in He. destruct He as (x & <- & _). auto.
Qed.

Lemma take_profit_events_limit s apt avg targets replies :
  Forall is_limit (take_profit_events s apt avg targets replies).
Proof.
  unfold take_profit_events. apply List.Forall_forall. intros e He.
  apply in_map_iff in He. destruct He as (x & <- & _). exact I.
Qed.

(** X6.  In an execution that returned [True], the sell orders come
    after the buys, in two groups.  The stop order, and the limit sell
    that replaces it when it is rejected, are each for the whole stored
    [total_amount].  The take-profit orders are each for the quotient
    [total_amount / len(targets)], and there is one per target when they
    are enabled and there are targets.  (The amounts are the code's own
    expressions; that the take-profit amounts add up to [total_amount]
    again is not stated: in floats the quotient is rounded.) *)
Theorem exit_orders_sized_for_position cfg self signal tr self' :
  runs (TradeExecutor.execute_signal cfg self signal) tr (true, self') ->
  exists t tr_entry tr_stop tr_targets,
    TradeExecutor.active_trades self' !! TradingSignal.symbol signal = Some t
    /\ tr = tr_entry ++ tr_stop ++ tr_targets
    /\ List.filter is_sell tr_entry = []
    /\ Forall (fun e => is_sell e = true /\ order_amount e = Trade.total_amount t) tr_stop
    /\ (config.ENABLE_STOP_LOSS cfg = true -> tr_stop <> [])
    /\ Forall (fun e => is_sell e = true
                        /\ order_amount e
                           = Trade.total_amount t
                             / inject_Z (Z.of_nat (length (TradingSignal.targets signal))))
         tr_targets
    /\ (config.ENABLE_TAKE_PROFIT cfg = true -> TradingSignal.targets signal <> [] ->
        length tr_targets = length (TradingSignal.targets signal)).
Proof.
  intros Hr. apply execute_signal_true_inv in Hr.
  destruct Hr as (r_bal & r_mk & o1 & tr_second & o2 & tr_stop & sl & tr_targets & tps
                  & Hnone & -> & -> & Hp1 & Hp2 & Hsecond & Hstop & Htargets).
  cbv zeta in *.
  eexists _, (_ ++ tr_second), tr_stop, tr_targets.
  split; [apply lookup_insert_eq|].
  split; [rewrite <- app_assoc; reflexivity|].
  simpl Trade.total_amount.
  split. { destruct Hsecond as [[-> _]| ->]; reflexivity. }
  split.
  { destruct Hstop as [(_ & -> & _)|(_ & ty & pr & [(o & -> & _)| ->])];
      repeat constructor. }
  split.
  { intros Hsl. destruct Hstop as [(E & _)|(_ & ty & pr & [(o & -> & _)| ->])];
      [congruence | discriminate | discriminate]. }
  split.
  { destruct Htargets as [(_ & -> & _)|(_ & _ & replies & Hlen & -> & _)]; [constructor|].
    eapply List.Forall_impl; [|apply take_profit_events_sells].
    intros e (Hs & _ & Ha). auto. }
  intros Htp Hne.
  destruct Htargets as [([E|E] & _)|(_ & _ & replies & Hlen & -> & _)];
    [congruence | contradiction |].
  apply length_take_profit_events. exact Hlen.
Qed.

(* ================================================================== *)
(** * The calls of an execution *)
(* ================================================================== *)

(** X7.  The options switch the risk orders off.  Without
    [ENABLE_STOP_LOSS] no execution asks for a stop order.  Without
    [ENABLE_TAKE_PROFIT], or for a signal without targets, an execution
    places at most two sell orders, those of the stop loss.  Without
    both it places no sell order at all and makes at most four calls:
    the balance query, the market query and the two buys. *)
Theorem risk_orders_follow_options cfg self signal tr res :
  runs (TradeExecutor.execute_signal cfg self signal) tr res ->
  (config.ENABLE_STOP_LOSS cfg = false -> Forall is_limit tr)
  /\ (config.ENABLE_TAKE_PROFIT cfg = false \/ TradingSignal.targets signal = [] ->
      (length (List.filter is_sell tr) <= 2)%nat)
  /\ (config.ENABLE_STOP_LOSS cfg = false ->
      config.ENABLE_TAKE_PROFIT cfg = false \/ TradingSignal.targets signal = [] ->
      List.filter is_sell tr = [] /\ (length tr <= 4)%nat).
Proof.
  intros Hr. destruct res as [[|] self'].
  - apply execute_signal_true_inv in Hr.
    destruct Hr as (r_bal & r_mk & o1 & tr_second & o2 & tr_stop & sl & tr_targets & tps
                    & Hnone & -> & -> & Hp1 & Hp2 & Hsecond & Hstop & Htargets).
    cbv zeta in *.
    assert (Hsec : Forall is_limit tr_second /\ List.filter is_sell tr_second = []
                   /\ (length tr_second <= 1)%nat).
    { destruct Hsecond as [[-> _]| ->]; simpl; repeat constructor. }
    destruct Hsec as (Hsec1 & Hsec2 & Hsec3).
    assert (Hst : (length (List.filter is_sell tr_stop) <= 2)%nat).
    { destruct Hstop as [(_ & -> & _)|(_ & ty & pr & [(o & -> & _)| ->])]; simpl; lia. }
    assert (Htar : Forall is_limit tr_targets).
    { destruct Htargets as [(_ & -> & _)|(_ & _ & replies & Hlen & -> & _)]; [constructor|].
      apply take_profit_events_limit. }
    split; [|split].
    + intros Hsl. destruct Hstop as [(_ & -> & _)|(E & _)]; [|congruence].
      simpl. repeat (constructor; [exact I|]).
      apply Forall_app. split; [exact Hsec1 | exact Htar].
    + intros Hoff.
      destruct Htargets as [(_ & -> & _)|(E1 & E2 & _)];
        [|destruct Hoff; [congruence | contradiction]].
      rewrite app_nil_r. simpl. rewrite List.filter_app, length_app, Hsec2. simpl. exact Hst.
    + intros Hsl Hoff.
      destruct Hstop as [(_ & -> & _)|(E & _)]; [|congruence].
      destruct Htargets as [(_ & -> & _)|(E1 & E2 & _)];
        [|destruct Hoff; [congruence | contradiction]].
      rewrite !app_nil_r. simpl. split; [exact Hsec2 | lia].
  - apply execute_signal_false_inv in Hr.
    destruct Hr as [-> [-> |[(r_bal & ->)|(r_bal & r_mk & a1 & r1 & ->)]]];
      simpl; repeat split; intros; repeat constructor.
Qed.

(** X8.  The calls of an execution are bounded and stay on one pair.
    An execution makes at most [6 + len(targets)] calls to the exchange,
    of which at most two are buys; one that returns [True] has made at
    least three.  Every order, buy or sell, is placed on the pair
    [<symbol>/<DEFAULT_QUOTE_ASSET>] of the signal. *)
Theorem execute_signal_calls_bounded cfg self signal tr res :
  runs (TradeExecutor.execute_signal cfg self signal) tr res ->
  (length tr <= 6 + length (TradingSignal.targets signal))%nat
  /\ (length (List.filter is_buy tr) <= 2)%nat
  /\ (fst res = true -> (3 <= length tr)%nat)
  /\ Forall (fun e => is_order e = true ->
                      order_symbol e
                      = Some (TradingSignal.symbol signal ++ str "/"
                              ++ config.DEFAULT_QUOTE_ASSET cfg)) tr.
Proof.
  intros Hr. destruct res as [[|] self'].
  - apply execute_signal_true_inv in Hr.
    destruct Hr as (r_bal & r_mk & o1 & tr_second & o2 & tr_stop & sl & tr_targets & tps
                    & Hnone & -> & -> & Hp1 & Hp2 & Hsecond & Hstop & Htargets).
    cbv zeta in *.
    set (pair := Locals.symbol cfg (TradeExecutor.exchange self) signal) in *.
    assert (Hsec : (length tr_second <= 1)%nat
                   /\ (length (List.filter is_buy tr_second) <= 1)%nat
                   /\ Forall (fun e => is_order e = true -> order_symbol e = Some pair)
                        tr_second).
    { destruct Hsecond as [[-> _]| ->]; simpl; repeat constructor. }
    assert (Hst : (length tr_stop <= 2)%nat
                  /\ List.filter is_buy tr_stop = []
                  /\ Forall (fun e => is_order e = true -> order_symbol e = Some pair)
                       tr_stop).
    { destruct Hstop as [(_ & -> & _)|(_ & ty & pr & [(o & -> & _)| ->])];
        simpl; repeat constructor. }
    assert (Htar : (length tr_targets <= length (TradingSignal.targets signal))%nat
                   /\ List.filter is_buy tr_targets = []
                   /\ Forall (fun e => is_order e = true -> order_symbol e = Some pair)
                        tr_targets).
    { destruct Htargets as [(_ & -> & _)|(_ & _ & replies & Hlen & -> & _)].
      - simpl. split; [lia|]. split; constructor.
      - rewrite (length_take_profit_events _ _ _ _ _ Hlen). split; [lia|].
        pose proof (take_profit_events_sells pair
                      (Locals.total_amount cfg signal
                         (ExchangeConnector.free_balance r_bal (config.DEFAULT_QUOTE_ASSET cfg))
                         (ExchangeConnector.amount_min r_mk pair) o2
                       / inject_Z (Z.of_nat (length (TradingSignal.targets signal))))
                      (Locals.avg_entry_price cfg signal
                         (ExchangeConnector.free_balance r_bal (config.DEFAULT_QUOTE_ASSET cfg))
                         (ExchangeConnector.amount_min r_mk pair) o2)
                      (TradingSignal.targets signal) replies) as Hall.
        split.
        + induction Hall as [|e l (Hs & _) _ IH]; [reflexivity|].
          destruct e as [| |? [|] ? ? ?|? ? [|] ? ? ? ?]; try discriminate Hs; exact IH.
        + eapply List.Forall_impl; [|exact Hall]. intros e (_ & Hp & _) _. exact Hp. }
    destruct Hsec as (Hs1 & Hs2 & Hs3), Hst as (Ht1 & Ht2 & Ht3), Htar as (Hg1 & Hg2 & Hg3).
    split; [simpl; rewrite !length_app; lia|].
    split; [simpl; rewrite !List.filter_app, !length_app, Ht2, Hg2; simpl; lia|].
    split; [intros _; simpl; lia|].
    simpl. constructor; [discriminate|]. constructor; [discriminate|].
    constructor; [intros _; reflexivity|].
    apply Forall_app. split; [exact Hs3|]. apply Forall_app. split; assumption.
  - apply execute_signal_false_inv in Hr.
    destruct Hr as [-> [-> |[(r_bal & ->)|(r_bal & r_mk & a1 & r1 & ->)]]]; simpl.
    + split; [lia|]. split; [lia|]. split; [discriminate|]. constructor.
    + split; [lia|]. split; [lia|]. split; [discriminate|].
      constructor; [discriminate | constructor].
    + split; [lia|]. split; [lia|]. split; [discriminate|].
      constructor; [discriminate|]. constructor; [discriminate|].
      constructor; [intros _; reflexivity | constructor].
Qed.

(* ================================================================== *)
(** * What every stored trade satisfies *)
(* ================================================================== *)

(** X4.  An invariant of the ledger.  In every state an executor can
    reach from [__init__] by [execute_signal] and [remove_trade], the
    connector is the one it was created with, and every trade in
    [active_trades] is stored under the symbol of its own signal, names
    that symbol as [base_symbol] and the pair
    [<symbol>/<DEFAULT_QUOTE_ASSET>] as [symbol]; it has at most one
    take-profit order per target, none when [ENABLE_TAKE_PROFIT] is off,
    and no stop-loss order when [ENABLE_STOP_LOSS] is off; and the
    midpoint of its first-buy range and its second-buy price are not
    zero.  (The calls that lead to a state run one after the other.) *)
Theorem active_trades_invariant cfg ex self :
  reachable cfg ex self ->
  TradeExecutor.exchange self = ex
  /\ forall k t,
       TradeExecutor.active_trades self !! k = Some t ->
       TradingSignal.symbol (Trade.signal t) = k
       /\ Trade.base_symbol t = k
       /\ Trade.symbol t = k ++ str "/" ++ config.DEFAULT_QUOTE_ASSET cfg
       /\ (length (Trade.take_profit_orders t)
           <= length (TradingSignal.targets (Trade.signal t)))%nat
       /\ (config.ENABLE_TAKE_PROFIT cfg = false -> Trade.take_profit_orders t = [])
       /\ (config.ENABLE_STOP_LOSS cfg = false -> Trade.stop_loss_order t = None)
       /\ ~ (fst (TradingSignal.first_buy_range (Trade.signal t))
             + snd (TradingSignal.first_buy_range (Trade.signal t))) / 2 == 0
       /\ ~ TradingSignal.second_buy (Trade.signal t) == 0.
Proof.
  induction 1 as [|self signal tr [b self'] _ [IHex IH] Hr|self symbol _ [IHex IH]].
  - split; [reflexivity|]. intros k t Hk. simpl in Hk.
    rewrite lookup_empty in Hk. discriminate.
  - simpl. destruct b.
    2:{ apply execute_signal_false_inv in Hr. destruct Hr as [-> _]. auto. }
    apply execute_signal_true_inv in Hr.
    destruct Hr as (r_bal & r_mk & o1 & tr_second & o2 & tr_stop & sl & tr_targets & tps
                    & Hnone & _ & -> & Hp1 & Hp2 & _ & Hstop & Htargets).
    cbv zeta in *. split; [exact IHex|]. intros k t. simpl.
    destruct (decide (k = TradingSignal.symbol signal)) as [->|Hne].
    2:{ rewrite lookup_insert_ne by congruence. apply IH. }
    rewrite lookup_insert_eq. intros [= <-]. simpl.
    split; [reflexivity|]. split; [reflexivity|]. split; [reflexivity|].
    split.
    { destruct Htargets as [(_ & _ & ->)|(_ & _ & replies & Hlen & _ & ->)]; simpl; [lia|].
      rewrite <- Hlen. apply length_accepted. }
    split.
    { intros Htp. destruct Htargets as [(_ & _ & ->)|(E & _)]; [reflexivity | congruence]. }
    split.
    { intros Hsl. destruct Hstop as [(_ & _ & ->)|(E & _)]; [reflexivity | congruence]. }
    split; [exact Hp1 | exact Hp2].
  - split; [exact IHex|]. intros k t. simpl. intros Hk.
    apply lookup_delete_Some in Hk. destruct Hk as [_ Hk]. apply IH. exact Hk.
Qed.

(* ================================================================== *)
(** * Executions that end early *)
(* ================================================================== *)

Lemma first_buy_price_zero signal :
  fst (TradingSignal.first_buy_range signal)
  + snd (TradingSignal.first_buy_range signal) == 0 ->
  Locals.first_buy_price signal == 0.
Proof.
  intros H. unfold Locals.first_buy_price. rewrite H. reflexivity.
Qed.

(** X9.  A signal whose first-buy range adds up to zero (as in "First
    buying: 0-0") is never traded: the division by the midpoint raises
    before the market table is asked for, so an execution returns
    [False], leaves the executor as it was, and has called the exchange
    for the balance at most. *)
Theorem zero_first_price_places_no_order cfg self signal tr res :
  fst (TradingSignal.first_buy_range signal)
  + snd (TradingSignal.first_buy_range signal) == 0 ->
  runs (TradeExecutor.execute_signal cfg self signal) tr res ->
  res = (false, self) /\ (tr = [] \/ exists r_bal, tr = [EvFetchBalance r_bal]).
Proof.
  intros Hz Hr. apply first_buy_price_zero in Hz. apply execute_signal_exits in Hr.
  destruct Hr as [| | |? ? ? ? ? ? ? Hp1|? ? ? ? ? ? ? ? Hp1|
                  ? ? ? ? ? ? ? ? ? ? ? ? ? ? ? ? ? ? Hp1];
    try contradiction; split; eauto.
Qed.

Lemma free_balance_unavailable r_bal asset :
  (forall balance free, r_bal = Some balance -> balance !! asset <> Some (Some free)) ->
  ExchangeConnector.free_balance r_bal asset = 0.
Proof.
  intros H. unfold ExchangeConnector.free_balance.
  destruct r_bal as [balance|]; [|reflexivity].
  destruct (balance !! asset) as [[free|]|] eqn:E; try reflexivity.
  exfalso. exact (H balance free eq_refl E).
Qed.

(** X10.  [get_balance] turns every failure into a balance of zero:
    when [fetch_balance] raises, or its answer has no entry for the quote
    asset, or the entry's free amount does not convert, an execution ends
    with that one call and returns [False], as for an empty account. *)
Theorem balance_unavailable_refuses cfg self signal r_bal tr' res :
  (forall balance free,
     r_bal = Some balance ->
     balance !! config.DEFAULT_QUOTE_ASSET cfg <> Some (Some free)) ->
  runs (TradeExecutor.execute_signal cfg self signal) (EvFetchBalance r_bal :: tr') res ->
  ExchangeConnector.free_balance r_bal (config.DEFAULT_QUOTE_ASSET cfg) = 0
  /\ tr' = [] /\ res = (false, self).
Proof.
  intros Hun Hr. apply free_balance_unavailable in Hun.
  split; [exact Hun|]. apply execute_signal_exits in Hr.
  inversion Hr as [|r Hnone balance Hbal|r Hnone balance Hbal Hp1
                  |r r_mk Hnone ex balance min_order_size Hbal Hp1
                  |r r_mk first_order Hnone ex balance min_order_size Hbal Hp1 Hp2
                  |r r_mk first_order tr_second second_order tr_stop
                     stop_loss_order tr_targets take_profit_orders Hnone ex symbol
                     balance min_order_size a2 total avg Hbal Hp1 Hp2 Hsecond Hstop Htargets];
    subst; try (split; reflexivity).
  all: exfalso; subst balance; rewrite Hun in Hbal; revert Hbal; apply Qlt_not_le; reflexivity.
Qed.

Lemma amount_min_unlisted r_mk symbol :
  (forall mkts m, r_mk = Some mkts -> mkts !! symbol <> Some (Some m)) ->
  ExchangeConnector.amount_min r_mk symbol = 0.001.
Proof.
  intros H. unfold ExchangeConnector.amount_min.
  destruct r_mk as [mkts|]; [|reflexivity].
  destruct (mkts !! symbol) as [[m|]|] eqn:E; try reflexivity.
  exfalso. exact (H mkts m eq_refl E).
Qed.

(** X11.  A pair the exchange does not list is traded all the same.
    When [load_markets] raises, or its table has no entry (or no usable
    minimum) for the pair, [get_min_order_size] answers 0.001, and an
    execution that got as far as the market query goes on to place the
    first buy on that pair, for the computed amount or for 0.001 if that
    is more. *)
Theorem unlisted_pair_is_traded cfg self signal r_bal r_mk tr' res :
  let pair := TradingSignal.symbol signal ++ str "/" ++ config.DEFAULT_QUOTE_ASSET cfg in
  let balance := ExchangeConnector.free_balance r_bal (config.DEFAULT_QUOTE_ASSET cfg) in
  let position_size :=
    py_min (balance * (config.POSITION_SIZE_PERCENTAGE cfg / 100))
      (config.MAX_POSITION_SIZE cfg) in
  let price :=
    (fst (TradingSignal.first_buy_range signal)
     + snd (TradingSignal.first_buy_range signal)) / 2 in
  (forall mkts m, r_mk = Some mkts -> mkts !! pair <> Some (Some m)) ->
  runs (TradeExecutor.execute_signal cfg self signal)
    (EvFetchBalance r_bal :: EvLoadMarkets r_mk :: tr') res ->
  exists r1 tr'',
    tr' = EvCreateLimitOrder pair buy
            (if py_lt (position_size * 0.6 / price) 0.001 then 0.001
             else position_size * 0.6 / price)
            price r1 :: tr''.
Proof.
  cbv zeta. intros Hun Hr. apply amount_min_unlisted in Hun.
  apply execute_signal_exits, exit_after_markets in Hr. cbv zeta in Hr.
  destruct Hr as (_ & _ & _ & r1 & tr'' & -> & _).
  exists r1, tr''. unfold Locals.symbol, ExchangeConnector.get_symbol. rewrite Hun.
  reflexivity.
Qed.

(* ================================================================== *)
(** * The stop-loss order of the connector *)
(* ================================================================== *)

(** X12.  [place_stop_loss_order] first asks for a stop order to sell
    the amount: on the exchange named "binance" a [STOP_MARKET] order
    without a price, on any other exchange a [stop] order with the stop
    price as its price.  If the exchange returns an order, that order is
    the result and nothing else is called.  If it raises, one limit sell
    of the same amount at the stop price follows, and its answer is the
    result: the result is [None] only when both calls failed.  These are
    all the executions there are. *)
Theorem place_stop_loss_order_spec ex s a sp tr res :
  runs (ExchangeConnector.place_stop_loss_order ex s a sp) tr res
  <-> exists r1,
        let request :=
          if decide (ExchangeConnector.exchange_name ex = str "binance")
          then EvCreateOrder s STOP_MARKET sell a None sp r1
          else EvCreateOrder s stop sell a (Some sp) sp r1 in
        match r1 with
        | Some o => tr = [request] /\ res = Some o
        | None => tr = [request; EvCreateLimitOrder s sell a sp res]
        end.
Proof.
  unfold ExchangeConnector.place_stop_loss_order. cbv zeta. split.
  - intros H. destruct (decide _); inv_runs; exists r; destruct r as [o|];
      try (inv_runs; split; reflexivity);
      apply runs_place_limit_order in H; subst; reflexivity.
  - intros (r1 & H).
    destruct (decide _); destruct r1 as [o|].
    1,3: destruct H as [-> ->]; apply runs_create_order; apply runs_Ret.
    all: subst tr; apply runs_create_order; unfold ExchangeConnector.place_limit_order;
      apply runs_create_limit_order; destruct res; apply runs_Ret.
Qed.

(* ================================================================== *)
(** * The numbers of a parsed signal *)
(* ================================================================== *)

Section Numbers.
Context {U : Unicode}.
Import re relang SignalParser.

Lemma float_from_nonneg s num den seen_dot seen_digit q :
  (0 <= num)%Z -> float_from s num den seen_dot seen_digit = Ok q -> 0 <= q.
Proof.
  revert num den seen_dot seen_digit.
  induction s as [|ch s IH]; intros num den seen_dot seen_digit Hnum H; simpl in H.
  - destruct seen_digit; [|discriminate]. injection H as <-.
    unfold Qle. simpl. lia.
  - destruct (N.eqb ch 46).
    + destruct seen_dot; [discriminate|]. eapply IH; [|exact H]. exact Hnum.
    + destruct (decimal ch) as [d|]; [|discriminate].
      eapply IH; [|exact H]. lia.
Qed.

Lemma float_nonneg s q : float s = Ok q -> 0 <= q.
Proof. apply float_from_nonneg. lia. Qed.

Lemma floats_Forall (P : Q -> Prop) l xs :
  (forall t x, In t l -> float t = Ok x -> P x) ->
  floats l = Ok xs -> Forall P xs.
Proof.
  revert xs. induction l as [|t l IH]; intros xs HP H; simpl in H.
  - injection H as <-. constructor.
  - destruct (float t) as [x|] eqn:Hx; [|discriminate].
    destruct (floats l) as [xs'|] eqn:Hxs; [|discriminate].
    injection H as <-. constructor.
    + apply (HP t); [left; reflexivity | exact Hx].
    + apply IH; [|reflexivity]. intros t' x' Hin. apply HP. right. exact Hin.
Qed.

Lemma sorted_Forall (P : Q -> Prop) l : Forall P l -> Forall P (sorted l).
Proof.
  intros H. apply List.Forall_forall. intros x Hx.
  rewrite List.Forall_forall in H. apply H.
  eapply Permutation_in; [|exact Hx]. symmetry. apply sorted_perm.
Qed.

(** The targets of a parsed signal come out of [float] applied to
    groups of the percent pattern, found in the text or in a part of it. *)
Lemma parsed_targets s sig :
  parse_message s = Some sig ->
  exists text targets,
    floats (findall false percent_re text) = Ok targets
    /\ TradingSignal.targets sig = sorted targets.
Proof.
  intros H. apply parse_message_inv in H.
  destruct H as (m1 & m2 & m3 & m4 & m5 & targets & _ & _ & _ & _ & _ & _ & _ & _
                 & _ & _ & _ & Ht & everywhere & He & Hcase).
  destruct everywhere as [|x everywhere].
  - destruct (search true target_section_re s) as [section|].
    + exists (group section 1), targets. auto.
    + subst targets. exists s, []. auto.
  - subst targets. exists s, (x :: everywhere). auto.
Qed.

(** X13.  No number of a parsed signal is negative: the patterns have
    no sign, and [float] of digits and dots is not negative.  This holds
    for the two ends of the first-buy range, the second-buy price, the
    CMP, the stop loss and every target, whatever the Unicode tables. *)
Theorem parsed_numbers_nonnegative s sig :
  parse_message s = Some sig ->
  0 <= fst (TradingSignal.first_buy_range sig)
  /\ 0 <= snd (TradingSignal.first_buy_range sig)
  /\ 0 <= TradingSignal.second_buy sig
  /\ 0 <= TradingSignal.cmp sig
  /\ 0 <= TradingSignal.stop_loss sig
  /\ Forall (fun t => 0 <= t) (TradingSignal.targets sig).
Proof.
  intros H. pose proof (parsed_targets s sig H) as (text & targets & Hf & Ht).
  apply parse_message_inv in H.
  destruct H as (m1 & m2 & m3 & m4 & m5 & targets' & _ & _ & _ & _ & _ & _ & F1 & F2
                 & F3 & F4 & F5 & _).
  repeat (split; [eapply float_nonneg; eassumption|]).
  rewrite Ht. apply sorted_Forall.
  eapply floats_Forall; [|exact Hf]. intros t x _. apply float_nonneg.
Qed.









(** X15.  A malformed number makes the whole message unparseable.  When
    the text matched by the number group of a price field (either end of
    the first-buy range, the second-buy price, the CMP or the stop loss)
    does not convert with [float], as "0.2.9" or "." do not,
    [parse_message] returns [None]: the [ValueError] is caught, and no
    signal with a truncated or defaulted price is made. *)
Theorem malformed_number_rejects_message s m e :
  (search true first_buy_re s = Some m
   /\ (float (group m 1) = Raise e \/ float (group m 2) = Raise e))
  \/ (search true second_buy_re s = Some m /\ float (group m 1) = Raise e)
  \/ (search true cmp_re s = Some m /\ float (group m 1) = Raise e)
  \/ (search true sl_re s = Some m /\ float (group m 1) = Raise e) ->
  parse_message s = None.
Proof.
  intros H. destruct (parse_message s) as [sig|] eqn:Hp; [|reflexivity].
  exfalso. apply parse_message_inv in Hp.
  destruct Hp as (m1 & m2 & m3 & m4 & m5 & targets & _ & H2 & H3 & H4 & H5 & _ & F1 & F2
                  & F3 & F4 & F5 & _).
  destruct H as [(Hs & [Hf|Hf])|[(Hs & Hf)|[(Hs & Hf)|(Hs & Hf)]]];
    rewrite Hs in *; congruence.
Qed.

(** Two dots are one way not to convert. *)
Lemma float_from_two_dots a b c num den seen_dot seen_digit :
  float_from (a ++ 46%N :: b ++ 46%N :: c) num den seen_dot seen_digit = Raise ValueError.
Proof.
  assert (Hb : forall b num den seen_digit,
            float_from (b ++ 46%N :: c) num den true seen_digit = Raise ValueError).
  { induction b0 as [|ch b0 IH]; intros num0 den0 dig0; simpl; [reflexivity|].
    destruct (N.eqb ch 46); [reflexivity|]. destruct (decimal ch); [apply IH | reflexivity]. }
  revert num den seen_dot seen_digit.
  induction a as [|ch a IH]; intros num den seen_dot seen_digit; simpl.
  - destruct seen_dot; [reflexivity | apply Hb].
  - destruct (N.eqb ch 46).
    + destruct seen_dot; [reflexivity | apply IH].
    + destruct (decimal ch); [apply IH | reflexivity].
Qed.

End Numbers.

(* ================================================================== *)
(** * The message handler *)
(* ================================================================== *)

Section Handler.
Context {U : Unicode}.
Import re relang SignalParser.

(** A text that parses passes the pre-filter. *)
Lemma parse_message_is_signal_message s sig :
  parse_message s = Some sig -> is_signal_message s = true.
Proof.
  intros H. apply parse_message_inv in H.
  destruct H as (m1 & m2 & m3 & m4 & m5 & targets & H1 & H2 & _ & _ & H5 & _).
  unfold is_signal_message.
  destruct (search_part true [] symbol_re []
              [One [CChar (chr "$")];
               Plus [CRange (chr "A") (chr "Z"); CRange (chr "0") (chr "9")]]
              s m1 eq_refl H1) as [x1 ->].
  destruct (search_part true (lit "first" ++ [Plus [CSpace]]) (lit "buying")
              [Plus [CChar (chr ":"); CSpace]; Group number_chars;
               Plus [CSpace; CChar en_dash; CChar (chr "-")]; Group number_chars]
              (lit "buying") s m2 eq_refl H2) as [x2 ->].
  destruct (search_part true [] sl_re []
              (lit "sl" ++ [Plus [CChar (chr ":"); CSpace]; Plus number_chars])
              s m5 eq_refl H5) as [x5 ->].
  simpl. apply orb_true_r.
Qed.

Lemma bot_eta (self : bot.t) ex :
  bot.trade_executor self = Some ex ->
  {| bot.user := bot.user self;
     bot.DISCORD_CHANNEL_ID := bot.DISCORD_CHANNEL_ID self;
     bot.trade_executor := Some ex |} = self.
Proof. destruct self. simpl. intros ->. reflexivity. Qed.

(** The ways through [on_message]. *)
Lemma on_message_inv cfg send_ok self message tr out self' :
  runs (bot.on_message cfg send_ok self message) tr (out, self') ->
  (tr = [] /\ out = [] /\ self' = self
   /\ (bot.author message = bot.user self
       \/ bot.channel_id message <> bot.DISCORD_CHANNEL_ID self
       \/ is_signal_message (bot.content message) = false))
  \/ (bot.author message <> bot.user self
      /\ bot.channel_id message = bot.DISCORD_CHANNEL_ID self
      /\ is_signal_message (bot.content message) = true
      /\ ((parse_message (bot.content message) = None
           /\ tr = [] /\ out = [bot.CouldNotParse] /\ self' = self)
          \/ exists signal,
               parse_message (bot.content message) = Some signal
               /\ ((send_ok (bot.SignalDetected signal) = false
                    /\ tr = [] /\ out = [bot.SignalDetected signal] /\ self' = self)
                   \/ (send_ok (bot.SignalDetected signal) = true
                       /\ bot.trade_executor self = None
                       /\ tr = [] /\ out = [bot.SignalDetected signal; bot.NotConnected]
                       /\ self' = self)
                   \/ exists ex b ex',
                        send_ok (bot.SignalDetected signal) = true
                        /\ bot.trade_executor self = Some ex
                        /\ runs (TradeExecutor.execute_signal cfg ex signal) tr (b, ex')
                        /\ out = [bot.SignalDetected signal;
                                  if b then bot.ExecutionInitiated (TradingSignal.symbol signal)
                                  else bot.ExecutionFailed (TradingSignal.symbol signal)]
                        /\ self' = {| bot.user := bot.user self;
                                      bot.DISCORD_CHANNEL_ID := bot.DISCORD_CHANNEL_ID self;
                                      bot.trade_executor := Some ex' |}))).
Proof.
  unfold bot.on_message. intros H.
  destruct (decide (bot.author message = bot.user self)) as [Ha|Ha].
  { inv_runs. left. repeat (split; [reflexivity|]). tauto. }
  destruct (decide (bot.channel_id message <> bot.DISCORD_CHANNEL_ID self)) as [Hc|Hc].
  { inv_runs. left. repeat (split; [reflexivity|]). tauto. }
  assert (Hc' : bot.channel_id message = bot.DISCORD_CHANNEL_ID self).
  { destruct (Z.eq_dec (bot.channel_id message) (bot.DISCORD_CHANNEL_ID self)); tauto. }
  destruct (is_signal_message (bot.content message)) eqn:Hsig; simpl in H.
  2:{ inv_runs. left. repeat (split; [reflexivity|]). tauto. }
  right. split; [exact Ha|]. split; [exact Hc'|]. split; [reflexivity|].
  destruct (parse_message (bot.content message)) as [signal|].
  2:{ inv_runs. left. repeat split; reflexivity. }
  right. exists signal. split; [reflexivity|].
  destruct (send_ok (bot.SignalDetected signal)) eqn:Hok; simpl in H.
  2:{ inv_runs. left. repeat split; reflexivity. }
  right.
  destruct (bot.trade_executor self) as [ex|].
  2:{ inv_runs. left. repeat split; reflexivity. }
  right. apply runs_bind_inv in H.
  destruct H as (tr1 & [b ex'] & tr2 & H1 & H2 & ->). simpl in H2. inv_runs.
  rewrite app_nil_r. exists ex, b, ex'. repeat split; [exact H1].
Qed.

(** X16.  The verdict [on_message] sends is true to what the handler
    did, no other handler or command touching the executor while it
    runs.  It passes "Trade execution initiated" to [send] exactly when
    it has changed the bot's state; the change is then one new trade in
    the ledger the handler started on, under the symbol the message
    parsed to and named in the verdict, a symbol that had no trade when
    the handler started, holding the parsed signal, after a first buy
    the exchange accepted.  In every other case the state after the
    handler is the state before it.  (Handlers that overlap are not
    covered: [on_message] awaits [execute_signal], which awaits the
    exchange between its check and its store, so two overlapping handlers
    for one symbol can both send "initiated", the second store replacing
    the first trade.) *)
Theorem on_message_verdict cfg send_ok self message tr out self' :
  runs (bot.on_message cfg send_ok self message) tr (out, self') ->
  ((exists symbol, In (bot.ExecutionInitiated symbol) out) <-> self' <> self)
  /\ forall symbol,
       In (bot.ExecutionInitiated symbol) out ->
       exists signal ex ex' t,
         parse_message (bot.content message) = Some signal
         /\ symbol = TradingSignal.symbol signal
         /\ bot.trade_executor self = Some ex
         /\ bot.trade_executor self' = Some ex'
         /\ TradeExecutor.active_trades ex !! symbol = None
         /\ TradeExecutor.active_trades ex'
            = <[ symbol := t ]> (TradeExecutor.active_trades ex)
         /\ Trade.signal t = signal
         /\ first_buy_filled tr = true.
Proof.
  intros Hr. apply on_message_inv in Hr.
  assert (Hno : forall l : list bot.sent,
            (forall symbol, ~ In (bot.ExecutionInitiated symbol) l) ->
            self' = self ->
            ((exists symbol, In (bot.ExecutionInitiated symbol) l) <-> self' <> self)
            /\ forall symbol, In (bot.ExecutionInitiated symbol) l ->
                 exists signal ex ex' t,
                   parse_message (bot.content message) = Some signal
                   /\ symbol = TradingSignal.symbol signal
                   /\ bot.trade_executor self = Some ex
                   /\ bot.trade_executor self' = Some ex'
                   /\ TradeExecutor.active_trades ex !! symbol = None
                   /\ TradeExecutor.active_trades ex'
                      = <[ symbol := t ]> (TradeExecutor.active_trades ex)
                   /\ Trade.signal t = signal
                   /\ first_buy_filled tr = true).
  { intros l Hl Heq. split.
    - split; [intros (symbol & Hin); exfalso; exact (Hl symbol Hin) | contradiction].
    - intros symbol Hin. exfalso. exact (Hl symbol Hin). }
  destruct Hr as [(_ & -> & -> & _)|(_ & _ & _ & [(_ & _ & -> & ->)|(signal & Hp & Hcase)])].
  { apply Hno; [intros symbol []|reflexivity]. }
  { apply Hno; [intros symbol [E|[]]; discriminate E|reflexivity]. }
  destruct Hcase as [(_ & _ & -> & ->)|[(_ & _ & _ & -> & ->)
                                       |(ex & b & ex' & _ & Hex & Hrun & -> & ->)]].
  { apply Hno; [intros symbol [E|[]]; discriminate E|reflexivity]. }
  { apply Hno; [intros symbol [E|[E|[]]]; discriminate E|reflexivity]. }
  destruct b.
  2:{ apply execute_signal_false_inv in Hrun. destruct Hrun as [-> _].
      apply Hno; [intros symbol [E|[E|[]]]; discriminate E|].
      apply bot_eta. exact Hex. }
  pose proof (execute_signal_commit _ _ _ _ _ Hrun) as [[E|(Hfilled & _)] _];
    [discriminate E|].
  apply execute_signal_result in Hrun.
  destruct Hrun as [E|(Hnone & r_bal & r_mk & o1 & o2 & sl & tps & E)];
    [discriminate E|]. injection E as ->.
  split.
  - split; [|intros _; eexists; right; left; reflexivity].
    intros _ Heq. apply (f_equal bot.trade_executor) in Heq. simpl in Heq.
    rewrite Hex in Heq. injection Heq as Heq.
    apply (f_equal (fun e => TradeExecutor.active_trades e !! TradingSignal.symbol signal))
      in Heq.
    simpl in Heq. rewrite lookup_insert_eq, Hnone in Heq. discriminate.
  - intros symbol [E|[E|[]]]; [discriminate E|]. injection E as <-.
    eexists signal, ex, _, _. split; [exact Hp|]. split; [reflexivity|].
    split; [exact Hex|]. split; [reflexivity|]. split; [exact Hnone|].
    split; [reflexivity|]. split; [reflexivity | exact Hfilled].
Qed.

(** X17.  [on_message] keeps away from the exchange unless everything
    is in place.  A message written by the bot itself, or in another
    channel than the configured one, or not looking like a signal, gets
    no answer and causes no call.  Whenever the exchange is called, the
    message is from someone else in the configured channel, it parsed to
    a signal, the embed announcing the signal was sent, an executor is
    connected that has no trade under the signal's symbol, and the calls
    are those of one execution of [execute_signal] for that signal. *)
Theorem on_message_exchange_calls cfg send_ok self message tr out self' :
  runs (bot.on_message cfg send_ok self message) tr (out, self') ->
  (bot.author message = bot.user self
   \/ bot.channel_id message <> bot.DISCORD_CHANNEL_ID self
   \/ is_signal_message (bot.content message) = false ->
   tr = [] /\ out = [] /\ self' = self)
  /\ (tr <> [] ->
      bot.author message <> bot.user self
      /\ bot.channel_id message = bot.DISCORD_CHANNEL_ID self
      /\ exists signal ex,
           parse_message (bot.content message) = Some signal
           /\ send_ok (bot.SignalDetected signal) = true
           /\ bot.trade_executor self = Some ex
           /\ TradeExecutor.active_trades ex !! TradingSignal.symbol signal = None
           /\ exists res, runs (TradeExecutor.execute_signal cfg ex signal) tr res).
Proof.
  intros Hr. apply on_message_inv in Hr. split.
  - intros Hskip.
    destruct Hr as [(-> & -> & -> & _)|(Ha & Hc & Hsig & _)]; [auto|].
    exfalso. destruct Hskip as [E|[E|E]]; [contradiction | contradiction | congruence].
  - intros Hne.
    destruct Hr as [(-> & _)|(Ha & Hc & _ & [(_ & -> & _)|(signal & Hp & Hcase)])];
      try contradiction.
    destruct Hcase as [(_ & -> & _)|[(_ & _ & -> & _)|(ex & b & ex' & Hok & Hex & Hrun & _)]];
      try contradiction.
    split; [exact Ha|]. split; [exact Hc|]. exists signal, ex.
    split; [exact Hp|]. split; [exact Hok|]. split; [exact Hex|]. split.
    { destruct (TradeExecutor.active_trades ex !! TradingSignal.symbol signal) eqn:E;
        [|reflexivity].
      exfalso. rewrite (execute_signal_duplicate cfg ex signal) in Hrun by eauto.
      inv_runs. contradiction. }
    eauto.
Qed.

(** X18.  Every message that parses is answered.  For a message from
    someone else in the configured channel whose text [parse_message]
    turns into a signal, the pre-filter never stands in the way:
    [on_message] sends the embed of that signal first; if that send
    raises nothing else happens, otherwise exactly one verdict follows
    (initiated, failed, or exchange not connected).  "Could not parse" is
    sent only, and then alone, for a text that passes the pre-filter and
    does not parse. *)
Theorem on_message_answers_parsed cfg send_ok self message tr out self' :
  runs (bot.on_message cfg send_ok self message) tr (out, self') ->
  (forall signal,
     bot.author message <> bot.user self ->
     bot.channel_id message = bot.DISCORD_CHANNEL_ID self ->
     parse_message (bot.content message) = Some signal ->
     if send_ok (bot.SignalDetected signal) then
       exists verdict,
         out = [bot.SignalDetected signal; verdict]
         /\ (verdict = bot.ExecutionInitiated (TradingSignal.symbol signal)
             \/ verdict = bot.ExecutionFailed (TradingSignal.symbol signal)
             \/ verdict = bot.NotConnected)
     else out = [bot.SignalDetected signal] /\ tr = [] /\ self' = self)
  /\ (In bot.CouldNotParse out ->
      out = [bot.CouldNotParse] /\ tr = []
      /\ is_signal_message (bot.content message) = true
      /\ parse_message (bot.content message) = None).
Proof.
  intros Hr. apply on_message_inv in Hr. split.
  - intros signal Ha Hc Hp.
    pose proof (parse_message_is_signal_message _ _ Hp) as Hsig.
    destruct Hr as [(_ & _ & _ & [E|[E|E]])|(_ & _ & _ & [(E & _)|(signal' & Hp' & Hcase)])];
      try contradiction; try congruence.
    rewrite Hp in Hp'. injection Hp' as <-.
    destruct Hcase as [(-> & -> & -> & ->)|[(-> & _ & _ & -> & _)
                                           |(ex & b & ex' & -> & _ & _ & -> & _)]].
    + auto.
    + eexists. split; [reflexivity|]. auto.
    + eexists. split; [reflexivity|]. destruct b; auto.
  - intros Hin.
    destruct Hr as [(_ & -> & _)|(_ & _ & Hsig & [(Hp & -> & -> & _)|(signal & _ & Hcase)])].
    + destruct Hin.
    + auto.
    + exfalso.
      destruct Hcase as [(_ & _ & -> & _)|[(_ & _ & _ & -> & _)
                                          |(ex & b & ex' & _ & _ & _ & -> & _)]].
      * destruct Hin as [E|[]]. discriminate E.
      * destruct Hin as [E|[E|[]]]; discriminate E.
      * destruct Hin as [E|[E|[]]]; [discriminate E|]. destruct b; discriminate E.
Qed.

(** Handling messages keeps the bot's identity and channel, and every
    symbol that has a trade keeps having one. *)
Lemma handled_later_keeps cfg self self' :
  handled_later cfg self self' ->
  bot.user self' = bot.user self
  /\ bot.DISCORD_CHANNEL_ID self' = bot.DISCORD_CHANNEL_ID self
  /\ forall ex symbol,
       bot.trade_executor self = Some ex ->
       is_Some (TradeExecutor.active_trades ex !! symbol) ->
       exists ex', bot.trade_executor self' = Some ex'
                   /\ is_Some (TradeExecutor.active_trades ex' !! symbol).
Proof.
  induction 1 as [self|self self1 send_ok message tr out self2 _ (IHu & IHc & IHt) Hr].
  { split; [reflexivity|]. split; [reflexivity|]. eauto. }
  assert (Hstep : bot.user self2 = bot.user self1
                  /\ bot.DISCORD_CHANNEL_ID self2 = bot.DISCORD_CHANNEL_ID self1
                  /\ forall ex1 symbol,
                       bot.trade_executor self1 = Some ex1 ->
                       is_Some (TradeExecutor.active_trades ex1 !! symbol) ->
                       exists ex2, bot.trade_executor self2 = Some ex2
                                   /\ is_Some (TradeExecutor.active_trades ex2 !! symbol)).
  { apply on_message_inv in Hr.
    destruct Hr as [(_ & _ & -> & _)|(_ & _ & _ & [(_ & _ & _ & ->)|(signal & _ & Hcase)])];
      [split; [reflexivity|]; split; [reflexivity|]; eauto ..|].
    destruct Hcase as [(_ & _ & _ & ->)|[(_ & _ & _ & _ & ->)
                                        |(ex & b & ex' & _ & Hex & Hrun & _ & ->)]];
      [split; [reflexivity|]; split; [reflexivity|]; eauto ..|].
    split; [reflexivity|]. split; [reflexivity|]. simpl.
    intros ex1 symbol Hex1 Hsome. rewrite Hex in Hex1. injection Hex1 as <-.
    exists ex'. split; [reflexivity|].
    apply execute_signal_result in Hrun.
    destruct Hrun as [E|(Hnone & r_bal & r_mk & o1 & o2 & sl & tps & E)];
      injection E as _ ->; [exact Hsome|]. simpl.
    destruct (decide (symbol = TradingSignal.symbol signal)) as [->|Hne].
    - rewrite lookup_insert_eq. eauto.
    - rewrite lookup_insert_ne by congruence. exact Hsome. }
  destruct Hstep as (Hu & Hc & Ht).
  split; [congruence|]. split; [congruence|].
  intros ex symbol Hex Hsome.
  destruct (IHt ex symbol Hex Hsome) as (ex1 & Hex1 & Hsome1). eauto.
Qed.

(** X19.  A signal repeated in the channel is not traded twice, as long
    as the handlers run one after the other and the bot keeps its
    executor.  Once [on_message] has answered a message with "Trade
    execution initiated" for a symbol, then after any number of further
    messages, each handled to its end before the next, a message in the
    channel that parses to a signal for that symbol gets the embed and
    then "Failed to execute trade", without a single call to the exchange
    and without a change of state.  (Not covered: a handler that starts
    while another is still awaiting the exchange, which can pass the check
    of line 48 for the same symbol; [on_ready] running again, which
    replaces the executor by one with an empty ledger; and [remove_trade],
    which nothing in the repository calls.) *)
Theorem on_message_repeated_signal cfg send_ok self message tr out self' symbol
    self'' send_ok' message' signal' :
  runs (bot.on_message cfg send_ok self message) tr (out, self') ->
  In (bot.ExecutionInitiated symbol) out ->
  handled_later cfg self' self'' ->
  bot.author message' <> bot.user self ->
  bot.channel_id message' = bot.DISCORD_CHANNEL_ID self ->
  parse_message (bot.content message') = Some signal' ->
  TradingSignal.symbol signal' = symbol ->
  bot.on_message cfg send_ok' self'' message'
  = Ret (bot.SignalDetected signal'
         :: (if send_ok' (bot.SignalDetected signal')
             then [bot.ExecutionFailed symbol] else []),
         self'').
Proof.
  intros Hr Hin Hlater Ha Hc Hp Hsym. apply on_message_inv in Hr.
  destruct Hr as [(_ & -> & _)|(_ & _ & _ & [(_ & _ & -> & _)|(signal & _ & Hcase)])].
  { destruct Hin. }
  { destruct Hin as [E|[]]. discriminate E. }
  destruct Hcase as [(_ & _ & -> & _)|[(_ & _ & _ & -> & _)
                                      |(ex & b & ex' & _ & Hex & Hrun & -> & ->)]].
  { destruct Hin as [E|[]]. discriminate E. }
  { destruct Hin as [E|[E|[]]]; discriminate E. }
  destruct Hin as [E|[E|[]]]; [discriminate E|].
  destruct b; [|discriminate E]. injection E as E.
  apply handled_later_keeps in Hlater. simpl in Hlater.
  destruct Hlater as (Hu & Hch & Hkeep).
  destruct (Hkeep ex' symbol eq_refl) as (ex'' & Hex'' & Hsome).
  { apply execute_signal_result in Hrun.
    destruct Hrun as [E'|(_ & r_bal & r_mk & o1 & o2 & sl & tps & E')];
      [discriminate E'|]. injection E' as ->.
    simpl. rewrite <- E, lookup_insert_eq. eauto. }
  rewrite <- Hu in Ha. rewrite <- Hch in Hc.
  unfold bot.on_message. rewrite Hex''.
  destruct (decide (bot.author message' = bot.user self'')) as [|_]; [contradiction|].
  destruct (decide (bot.channel_id message' <> bot.DISCORD_CHANNEL_ID self'')) as [|_];
    [contradiction|].
  rewrite (parse_message_is_signal_message _ _ Hp), Hp. simpl.
  destruct (send_ok' (bot.SignalDetected signal')); simpl; [|reflexivity].
  rewrite (execute_signal_duplicate cfg ex'' signal') by (rewrite Hsym; exact Hsome).
  simpl. rewrite Hsym.
  rewrite (bot_eta self'' ex'' Hex''). reflexivity.
Qed.

End Handler.

(* ================================================================== *)
(** * Snapshots and later trades *)
(* ================================================================== *)

Section Later.
Import Objects.

Lemma items_dicts h d m : dicts h !! d = Some m -> items h d = m.
Proof. intros H. unfold items. rewrite H. reflexivity. Qed.

(** X20.  A snapshot does not follow the ledger.  On a heap where
    every stored reference leads to a trade dict, take the dict
    [get_active_trades] returns and let [execute_signal] then store a new
    trade: read through the executor's dict the new trade is there, read
    through the snapshot everything is as when it was taken, the new
    trade missing.  The heap stays one where every reference leads to a
    trade dict. *)
Theorem snapshot_misses_later_store h self k t :
  well_formed h ->
  is_Some (dicts h !! active_trades self) ->
  let d := fst (get_active_trades h self) in
  let h' := snd (get_active_trades h self) in
  well_formed h'
  /\ well_formed (store h' self k t)
  /\ contents (store h' self k t) (active_trades self)
     = <[ k := t ]> (contents h (active_trades self))
  /\ contents (store h' self k t) d = contents h (active_trades self).
Proof.
  intros Hwf [m Hm]. cbv zeta. unfold get_active_trades, dict_copy. simpl.
  set (d := fresh (dom (dicts h))).
  assert (Hfresh : dicts h !! d = None) by (apply not_elem_of_dom, is_fresh).
  assert (Hne : d <> active_trades self) by (intros E; rewrite E, Hm in Hfresh; discriminate).
  pose proof (items_dicts _ _ _ Hm) as Hitems.
  set (h' := {| dicts := <[ d := items h (active_trades self) ]> (dicts h);
                trades := trades h |}).
  assert (Hwf' : well_formed h').
  { intros d0 m0 k0 r0 Hd0 Hk0. simpl in *.
    destruct (decide (d = d0)) as [<-|Hd].
    - rewrite lookup_insert_eq in Hd0. injection Hd0 as <-.
      rewrite Hitems in Hk0. exact (Hwf _ _ _ _ Hm Hk0).
    - rewrite lookup_insert_ne in Hd0 by exact Hd. exact (Hwf _ _ _ _ Hd0 Hk0). }
  assert (Hm' : dicts h' !! active_trades self = Some m).
  { simpl. rewrite lookup_insert_ne by exact Hne. exact Hm. }
  assert (Hcont : contents h' (active_trades self) = contents h (active_trades self)).
  { unfold contents, items. simpl. rewrite lookup_insert_ne by exact Hne. reflexivity. }
  split; [exact Hwf'|]. split.
  { intros d0 m0 k0 r0 Hd0 Hk0. unfold store in *. simpl in *.
    set (r := fresh (dom (trades h))) in *.
    destruct (decide (active_trades self = d0)) as [<-|Hd].
    - rewrite lookup_insert_eq in Hd0. injection Hd0 as <-.
      destruct (decide (k = k0)) as [<-|Hk].
      + rewrite lookup_insert_eq in Hk0. injection Hk0 as <-.
        rewrite lookup_insert_eq. eauto.
      + rewrite lookup_insert_ne in Hk0 by exact Hk.
        rewrite (items_dicts h' _ m Hm') in Hk0.
        destruct (Hwf _ _ _ _ Hm Hk0) as [x Hx].
        destruct (decide (r = r0)) as [<-|Hr];
          [rewrite lookup_insert_eq | rewrite lookup_insert_ne by exact Hr]; eauto.
    - rewrite lookup_insert_ne in Hd0 by exact Hd.
      destruct (Hwf' _ _ _ _ Hd0 Hk0) as [x Hx]. simpl in Hx.
      destruct (decide (r = r0)) as [<-|Hr];
        [rewrite lookup_insert_eq | rewrite lookup_insert_ne by exact Hr]; eauto. }
  split.
  { rewrite <- Hcont. apply store_contents; [exact Hwf'|]. eauto. }
  assert (Hd : items (store h' self k t) d = m).
  { unfold store, items. simpl.
    rewrite (lookup_insert_ne _ (active_trades self) d)
      by (intros E; apply Hne; symmetry; exact E).
    rewrite lookup_insert_eq. simpl. exact Hitems. }
  unfold contents. rewrite Hd, Hitems.
  apply map_eq. intros k0. rewrite !lookup_omap.
  destruct (m !! k0) as [r0|] eqn:Hr0; simpl; [|reflexivity].
  apply lookup_insert_ne. intros <-.
  destruct (Hwf _ _ _ _ Hm Hr0) as [x Hx].
  apply elem_of_dom_2 in Hx. exact (is_fresh _ Hx).
Qed.

End Later.

(* ================================================================== *)
(** * The pre-filter on longer texts *)
(* ================================================================== *)

Section Prefilter.
Context {U : Unicode}.
Import re relang SignalParser.

(** A pattern found in a text is found in every text around it. *)
Lemma found_search_around ic r s pre post :
  found (search ic r s) = true -> found (search ic r (pre ++ s ++ post)) = true.
Proof.
  destruct (search ic r s) as [gs|] eqn:H; [|discriminate]. intros _.
  apply search_sound in H. destruct H as (p & u & q & -> & Hu).
  replace (pre ++ (p ++ u ++ q) ++ post) with ((pre ++ p) ++ u ++ (q ++ post))
    by (rewrite <- !app_assoc; reflexivity).
  destruct (search_complete ic r (pre ++ p) u (q ++ post) Hu) as [x ->]. reflexivity.
Qed.

(** X21.  The pre-filter looks for its indicators anywhere in the
    text, so it is monotone: a text that [is_signal_message] accepts is
    still accepted with any text put before and after it (a signal that
    is quoted, forwarded or commented on still looks like a signal). *)
Theorem is_signal_message_around s pre post :
  is_signal_message s = true -> is_signal_message (pre ++ s ++ post) = true.
Proof.
  unfold is_signal_message. cbv zeta. intros H.
  apply andb_true_iff in H. destruct H as [H Hany].
  apply andb_true_iff in H. destruct H as [Hsym Hbuy].
  apply andb_true_iff. split.
  { apply andb_true_iff. split; apply found_search_around; assumption. }
  apply orb_true_iff in Hany. destruct Hany as [Hany|Hsl].
  - apply orb_true_iff in Hany. apply orb_true_iff. left. apply orb_true_iff.
    destruct Hany as [Hcmp|Htar]; [left | right]; apply found_search_around; assumption.
  - apply orb_true_iff. right. apply found_search_around. assumption.
Qed.

End Prefilter.

(* ================================================================== *)
(** * The minimum order size *)
(* ================================================================== *)

(** X22.  No buy is placed below the minimum that [get_min_order_size]
    answered (0.001 when the exchange gave none): the first buy is raised
    to it, the second is left out when it is smaller.  The sell orders
    are not held to it. *)
Theorem buys_respect_minimum cfg self signal r_bal r_mk tr' res :
  runs (TradeExecutor.execute_signal cfg self signal)
    (EvFetchBalance r_bal :: EvLoadMarkets r_mk :: tr') res ->
  Forall (fun e => is_buy e = true ->
                   ExchangeConnector.amount_min r_mk
                     (TradingSignal.symbol signal ++ str "/" ++ config.DEFAULT_QUOTE_ASSET cfg)
                   <= order_amount e) tr'.
Proof.
  intros Hr. apply execute_signal_exits, exit_after_markets in Hr. cbv zeta in Hr.
  destruct Hr as (_ & _ & _ & r1 & tr'' & -> & Hcase).
  constructor.
  { intros _. simpl. apply first_buy_amount_min. }
  assert (Hbuys : forall e, In e tr'' -> is_buy e = true ->
            In e (List.filter is_buy tr'')) by (intros e Hin Hb; apply filter_In; auto).
  destruct r1 as [first_order|]; [|destruct Hcase as [-> _]; constructor].
  destruct Hcase as [(_ & -> & _)|(_ & o2 & sl & tps & _ & Hf & _ & _)]; [constructor|].
  apply List.Forall_forall. intros e Hin Hb. specialize (Hbuys e Hin Hb).
  rewrite Hf in Hbuys. destruct (py_ge _ _) eqn:Hge; [|destruct Hbuys].
  destruct Hbuys as [<-|[]]. simpl. apply py_ge_true in Hge. exact Hge.
Qed.

(* ================================================================== *)
(** * The current market price *)
(* ================================================================== *)

(** X23.  The CMP of a signal plays no part in its execution.
    [execute_signal] never reads it: with any other CMP the same calls,
    answered the same way, are an execution too, with the same returned
    flag; the ledgers after the two differ at most in the trade stored
    under the signal's symbol (which holds the signal, CMP included). *)
Theorem cmp_is_not_used cfg self signal cmp tr b self' :
  runs (TradeExecutor.execute_signal cfg self signal) tr (b, self') ->
  exists self'',
    runs (TradeExecutor.execute_signal cfg self (with_cmp signal cmp)) tr (b, self'')
    /\ forall k, k <> TradingSignal.symbol signal ->
         TradeExecutor.active_trades self'' !! k = TradeExecutor.active_trades self' !! k.
Proof.
  intros Hr. apply execute_signal_exits in Hr.
  inversion Hr as [Hdup|r_bal Hnone balance Hbal|r_bal Hnone balance Hbal Hp1
                  |r_bal r_mk Hnone ex balance min_order_size Hbal Hp1
                  |r_bal r_mk first_order Hnone ex balance min_order_size Hbal Hp1 Hp2
                  |r_bal r_mk first_order tr_second second_order tr_stop
                     stop_loss_order tr_targets take_profit_orders Hnone ex symbol
                     balance min_order_size a2 total avg Hbal Hp1 Hp2 Hsecond Hstop Htargets];
    subst.
  - eexists. split; [|reflexivity]. apply exits_execute_signal.
    apply exit_duplicate. exact Hdup.
  - eexists. split; [|reflexivity]. apply exits_execute_signal.
    apply exit_balance; assumption.
  - eexists. split; [|reflexivity]. apply exits_execute_signal.
    apply exit_first_price_zero; assumption.
  - eexists. split; [|reflexivity]. apply exits_execute_signal.
    exact (exit_first_buy_failed cfg _ (with_cmp signal cmp) r_bal r_mk Hnone Hbal Hp1).
  - eexists. split; [|reflexivity]. apply exits_execute_signal.
    exact (exit_second_price_zero cfg _ (with_cmp signal cmp) r_bal r_mk first_order
             Hnone Hbal Hp1 Hp2).
  - eexists. split.
    + apply exits_execute_signal.
      exact (exit_recorded cfg self (with_cmp signal cmp) r_bal r_mk first_order
               tr_second second_order tr_stop stop_loss_order tr_targets
               take_profit_orders Hnone Hbal Hp1 Hp2 Hsecond Hstop Htargets).
    + intros k Hk. simpl. rewrite !lookup_insert_ne by congruence. reflexivity.
Qed.

(* ================================================================== *)
(** * The further properties on concrete executions *)
(* ================================================================== *)

Lemma execute_signal_ledger_witness :
  let self := Examples.fresh_executor in
  let signal := Examples.lsk_signal in
  let self' := snd (Examples.result_of Examples.run_a) in
  TradeExecutor.exchange self' = TradeExecutor.exchange self
  /\ (forall k, k <> TradingSignal.symbol signal ->
      TradeExecutor.active_trades self' !! k = TradeExecutor.active_trades self !! k)
  /\ TradeExecutor.active_trades self ⊆ TradeExecutor.active_trades self'
  /\ (true = false -> self' = self)
  /\ (true = true ->
      TradeExecutor.active_trades self !! TradingSignal.symbol signal = None
      /\ exists t,
           TradeExecutor.active_trades self'
           = <[ TradingSignal.symbol signal := t ]> (TradeExecutor.active_trades self)
           /\ Trade.signal t = signal
           /\ Trade.base_symbol t = TradingSignal.symbol signal)
  /\ (forall other,
      TradeExecutor.exchange other = TradeExecutor.exchange self ->
      TradeExecutor.active_trades self !! TradingSignal.symbol signal = None ->
      TradeExecutor.active_trades other !! TradingSignal.symbol signal = None ->
      runs (TradeExecutor.execute_signal config.default other signal)
        (Examples.trace_of Examples.run_a)
        (true,
         match TradeExecutor.active_trades self' !! TradingSignal.symbol signal with
         | Some t =>
             {| TradeExecutor.exchange := TradeExecutor.exchange other;
                TradeExecutor.active_trades :=
                  <[ TradingSignal.symbol signal := t ]>
                    (TradeExecutor.active_trades other) |}
         | None => other
         end)).
Proof.
  apply (execute_signal_ledger config.default Examples.fresh_executor Examples.lsk_signal
           (Examples.trace_of Examples.run_a) true (snd (Examples.result_of Examples.run_a))).
  apply play_sound with (script := Examples.script_a). vm_compute. reflexivity.
Defined.

Lemma execute_signal_refuses_repeat_witness :
  TradeExecutor.execute_signal config.default (snd (Examples.result_of Examples.run_a))
    Examples.zero_second_signal
  = Ret (false, snd (Examples.result_of Examples.run_a)).
Proof.
  apply (execute_signal_refuses_repeat config.default Examples.fresh_executor
           Examples.lsk_signal (Examples.trace_of Examples.run_a)
           (snd (Examples.result_of Examples.run_a)) config.default
           Examples.zero_second_signal).
  - apply play_sound with (script := Examples.script_a). vm_compute. reflexivity.
  - reflexivity.
Defined.

Lemma remove_trade_undoes_execution_witness :
  let self := Examples.fresh_executor in
  let symbol := TradingSignal.symbol Examples.lsk_signal in
  let self' := snd (Examples.result_of Examples.run_a) in
  TradeExecutor.check_trade_status self' symbol <> None
  /\ TradeExecutor.remove_trade self' symbol = self
  /\ TradeExecutor.check_trade_status (TradeExecutor.remove_trade self' symbol) symbol = None
  /\ forall cfg' signal' tr' res',
       TradingSignal.symbol signal' = symbol ->
       runs (TradeExecutor.execute_signal cfg' (TradeExecutor.remove_trade self' symbol)
               signal') tr' res' ->
       exists r tr'', tr' = EvFetchBalance r :: tr''.
Proof.
  apply (remove_trade_undoes_execution config.default Examples.fresh_executor
           Examples.lsk_signal (Examples.trace_of Examples.run_a)
           (snd (Examples.result_of Examples.run_a))).
  apply play_sound with (script := Examples.script_a). vm_compute. reflexivity.
Defined.

Lemma active_trades_invariant_witness :
  let cfg := config.default in
  let self := snd (Examples.result_of Examples.run_a) in
  TradeExecutor.exchange self = Examples.binance
  /\ forall k t,
       TradeExecutor.active_trades self !! k = Some t ->
       TradingSignal.symbol (Trade.signal t) = k
       /\ Trade.base_symbol t = k
       /\ Trade.symbol t = k ++ str "/" ++ config.DEFAULT_QUOTE_ASSET cfg
       /\ (length (Trade.take_profit_orders t)
           <= length (TradingSignal.targets (Trade.signal t)))%nat
       /\ (config.ENABLE_TAKE_PROFIT cfg = false -> Trade.take_profit_orders t = [])
       /\ (config.ENABLE_STOP_LOSS cfg = false -> Trade.stop_loss_order t = None)
       /\ ~ (fst (TradingSignal.first_buy_range (Trade.signal t))
             + snd (TradingSignal.first_buy_range (Trade.signal t))) / 2 == 0
       /\ ~ TradingSignal.second_buy (Trade.signal t) == 0.
Proof.
  apply (active_trades_invariant config.default Examples.binance
           (snd (Examples.result_of Examples.run_a))).
  apply (reachable_execute_signal config.default Examples.binance Examples.fresh_executor
           Examples.lsk_signal (Examples.trace_of Examples.run_a)
           (Examples.result_of Examples.run_a)).
  - apply reachable_init.
  - apply play_sound with (script := Examples.script_a). vm_compute. reflexivity.
Defined.

Lemma exit_orders_sized_for_position_witness :
  let cfg := config.default in
  let signal := Examples.lsk_signal in
  let tr := Examples.trace_of Examples.run_a in
  let self' := snd (Examples.result_of Examples.run_a) in
  exists t tr_entry tr_stop tr_targets,
    TradeExecutor.active_trades self' !! TradingSignal.symbol signal = Some t
    /\ tr = tr_entry ++ tr_stop ++ tr_targets
    /\ List.filter is_sell tr_entry = []
    /\ Forall (fun e => is_sell e = true /\ order_amount e = Trade.total_amount t) tr_stop
    /\ (config.ENABLE_STOP_LOSS cfg = true -> tr_stop <> [])
    /\ Forall (fun e => is_sell e = true
                        /\ order_amount e
                           = Trade.total_amount t
                             / inject_Z (Z.of_nat (length (TradingSignal.targets signal))))
         tr_targets
    /\ (config.ENABLE_TAKE_PROFIT cfg = true -> TradingSignal.targets signal <> [] ->
        length tr_targets = length (TradingSignal.targets signal)).
Proof.
  apply (exit_orders_sized_for_position config.default Examples.fresh_executor
           Examples.lsk_signal (Examples.trace_of Examples.run_a)
           (snd (Examples.result_of Examples.run_a))).
  apply play_sound with (script := Examples.script_a). vm_compute. reflexivity.
Defined.

Lemma risk_orders_follow_options_witness :
  let cfg := Scenarios.no_risk_orders in
  let signal := Examples.lsk_signal in
  let tr := Examples.trace_of Scenarios.run_no_risk_orders in
  (config.ENABLE_STOP_LOSS cfg = false -> Forall is_limit tr)
  /\ (config.ENABLE_TAKE_PROFIT cfg = false \/ TradingSignal.targets signal = [] ->
      (length (List.filter is_sell tr) <= 2)%nat)
  /\ (config.ENABLE_STOP_LOSS cfg = false ->
      config.ENABLE_TAKE_PROFIT cfg = false \/ TradingSignal.targets signal = [] ->
      List.filter is_sell tr = [] /\ (length tr <= 4)%nat).
Proof.
  apply (risk_orders_follow_options Scenarios.no_risk_orders Examples.fresh_executor
           Examples.lsk_signal (Examples.trace_of Scenarios.run_no_risk_orders)
           (Examples.result_of Scenarios.run_no_risk_orders)).
  apply play_sound
    with (script := [RBalances (Examples.balance_of 1000); RMarkets None;
                     ROrder (Some (Examples.order "1")); ROrder (Some (Examples.order "2"))]).
  vm_compute. reflexivity.
Defined.

Lemma execute_signal_calls_bounded_witness :
  let cfg := config.default in
  let signal := Examples.lsk_signal in
  let tr := Examples.trace_of Examples.run_a in
  (length tr <= 6 + length (TradingSignal.targets signal))%nat
  /\ (length (List.filter is_buy tr) <= 2)%nat
  /\ (fst (Examples.result_of Examples.run_a) = true -> (3 <= length tr)%nat)
  /\ Forall (fun e => is_order e = true ->
                      order_symbol e
                      = Some (TradingSignal.symbol signal ++ str "/"
                              ++ config.DEFAULT_QUOTE_ASSET cfg)) tr.
Proof.
  apply (execute_signal_calls_bounded config.default Examples.fresh_executor
           Examples.lsk_signal (Examples.trace_of Examples.run_a)
           (Examples.result_of Examples.run_a)).
  apply play_sound with (script := Examples.script_a). vm_compute. reflexivity.
Defined.

Lemma zero_first_price_places_no_order_witness :
  Examples.result_of Scenarios.run_zero_range = (false, Examples.fresh_executor)
  /\ (Examples.trace_of Scenarios.run_zero_range = []
      \/ exists r_bal, Examples.trace_of Scenarios.run_zero_range = [EvFetchBalance r_bal]).
Proof.
  apply (zero_first_price_places_no_order config.default Examples.fresh_executor
           Scenarios.zero_range_signal (Examples.trace_of Scenarios.run_zero_range)
           (Examples.result_of Scenarios.run_zero_range)).
  - reflexivity.
  - apply play_sound with (script := [RBalances (Examples.balance_of 1000)]).
    vm_compute. reflexivity.
Defined.

Lemma balance_unavailable_refuses_witness :
  ExchangeConnector.free_balance None (config.DEFAULT_QUOTE_ASSET config.default) = 0
  /\ skipn 1 (Examples.trace_of Scenarios.run_no_balance) = []
  /\ Examples.result_of Scenarios.run_no_balance = (false, Examples.fresh_executor).
Proof.
  apply (balance_unavailable_refuses config.default Examples.fresh_executor
           Examples.lsk_signal None (skipn 1 (Examples.trace_of Scenarios.run_no_balance))
           (Examples.result_of Scenarios.run_no_balance)).
  - intros balance free E. discriminate E.
  - apply play_sound with (script := [RBalances None]). vm_compute. reflexivity.
Defined.

Lemma unlisted_pair_is_traded_witness :
  let cfg := config.default in
  let signal := Examples.lsk_signal in
  let pair := TradingSignal.symbol signal ++ str "/" ++ config.DEFAULT_QUOTE_ASSET cfg in
  let balance :=
    ExchangeConnector.free_balance (Examples.balance_of 1000)
      (config.DEFAULT_QUOTE_ASSET cfg) in
  let position_size :=
    py_min (balance * (config.POSITION_SIZE_PERCENTAGE cfg / 100))
      (config.MAX_POSITION_SIZE cfg) in
  let price :=
    (fst (TradingSignal.first_buy_range signal)
     + snd (TradingSignal.first_buy_range signal)) / 2 in
  exists r1 tr'',
    skipn 2 (Examples.trace_of Examples.run_a)
    = EvCreateLimitOrder pair buy
        (if py_lt (position_size * 0.6 / price) 0.001 then 0.001
         else position_size * 0.6 / price)
        price r1 :: tr''.
Proof.
  apply (unlisted_pair_is_traded config.default Examples.fresh_executor Examples.lsk_signal
           (Examples.balance_of 1000) None (skipn 2 (Examples.trace_of Examples.run_a))
           (Examples.result_of Examples.run_a)).
  - intros mkts m E. discriminate E.
  - apply play_sound with (script := Examples.script_a). vm_compute. reflexivity.
Defined.

Lemma buys_respect_minimum_witness :
  Forall (fun e => is_buy e = true ->
                   ExchangeConnector.amount_min (Examples.markets_of 300)
                     (TradingSignal.symbol Examples.lsk_signal ++ str "/"
                      ++ config.DEFAULT_QUOTE_ASSET config.default)
                   <= order_amount e)
    (skipn 2 (Examples.trace_of Examples.run_b)).
Proof.
  apply (buys_respect_minimum config.default Examples.fresh_executor Examples.lsk_signal
           (Examples.balance_of 1000) (Examples.markets_of 300)
           (skipn 2 (Examples.trace_of Examples.run_b))
           (Examples.result_of Examples.run_b)).
  apply play_sound with (script := Examples.script_b). vm_compute. reflexivity.
Defined.

Lemma parsed_numbers_nonnegative_witness :
  let sig := Examples.lsk_signal in
  0 <= fst (TradingSignal.first_buy_range sig)
  /\ 0 <= snd (TradingSignal.first_buy_range sig)
  /\ 0 <= TradingSignal.second_buy sig
  /\ 0 <= TradingSignal.cmp sig
  /\ 0 <= TradingSignal.stop_loss sig
  /\ Forall (fun t => 0 <= t) (TradingSignal.targets sig).
Proof.
  apply (parsed_numbers_nonnegative (U := ascii_tables) Examples.lsk_text
           Examples.lsk_signal).
  vm_compute. reflexivity.
Defined.



Lemma malformed_number_rejects_message_witness :
  SignalParser.parse_message (U := ascii_tables) Scenarios.two_dots_text = None.
Proof.
  apply (malformed_number_rejects_message (U := ascii_tables) Scenarios.two_dots_text
           [str "0.2.9"] ValueError).
  right. right. left. split; vm_compute; reflexivity.
Defined.

Lemma is_signal_message_around_witness :
  SignalParser.is_signal_message (U := ascii_tables)
    (str "fwd: " ++ Examples.lsk_text ++ str " (what do you think?)") = true.
Proof.
  apply (is_signal_message_around (U := ascii_tables) Examples.lsk_text (str "fwd: ")
           (str " (what do you think?)")).
  vm_compute. reflexivity.
Defined.

Lemma on_message_verdict_witness :
  let self := Scenarios.connected_bot in
  let message := Scenarios.lsk_message in
  let tr := Examples.trace_of Scenarios.handled in
  let out := Scenarios.sent_of Scenarios.handled in
  let self' := Scenarios.bot_of Scenarios.handled in
  ((exists symbol, In (bot.ExecutionInitiated symbol) out) <-> self' <> self)
  /\ forall symbol,
       In (bot.ExecutionInitiated symbol) out ->
       exists signal ex ex' t,
         SignalParser.parse_message (U := ascii_tables) (bot.content message) = Some signal
         /\ symbol = TradingSignal.symbol signal
         /\ bot.trade_executor self = Some ex
         /\ bot.trade_executor self' = Some ex'
         /\ TradeExecutor.active_trades ex !! symbol = None
         /\ TradeExecutor.active_trades ex'
            = <[ symbol := t ]> (TradeExecutor.active_trades ex)
         /\ Trade.signal t = signal
         /\ first_buy_filled tr = true.
Proof.
  apply (on_message_verdict (U := ascii_tables) config.default Scenarios.all_sent
           Scenarios.connected_bot Scenarios.lsk_message
           (Examples.trace_of Scenarios.handled) (Scenarios.sent_of Scenarios.handled)
           (Scenarios.bot_of Scenarios.handled)).
  apply play_sound with (script := Examples.script_a). vm_compute. reflexivity.
Defined.

Lemma on_message_exchange_calls_witness :
  let cfg := config.default in
  let self := Scenarios.connected_bot in
  let message := Scenarios.lsk_message in
  let tr := Examples.trace_of Scenarios.handled in
  (bot.author message = bot.user self
   \/ bot.channel_id message <> bot.DISCORD_CHANNEL_ID self
   \/ SignalParser.is_signal_message (U := ascii_tables) (bot.content message) = false ->
   tr = [] /\ Scenarios.sent_of Scenarios.handled = []
   /\ Scenarios.bot_of Scenarios.handled = self)
  /\ (tr <> [] ->
      bot.author message <> bot.user self
      /\ bot.channel_id message = bot.DISCORD_CHANNEL_ID self
      /\ exists signal ex,
           SignalParser.parse_message (U := ascii_tables) (bot.content message) = Some signal
           /\ Scenarios.all_sent (bot.SignalDetected signal) = true
           /\ bot.trade_executor self = Some ex
           /\ TradeExecutor.active_trades ex !! TradingSignal.symbol signal = None
           /\ exists res, runs (TradeExecutor.execute_signal cfg ex signal) tr res).
Proof.
  apply (on_message_exchange_calls (U := ascii_tables) config.default Scenarios.all_sent
           Scenarios.connected_bot Scenarios.lsk_message
           (Examples.trace_of Scenarios.handled) (Scenarios.sent_of Scenarios.handled)
           (Scenarios.bot_of Scenarios.handled)).
  apply play_sound with (script := Examples.script_a). vm_compute. reflexivity.
Defined.

Lemma on_message_answers_parsed_witness :
  let self := Scenarios.connected_bot in
  let message := Scenarios.lsk_message in
  let out := Scenarios.sent_of Scenarios.handled in
  (forall signal,
     bot.author message <> bot.user self ->
     bot.channel_id message = bot.DISCORD_CHANNEL_ID self ->
     SignalParser.parse_message (U := ascii_tables) (bot.content message) = Some signal ->
     if Scenarios.all_sent (bot.SignalDetected signal) then
       exists verdict,
         out = [bot.SignalDetected signal; verdict]
         /\ (verdict = bot.ExecutionInitiated (TradingSignal.symbol signal)
             \/ verdict = bot.ExecutionFailed (TradingSignal.symbol signal)
             \/ verdict = bot.NotConnected)
     else out = [bot.SignalDetected signal]
          /\ Examples.trace_of Scenarios.handled = []
          /\ Scenarios.bot_of Scenarios.handled = self)
  /\ (In bot.CouldNotParse out ->
      out = [bot.CouldNotParse] /\ Examples.trace_of Scenarios.handled = []
      /\ SignalParser.is_signal_message (U := ascii_tables) (bot.content message) = true
      /\ SignalParser.parse_message (U := ascii_tables) (bot.content message) = None).
Proof.
  apply (on_message_answers_parsed (U := ascii_tables) config.default Scenarios.all_sent
           Scenarios.connected_bot Scenarios.lsk_message
           (Examples.trace_of Scenarios.handled) (Scenarios.sent_of Scenarios.handled)
           (Scenarios.bot_of Scenarios.handled)).
  apply play_sound with (script := Examples.script_a). vm_compute. reflexivity.
Defined.

Lemma on_message_repeated_signal_witness :
  (* the LSK message, a BTC signal that is traded, the LSK message again *)
  In (bot.ExecutionInitiated (str "BTC")) (Scenarios.sent_of Scenarios.handled_btc)
  /\ bot.on_message (U := ascii_tables) config.default Scenarios.all_sent
       (Scenarios.bot_of Scenarios.handled_btc) Scenarios.lsk_message
     = Ret (bot.SignalDetected Examples.lsk_signal
            :: (if Scenarios.all_sent (bot.SignalDetected Examples.lsk_signal)
                then [bot.ExecutionFailed (str "LSK")] else []),
            Scenarios.bot_of Scenarios.handled_btc).
Proof.
  split; [vm_compute; right; left; reflexivity|].
  apply (on_message_repeated_signal (U := ascii_tables) config.default Scenarios.all_sent
           Scenarios.connected_bot Scenarios.lsk_message
           (Examples.trace_of Scenarios.handled) (Scenarios.sent_of Scenarios.handled)
           (Scenarios.bot_of Scenarios.handled) (str "LSK")
           (Scenarios.bot_of Scenarios.handled_btc) Scenarios.all_sent
           Scenarios.lsk_message Examples.lsk_signal).
  - apply play_sound with (script := Examples.script_a). vm_compute. reflexivity.
  - vm_compute. right. left. reflexivity.
  - apply (handled_later_step (U := ascii_tables) config.default
             (Scenarios.bot_of Scenarios.handled) (Scenarios.bot_of Scenarios.handled)
             Scenarios.all_sent Scenarios.btc_message
             (Examples.trace_of Scenarios.handled_btc)
             (Scenarios.sent_of Scenarios.handled_btc)
             (Scenarios.bot_of Scenarios.handled_btc)).
    + apply handled_later_refl.
    + apply play_sound with (script := Scenarios.btc_script). vm_compute. reflexivity.
  - vm_compute. discriminate.
  - reflexivity.
  - vm_compute. reflexivity.
  - reflexivity.
Defined.

Lemma snapshot_misses_later_store_witness :
  let h := Examples.busy_heap in
  let self := Examples.busy_object in
  let k := str "BTC" in
  let t := Examples.lsk_trade in
  let d := fst (Objects.get_active_trades h self) in
  let h' := snd (Objects.get_active_trades h self) in
  Objects.well_formed h'
  /\ Objects.well_formed (Objects.store h' self k t)
  /\ Objects.contents (Objects.store h' self k t) (Objects.active_trades self)
     = <[ k := t ]> (Objects.contents h (Objects.active_trades self))
  /\ Objects.contents (Objects.store h' self k t) d
     = Objects.contents h (Objects.active_trades self).
Proof.
  apply (snapshot_misses_later_store Examples.busy_heap Examples.busy_object (str "BTC")
           Examples.lsk_trade).
  - intros d m k r Hd Hk. unfold Examples.busy_heap in *. simpl in *.
    apply lookup_singleton_Some in Hd. destruct Hd as [<- <-].
    apply lookup_singleton_Some in Hk. destruct Hk as [<- <-].
    rewrite lookup_singleton_eq. eexists. reflexivity.
  - vm_compute. eexists. reflexivity.
Defined.

Lemma cmp_is_not_used_witness :
  exists self'',
    runs (TradeExecutor.execute_signal config.default Examples.fresh_executor
            (with_cmp Examples.lsk_signal 1000))
      (Examples.trace_of Examples.run_a) (true, self'')
    /\ forall k, k <> TradingSignal.symbol Examples.lsk_signal ->
         TradeExecutor.active_trades self'' !! k
         = TradeExecutor.active_trades (snd (Examples.result_of Examples.run_a)) !! k.
Proof.
  apply (cmp_is_not_used config.default Examples.fresh_executor Examples.lsk_signal 1000
           (Examples.trace_of Examples.run_a) true
           (snd (Examples.result_of Examples.run_a))).
  apply play_sound with (script := Examples.script_a). vm_compute. reflexivity.
Defined.

(* ================================================================== *)
(** * Executions over any arithmetic *)
(* ================================================================== *)

(** Invert an execution whose first call is known. *)
Ltac finv :=
  let r := fresh "r" in
  let Hk := fresh "Hk" in
  match goal with
  | H : FP.runs (FP.Ret _) _ _ |- _ => inversion H; subst; clear H
  | H : FP.runs (FP.fetch_balance _) _ _ |- _ =>
      inversion H as [|? r ? ? Hk| | |]; subst; clear H; rename Hk into H
  | H : FP.runs (FP.load_markets _) _ _ |- _ =>
      inversion H as [| |? r ? ? Hk| |]; subst; clear H; rename Hk into H
  | H : FP.runs (FP.create_limit_order _ _ _ _ _) _ _ |- _ =>
      inversion H as [| | |? ? ? ? ? r ? ? Hk|]; subst; clear H; rename Hk into H
  | H : FP.runs (FP.create_order _ _ _ _ _ _ _) _ _ |- _ =>
      inversion H as [| | | |? ? ? ? ? ? ? r ? ? Hk]; subst; clear H; rename Hk into H
  end.

Section FRuns.
Context {F X Y : Type}.

Lemma fp_runs_bind_inv (p : FP.Prog F X) (f : X -> FP.Prog F Y) tr b :
  FP.runs (FP.bind p f) tr b ->
  exists tr1 a tr2, FP.runs p tr1 a /\ FP.runs (f a) tr2 b /\ tr = tr1 ++ tr2.
Proof.
  revert tr. induction p as [a|k IH|k IH|s sd am pr k IH|s ty sd am pr sp k IH];
    intros tr Hr; simpl in Hr.
  - exists [], a, tr. split; [constructor | split; [assumption | reflexivity]].
  - finv. destruct (IH _ _ Hr) as (tr1 & a & tr2 & H1 & H2 & ->).
    exists (FP.EvFetchBalance r :: tr1), a, tr2. split; [constructor; assumption | auto].
  - finv. destruct (IH _ _ Hr) as (tr1 & a & tr2 & H1 & H2 & ->).
    exists (FP.EvLoadMarkets r :: tr1), a, tr2. split; [constructor; assumption | auto].
  - finv. destruct (IH _ _ Hr) as (tr1 & a & tr2 & H1 & H2 & ->).
    exists (FP.EvCreateLimitOrder s sd am pr r :: tr1), a, tr2.
    split; [constructor; assumption | auto].
  - finv. destruct (IH _ _ Hr) as (tr1 & a & tr2 & H1 & H2 & ->).
    exists (FP.EvCreateOrder s ty sd am pr sp r :: tr1), a, tr2.
    split; [constructor; assumption | auto].
Qed.

End FRuns.

Lemma fp_runs_bind_assoc {F X Y Z : Type} (p : FP.Prog F X) (f : X -> FP.Prog F Y)
    (g : Y -> FP.Prog F Z) tr c :
  FP.runs (FP.bind (FP.bind p f) g) tr c ->
  FP.runs (FP.bind p (fun x => FP.bind (f x) g)) tr c.
Proof.
  revert tr. induction p; intros tr Hr; simpl in *; auto.
  - finv. constructor. auto.
  - finv. constructor. auto.
  - finv. constructor. auto.
  - finv. constructor. auto.
Qed.

(** The scripted exchange produces executions. *)
Lemma fp_play_sound {F X : Type} (p : FP.Prog F X) script tr a :
  FP.play p script = Some (tr, a) -> FP.runs p tr a.
Proof.
  revert script tr.
  induction p as [x|k IH|k IH|s sd am pr k IH|s ty sd am pr sp k IH];
    intros script tr Hp; simpl in Hp.
  - injection Hp as <- <-. constructor.
  - destruct script as [|[r|r|r] script]; try discriminate.
    destruct (FP.play (k r) script) as [[tr' a']|] eqn:E; try discriminate.
    injection Hp as <- <-. constructor. eauto.
  - destruct script as [|[r|r|r] script]; try discriminate.
    destruct (FP.play (k r) script) as [[tr' a']|] eqn:E; try discriminate.
    injection Hp as <- <-. constructor. eauto.
  - destruct script as [|[r|r|r] script]; try discriminate.
    destruct (FP.play (k r) script) as [[tr' a']|] eqn:E; try discriminate.
    injection Hp as <- <-. constructor. eauto.
  - destruct script as [|[r|r|r] script]; try discriminate.
    destruct (FP.play (k r) script) as [[tr' a']|] eqn:E; try discriminate.
    injection Hp as <- <-. constructor. eauto.
Qed.

#[local] Arguments FP.TradeExecutor.take_profit_loop : simpl never.
#[local] Arguments FP.ExchangeConnector.place_stop_loss_order : simpl never.

Ltac fstep := cbn beta iota zeta delta [FP.bind FP.bindE FP.lift FP.ret FP.pure
  FP.try_except FP.ExchangeConnector.get_balance
  FP.ExchangeConnector.get_min_order_size
  FP.ExchangeConnector.place_limit_order fst snd] in *.

Ltac fsplit_run H tr1 v H1 :=
  unfold FP.bindE, FP.lift in H;
  repeat match type of H with
         | FP.runs (FP.bind (FP.bind _ _) _) _ _ => apply fp_runs_bind_assoc in H
         end;
  apply fp_runs_bind_inv in H;
  destruct H as (tr1 & v & ? & H1 & H & ->).

Section FExecutions.
Context {F : Type} {A : Arith F}.

Lemma fp_runs_place_limit_order ex s sd a p tr (res : option Order) :
  FP.runs (FP.ExchangeConnector.place_limit_order (F := F) ex s sd a p) tr res ->
  tr = [FP.EvCreateLimitOrder s sd a p res].
Proof.
  unfold FP.ExchangeConnector.place_limit_order. intros H. finv.
  destruct r; finv; reflexivity.
Qed.

(** The stop loss places sells only. *)
Lemma fp_runs_place_stop_loss_order ex s a sp tr (res : option Order) :
  FP.runs (FP.ExchangeConnector.place_stop_loss_order (F := F) ex s a sp) tr res ->
  List.filter FP.is_buy tr = [].
Proof.
  unfold FP.ExchangeConnector.place_stop_loss_order. intros H.
  destruct (decide _); finv; destruct r as [o|];
    try (finv; reflexivity);
    apply fp_runs_place_limit_order in H; subst; reflexivity.
Qed.

(** The take-profit loop places sells only, and raises nothing. *)
Lemma fp_runs_take_profit_loop ex s apt avg targets acc tr res :
  FP.runs (FP.TradeExecutor.take_profit_loop ex s apt avg targets acc) tr res ->
  List.filter FP.is_buy tr = [] /\ exists tps, res = Ok tps.
Proof.
  revert acc tr. induction targets as [|t targets IH]; intros acc tr H;
    unfold FP.TradeExecutor.take_profit_loop in H;
    fold (FP.TradeExecutor.take_profit_loop (F := F)) in H.
  - unfold FP.ret in H. finv. split; [reflexivity | eauto].
  - unfold FP.ExchangeConnector.place_take_profit_order in H.
    fstep. finv. destruct r; fstep; apply IH in H; destruct H as [HF Hres];
      (split; [simpl; exact HF | assumption]).
Qed.

End FExecutions.

(** The law holds of the rationals and of binary64. *)
Lemma rationals_guarded : guarded rationals.
Proof.
  intros a H. unfold fgt, flt, fis_zero, flit, rationals in *.
  apply negb_true_iff in H.
  destruct (Qeq_bool a 0) eqn:E; [|reflexivity].
  apply Qeq_bool_iff in E.
  assert (Qle_bool a 0 = true) by (apply Qle_bool_iff; rewrite E; apply Qle_refl).
  congruence.
Qed.

Lemma binary64_guarded : guarded binary64.
Proof.
  intros a H. unfold fgt, flt, fis_zero, flit, binary64 in *.
  rewrite FloatAxioms.ltb_spec in H. rewrite FloatAxioms.eqb_spec.
  change (SpecFloat.SFltb (SpecFloat.S754_zero false) (FloatOps.Prim2SF a) = true) in H.
  change (SpecFloat.SFeqb (FloatOps.Prim2SF a) (SpecFloat.S754_zero false) = false).
  destruct (FloatOps.Prim2SF a) as [s|s| |s m e]; try reflexivity; try discriminate.
  - destruct s; reflexivity.
  - destruct s; reflexivity.
Qed.

(** The comparison of binary64 numbers is antisymmetric. *)
Lemma SFcompare_Lt_Gt x y :
  SpecFloat.SFcompare x y = Some Lt -> SpecFloat.SFcompare y x = Some Gt.
Proof.
  destruct x as [sx|sx| |sx mx ex], y as [sy|sy| |sy my ey]; simpl;
    try discriminate;
    try (destruct sx; discriminate || reflexivity);
    try (destruct sy; discriminate || reflexivity);
    try (destruct sx, sy; discriminate || reflexivity).
  change (PosDef.Pos.compare_cont Eq mx my) with (Pos.compare mx my).
  change (PosDef.Pos.compare_cont Eq my mx) with (Pos.compare my mx).
  rewrite (Z.compare_antisym ex ey), (Pos.compare_antisym mx my).
  destruct sx, sy; try discriminate; try reflexivity;
    destruct (ex ?= ey)%Z; simpl; try discriminate; try reflexivity;
    destruct (mx ?= my)%positive; simpl; try discriminate; reflexivity.
Qed.

(** In binary64, and in the rationals, an amount below the minimum does
    not reach it: where [a < b] holds, [a >= b] fails. *)
Lemma binary64_below (a b : PrimFloat.float) : flt a b = true -> fge a b = false.
Proof.
  unfold fge, flt, fle, binary64.
  rewrite FloatAxioms.ltb_spec, FloatAxioms.leb_spec.
  unfold SpecFloat.SFltb, SpecFloat.SFleb.
  destruct (SpecFloat.SFcompare (FloatOps.Prim2SF a) (FloatOps.Prim2SF b))
    as [[| |]|] eqn:E; try discriminate.
  intros _. rewrite (SFcompare_Lt_Gt _ _ E). reflexivity.
Qed.

Lemma rationals_below (a b : Q) : flt a b = true -> fge a b = false.
Proof.
  unfold fge, flt, fle, rationals. intros H. apply negb_true_iff in H. exact H.
Qed.

Section FCases.
Context {F : Type} {A : Arith F}.
Hypothesis Hguard : guarded A.

Lemma fp_avg_entry_price_step (total_cost total_amount first_buy_price : F) :
  (if fgt total_amount (flit 0) then FP.pure (truediv total_cost total_amount)
   else FP.ret first_buy_price)
  = FP.ret (F := F) (if fgt total_amount (flit 0) then fdiv total_cost total_amount
            else first_buy_price).
Proof.
  destruct (fgt total_amount (flit 0)) eqn:E; [|reflexivity].
  unfold truediv. rewrite (Hguard _ E). reflexivity.
Qed.


(** Every execution of [execute_signal], case by case: where it ends,
    the calls it has made until then, and what it returns.  After an
    accepted first buy, the second-buy price not being zero, the second
    buy is placed when its amount reaches the minimum, nothing that
    follows is a buy or raises, and the trade is stored. *)
Lemma fp_execute_signal_cases (cfg : FP.config.t F) (self : FP.TradeExecutor.t F)
    (signal : FP.TradingSignal.t F) tr res :
  FP.runs (FP.TradeExecutor.execute_signal cfg self signal) tr res ->
  let symbol :=
    FP.ExchangeConnector.get_symbol (FP.TradeExecutor.exchange self)
      (FP.TradingSignal.symbol signal) (FP.config.DEFAULT_QUOTE_ASSET cfg) in
  let price :=
    fdiv (fadd (fst (FP.TradingSignal.first_buy_range signal))
               (snd (FP.TradingSignal.first_buy_range signal))) (flit 2) in
  if decide (is_Some (FP.TradeExecutor.active_trades self
                        !! FP.TradingSignal.symbol signal))
  then tr = [] /\ res = (false, self)
  else
  exists r_bal tr1,
    tr = FP.EvFetchBalance r_bal :: tr1
    /\ let balance :=
         FP.ExchangeConnector.free_balance r_bal (FP.config.DEFAULT_QUOTE_ASSET cfg) in
       let budget :=
         fmin (fmul balance (fdiv (FP.config.POSITION_SIZE_PERCENTAGE cfg) (flit 100)))
           (FP.config.MAX_POSITION_SIZE cfg) in
       if flt balance (flit 10) then tr1 = [] /\ res = (false, self)
       else if fis_zero price then tr1 = [] /\ res = (false, self)
       else
       exists r_mk r1 tr2,
         let min_order_size := FP.ExchangeConnector.amount_min r_mk symbol in
         let below := flt (fdiv (fmul budget (flit 0.6)) price) min_order_size in
         let a1 := if below then min_order_size
                   else fdiv (fmul budget (flit 0.6)) price in
         let c1 := if below then fmul min_order_size price
                   else fmul budget (flit 0.6) in
         let a2 := fdiv (fmul budget (flit 0.4)) (FP.TradingSignal.second_buy signal) in
         tr1 = FP.EvLoadMarkets r_mk :: FP.EvCreateLimitOrder symbol buy a1 price r1 :: tr2
         /\ match r1 with
            | None => tr2 = [] /\ res = (false, self)
            | Some first_order =>
                if fis_zero (FP.TradingSignal.second_buy signal)
                then tr2 = [] /\ res = (false, self)
                else
                exists second_order stop_loss_order take_profit_orders tr_second tr_risk,
                  tr2 = tr_second ++ tr_risk
                  /\ (if fge a2 min_order_size
                      then tr_second = [FP.EvCreateLimitOrder symbol buy a2
                                          (FP.TradingSignal.second_buy signal) second_order]
                      else tr_second = [] /\ second_order = None)
                  /\ List.filter FP.is_buy tr_risk = []
                  /\ let total_amount :=
                       match second_order with Some _ => fadd a1 a2 | None => a1 end in
                     let total_cost :=
                       match second_order with
                       | Some _ => fadd c1 (fmul budget (flit 0.4))
                       | None => c1
                       end in
                     res = (true,
                            {| FP.TradeExecutor.exchange := FP.TradeExecutor.exchange self;
                               FP.TradeExecutor.active_trades :=
                                 <[ FP.TradingSignal.symbol signal :=
                                    {| FP.Trade.symbol := symbol;
                                       FP.Trade.base_symbol := FP.TradingSignal.symbol signal;
                                       FP.Trade.first_order := first_order;
                                       FP.Trade.second_order := second_order;
                                       FP.Trade.stop_loss_order := stop_loss_order;
                                       FP.Trade.take_profit_orders := take_profit_orders;
                                       FP.Trade.total_amount := total_amount;
                                       FP.Trade.avg_entry_price :=
                                         if fgt total_amount (flit 0)
                                         then fdiv total_cost total_amount else price;
                                       FP.Trade.signal := signal |} ]>
                                   (FP.TradeExecutor.active_trades self) |})
            end.
Proof.
  unfold FP.TradeExecutor.execute_signal, FP.TradeExecutor.execute_signal_try.
  intros H. cbv zeta.
  destruct (decide _) as [Hdup|Hdup].
  { fstep. finv. split; reflexivity. }
  fstep. finv. rename r into r_bal. exists r_bal. eexists. split; [reflexivity|].
  fstep.
  destruct (flt _ (flit 10)) eqn:Hbal.
  { fstep. finv. split; reflexivity. }
  unfold truediv in H at 1.
  destruct (fis_zero (fdiv _ (flit 2))) eqn:Hp1.
  { fstep. finv. split; reflexivity. }
  fstep. finv. rename r into r_mk. finv. rename r into r1.
  exists r_mk, r1. eexists. split; [reflexivity|].
  destruct r1 as [first_order|]; fstep.
  2:{ finv. split; reflexivity. }
  unfold truediv in H at 1.
  destruct (fis_zero (FP.TradingSignal.second_buy signal)) eqn:Hp2.
  { fstep. finv. split; reflexivity. }
  fstep.
  match type of H with
  | context [fge ?a ?m] => destruct (fge a m) eqn:Hge
  end.
  - fstep. finv. rename r into second_order.
    exists second_order.
    destruct second_order as [second_order|]; fstep.
    all: rewrite fp_avg_entry_price_step in H; fstep.
    all: destruct (FP.config.ENABLE_STOP_LOSS cfg) eqn:Hsl;
      [ fsplit_run H tr_stop sl Hstop;
        apply fp_runs_place_stop_loss_order in Hstop; fstep
      | fstep; pose (tr_stop := @nil (FP.event F));
        assert (Hstop : List.filter FP.is_buy tr_stop = []) by reflexivity;
        pose (sl := @None Order) ].
    all: destruct (FP.config.ENABLE_TAKE_PROFIT cfg) eqn:Htp;
      [ destruct (FP.TradingSignal.targets signal) as [|t ts] eqn:Hts;
        [ fstep; finv
        | fstep; fsplit_run H tr_tp tpr Hloop;
          destruct (fp_runs_take_profit_loop _ _ _ _ _ _ _ _ Hloop) as [Hbuys [tps ->]];
          fstep; finv ]
      | fstep; finv ].
    all: eexists sl, _, [_], _; (split; [reflexivity|]); (split; [reflexivity|]);
      rewrite ?app_nil_r; rewrite ?List.filter_app, ?Hstop, ?Hbuys;
      (split; [reflexivity|]);
      match goal with |- context [flt ?a ?m] => destruct (flt a m) end; reflexivity.
  - fstep. exists None.
    rewrite fp_avg_entry_price_step in H; fstep.
    destruct (FP.config.ENABLE_STOP_LOSS cfg) eqn:Hsl;
      [ fsplit_run H tr_stop sl Hstop;
        apply fp_runs_place_stop_loss_order in Hstop; fstep
      | fstep; pose (tr_stop := @nil (FP.event F));
        assert (Hstop : List.filter FP.is_buy tr_stop = []) by reflexivity;
        pose (sl := @None Order) ].
    all: destruct (FP.config.ENABLE_TAKE_PROFIT cfg) eqn:Htp;
      [ destruct (FP.TradingSignal.targets signal) as [|t ts] eqn:Hts;
        [ fstep; finv
        | fstep; fsplit_run H tr_tp tpr Hloop;
          destruct (fp_runs_take_profit_loop _ _ _ _ _ _ _ _ Hloop) as [Hbuys [tps ->]];
          fstep; finv ]
      | fstep; finv ].
    all: eexists sl, _, [], _; (split; [reflexivity|]); (split; [split; reflexivity|]);
      rewrite ?app_nil_r; rewrite ?List.filter_app, ?Hstop, ?Hbuys;
      (split; [reflexivity|]);
      match goal with |- context [flt ?a ?m] => destruct (flt a m) end; reflexivity.
Qed.

End FCases.

Lemma fp_filled_buys_filter {F : Type} (tr : list (FP.event F)) :
  FP.filled_buys tr = FP.filled_buys (List.filter FP.is_buy tr).
Proof.
  induction tr as [|e tr IH]; [reflexivity|].
  destruct e as [r|r|s [|] a p [o|]|s ty [|] a p sp [o|]]; simpl; rewrite ?IH; reflexivity.
Qed.

(** The shape of an execution that got as far as the market query. *)
Lemma fp_after_markets {F : Type} {A : Arith F} (cfg : FP.config.t F)
    (self : FP.TradeExecutor.t F) (signal : FP.TradingSignal.t F) r_bal r_mk tr' res :
  guarded A ->
  FP.runs (FP.TradeExecutor.execute_signal cfg self signal)
    (FP.EvFetchBalance r_bal :: FP.EvLoadMarkets r_mk :: tr') res ->
  let symbol :=
    FP.ExchangeConnector.get_symbol (FP.TradeExecutor.exchange self)
      (FP.TradingSignal.symbol signal) (FP.config.DEFAULT_QUOTE_ASSET cfg) in
  let price :=
    fdiv (fadd (fst (FP.TradingSignal.first_buy_range signal))
               (snd (FP.TradingSignal.first_buy_range signal))) (flit 2) in
  let balance :=
    FP.ExchangeConnector.free_balance r_bal (FP.config.DEFAULT_QUOTE_ASSET cfg) in
  let budget :=
    fmin (fmul balance (fdiv (FP.config.POSITION_SIZE_PERCENTAGE cfg) (flit 100)))
      (FP.config.MAX_POSITION_SIZE cfg) in
  let min_order_size := FP.ExchangeConnector.amount_min r_mk symbol in
  let below := flt (fdiv (fmul budget (flit 0.6)) price) min_order_size in
  let a1 := if below then min_order_size else fdiv (fmul budget (flit 0.6)) price in
  let c1 := if below then fmul min_order_size price else fmul budget (flit 0.6) in
  let a2 := fdiv (fmul budget (flit 0.4)) (FP.TradingSignal.second_buy signal) in
  exists r1 tr2,
    tr' = FP.EvCreateLimitOrder symbol buy a1 price r1 :: tr2
    /\ match r1 with
       | None => tr2 = [] /\ res = (false, self)
       | Some first_order =>
           if fis_zero (FP.TradingSignal.second_buy signal)
           then tr2 = [] /\ res = (false, self)
           else
           exists second_order stop_loss_order take_profit_orders,
             List.filter FP.is_buy tr2
             = (if fge a2 min_order_size
                then [FP.EvCreateLimitOrder symbol buy a2
                        (FP.TradingSignal.second_buy signal) second_order]
                else [])
             /\ (fge a2 min_order_size = false -> second_order = None)
             /\ let total_amount :=
                  match second_order with Some _ => fadd a1 a2 | None => a1 end in
                let total_cost :=
                  match second_order with
                  | Some _ => fadd c1 (fmul budget (flit 0.4))
                  | None => c1
                  end in
                res = (true,
                       {| FP.TradeExecutor.exchange := FP.TradeExecutor.exchange self;
                          FP.TradeExecutor.active_trades :=
                            <[ FP.TradingSignal.symbol signal :=
                               {| FP.Trade.symbol := symbol;
                                  FP.Trade.base_symbol := FP.TradingSignal.symbol signal;
                                  FP.Trade.first_order := first_order;
                                  FP.Trade.second_order := second_order;
                                  FP.Trade.stop_loss_order := stop_loss_order;
                                  FP.Trade.take_profit_orders := take_profit_orders;
                                  FP.Trade.total_amount := total_amount;
                                  FP.Trade.avg_entry_price :=
                                    if fgt total_amount (flit 0)
                                    then fdiv total_cost total_amount else price;
                                  FP.Trade.signal := signal |} ]>
                              (FP.TradeExecutor.active_trades self) |})
       end.
Proof.
  intros Hguard Hr. cbv zeta.
  pose proof (fp_execute_signal_cases Hguard _ _ _ _ _ Hr) as H. cbv zeta in H.
  destruct (decide _) as [_|_]; [destruct H as [H _]; discriminate H|].
  destruct H as (r_bal' & tr1 & Htr & H). injection Htr as <- <-.
  destruct (flt _ (flit 10)); [destruct H as [H _]; discriminate H|].
  destruct (fis_zero (fdiv _ (flit 2))); [destruct H as [H _]; discriminate H|].
  destruct H as (r_mk' & r1 & tr2 & Htr & H). injection Htr as <- ->.
  exists r1, tr2. split; [reflexivity|].
  destruct r1 as [first_order|]; [|exact H].
  destruct (fis_zero (FP.TradingSignal.second_buy signal)); [exact H|].
  destruct H as (second_order & stop_loss_order & take_profit_orders & tr_second
                 & tr_risk & -> & Hsecond & Hrisk & Hres).
  exists second_order, stop_loss_order, take_profit_orders.
  rewrite List.filter_app, Hrisk, app_nil_r.
  destruct (fge _ _).
  - subst tr_second. split; [reflexivity|]. split; [discriminate|]. exact Hres.
  - destruct Hsecond as [-> ->]. split; [reflexivity|]. split; [reflexivity|]. exact Hres.
Qed.

(* ================================================================== *)
(** * Entry aggregation and sizing, in the arithmetic of the code *)
(* ================================================================== *)

(** C3.  In an execution whose first buy the exchange accepted, the
    second-buy price not being zero, [execute_signal] returns [True] and
    stores a trade.  The accepted buys of the execution are the first
    and, when the stored trade has a second order, the second.  The
    stored total amount is the first amount, plus the second amount when
    the second order was accepted.  The stored average entry price is
    [total_cost / total_amount] when [total_amount > 0], where
    [total_cost] adds the quote sizes of the accepted tranches as the
    code sized them ([first_buy_size], and [second_buy_size] = 40% of the
    budget), and it is the first-tranche price, no division taking
    place, when [total_amount > 0] fails.  Every operation is the
    float operation of the code; with the first tranche alone the average
    is [first_buy_size / first_buy_amount], which is the first price up to
    rounding only. *)
Theorem C3_average_entry_price {F : Type} {A : Arith F} (cfg : FP.config.t F)
    (self : FP.TradeExecutor.t F) (signal : FP.TradingSignal.t F)
    r_bal r_mk s a1 p1 o1 tr' res :
  guarded A ->
  FP.runs (FP.TradeExecutor.execute_signal cfg self signal)
    (FP.EvFetchBalance r_bal :: FP.EvLoadMarkets r_mk
     :: FP.EvCreateLimitOrder s buy a1 p1 (Some o1) :: tr') res ->
  fis_zero (FP.TradingSignal.second_buy signal) = false ->
  let balance :=
    FP.ExchangeConnector.free_balance r_bal (FP.config.DEFAULT_QUOTE_ASSET cfg) in
  let min_order_size :=
    FP.ExchangeConnector.amount_min r_mk
      (FP.ExchangeConnector.get_symbol (FP.TradeExecutor.exchange self)
         (FP.TradingSignal.symbol signal) (FP.config.DEFAULT_QUOTE_ASSET cfg)) in
  let position_size :=
    fmin (fmul balance (fdiv (FP.config.POSITION_SIZE_PERCENTAGE cfg) (flit 100)))
      (FP.config.MAX_POSITION_SIZE cfg) in
  let first_buy_size :=
    if flt (fdiv (fmul position_size (flit 0.6)) p1) min_order_size
    then fmul min_order_size p1 else fmul position_size (flit 0.6) in
  let second_buy_size := fmul position_size (flit 0.4) in
  let second_buy_amount := fdiv second_buy_size (FP.TradingSignal.second_buy signal) in
  exists self' t,
    res = (true, self')
    /\ FP.TradeExecutor.active_trades self' !! FP.TradingSignal.symbol signal = Some t
    /\ FP.filled_buys
         (FP.EvFetchBalance r_bal :: FP.EvLoadMarkets r_mk
          :: FP.EvCreateLimitOrder s buy a1 p1 (Some o1) :: tr')
       = (a1, p1) :: match FP.Trade.second_order t with
                     | Some _ => [(second_buy_amount, FP.TradingSignal.second_buy signal)]
                     | None => []
                     end
    /\ let total_amount :=
         match FP.Trade.second_order t with
         | Some _ => fadd a1 second_buy_amount
         | None => a1
         end in
       let total_cost :=
         match FP.Trade.second_order t with
         | Some _ => fadd first_buy_size second_buy_size
         | None => first_buy_size
         end in
       FP.Trade.total_amount t = total_amount
       /\ FP.Trade.avg_entry_price t
          = (if fgt total_amount (flit 0) then fdiv total_cost total_amount else p1).
Proof.
  intros Hguard Hr Hp2. cbv zeta.
  pose proof (fp_after_markets _ _ _ _ _ _ _ Hguard Hr) as H. cbv zeta in H.
  destruct H as (r1 & tr2 & Htr & H). injection Htr as -> -> -> <- <-.
  rewrite Hp2 in H.
  destruct H as (second_order & stop_loss_order & tps & Hbuys & Hnone & ->).
  eexists _, _. split; [reflexivity|]. split; [apply lookup_insert_eq|].
  simpl FP.Trade.second_order. simpl FP.Trade.total_amount.
  simpl FP.Trade.avg_entry_price.
  split; [|split; reflexivity].
  simpl. f_equal. rewrite fp_filled_buys_filter, Hbuys.
  destruct (fge _ _).
  - destruct second_order; reflexivity.
  - rewrite (Hnone eq_refl). reflexivity.
Qed.


(** C5.  In an execution that reaches the market query, when the
    first-tranche amount the code computes ([budget * 0.6 / midpoint]) is
    below the minimum order size, the first buy is placed for exactly the
    minimum order size at the midpoint.  When it is accepted, the
    second-buy price not being zero, the call returns [True]; the only
    other buy is the second, sized from the budget as if nothing had been
    raised ([budget * 0.4 / second_buy], placed when that reaches the
    minimum); and the stored trade counts the first tranche with amount
    [minimum] and cost [minimum * midpoint], the second, when accepted,
    with its full [budget * 0.4].  Every operation is the float operation
    of the code. *)
Theorem C5_first_tranche_raised {F : Type} {A : Arith F} (cfg : FP.config.t F)
    (self : FP.TradeExecutor.t F) (signal : FP.TradingSignal.t F)
    r_bal r_mk tr' res :
  guarded A ->
  FP.runs (FP.TradeExecutor.execute_signal cfg self signal)
    (FP.EvFetchBalance r_bal :: FP.EvLoadMarkets r_mk :: tr') res ->
  let symbol :=
    FP.ExchangeConnector.get_symbol (FP.TradeExecutor.exchange self)
      (FP.TradingSignal.symbol signal) (FP.config.DEFAULT_QUOTE_ASSET cfg) in
  let balance :=
    FP.ExchangeConnector.free_balance r_bal (FP.config.DEFAULT_QUOTE_ASSET cfg) in
  let min_order_size := FP.ExchangeConnector.amount_min r_mk symbol in
  let budget :=
    fmin (fmul balance (fdiv (FP.config.POSITION_SIZE_PERCENTAGE cfg) (flit 100)))
      (FP.config.MAX_POSITION_SIZE cfg) in
  let midpoint :=
    fdiv (fadd (fst (FP.TradingSignal.first_buy_range signal))
               (snd (FP.TradingSignal.first_buy_range signal))) (flit 2) in
  let second_amount :=
    fdiv (fmul budget (flit 0.4)) (FP.TradingSignal.second_buy signal) in
  flt (fdiv (fmul budget (flit 0.6)) midpoint) min_order_size = true ->
  exists r1 tr'',
    tr' = FP.EvCreateLimitOrder symbol buy min_order_size midpoint r1 :: tr''
    /\ match r1 with
       | None => tr'' = [] /\ res = (false, self)
       | Some _ =>
           if fis_zero (FP.TradingSignal.second_buy signal)
           then tr'' = [] /\ res = (false, self)
           else
           exists self' t,
             res = (true, self')
             /\ FP.TradeExecutor.active_trades self'
                  !! FP.TradingSignal.symbol signal = Some t
             /\ List.filter FP.is_buy tr''
                = (if fge second_amount min_order_size
                   then [FP.EvCreateLimitOrder symbol buy second_amount
                           (FP.TradingSignal.second_buy signal)
                           (FP.Trade.second_order t)]
                   else [])
             /\ match FP.Trade.second_order t with
                | None =>
                    FP.Trade.total_amount t = min_order_size
                    /\ FP.Trade.avg_entry_price t
                       = (if fgt min_order_size (flit 0)
                          then fdiv (fmul min_order_size midpoint) min_order_size
                          else midpoint)
                | Some _ =>
                    FP.Trade.total_amount t = fadd min_order_size second_amount
                    /\ FP.Trade.avg_entry_price t
                       = (if fgt (fadd min_order_size second_amount) (flit 0)
                          then fdiv (fadd (fmul min_order_size midpoint)
                                          (fmul budget (flit 0.4)))
                                    (fadd min_order_size second_amount)
                          else midpoint)
                end
       end.
Proof.
  intros Hguard Hr. cbv zeta. intros Hlt.
  pose proof (fp_after_markets _ _ _ _ _ _ _ Hguard Hr) as H. cbv zeta in H.
  rewrite Hlt in H.
  destruct H as (r1 & tr2 & -> & H). exists r1, tr2. split; [reflexivity|].
  destruct r1 as [first_order|]; [|exact H].
  destruct (fis_zero (FP.TradingSignal.second_buy signal)); [exact H|].
  destruct H as (second_order & stop_loss_order & tps & Hbuys & Hnone & ->).
  eexists _, _. split; [reflexivity|]. split; [apply lookup_insert_eq|].
  simpl FP.Trade.second_order. simpl FP.Trade.total_amount.
  simpl FP.Trade.avg_entry_price.
  split.
  - rewrite Hbuys. reflexivity.
  - destruct second_order; split; reflexivity.
Qed.

(** C6.  In an execution whose first buy the exchange accepted, when
    the second-tranche amount ([budget * 0.4 / second_buy], the price not
    being zero) does not reach the minimum order size (the test
    [second_buy_amount >= min_order_size] of the code fails, as it does
    for an amount below the minimum, [binary64_below]): no further buy
    order is placed, the amount not being raised to the minimum as the
    first tranche's is; the call returns [True]; and the stored trade has
    no second order, the first order's amount as total amount, and the
    first tranche's cost alone in its average entry price.  Every
    operation is the float operation of the code. *)
Theorem C6_second_tranche_skipped {F : Type} {A : Arith F} (cfg : FP.config.t F)
    (self : FP.TradeExecutor.t F) (signal : FP.TradingSignal.t F)
    r_bal r_mk s a1 p1 o1 tr' res :
  guarded A ->
  FP.runs (FP.TradeExecutor.execute_signal cfg self signal)
    (FP.EvFetchBalance r_bal :: FP.EvLoadMarkets r_mk
     :: FP.EvCreateLimitOrder s buy a1 p1 (Some o1) :: tr') res ->
  let balance :=
    FP.ExchangeConnector.free_balance r_bal (FP.config.DEFAULT_QUOTE_ASSET cfg) in
  let min_order_size :=
    FP.ExchangeConnector.amount_min r_mk
      (FP.ExchangeConnector.get_symbol (FP.TradeExecutor.exchange self)
         (FP.TradingSignal.symbol signal) (FP.config.DEFAULT_QUOTE_ASSET cfg)) in
  let position_size :=
    fmin (fmul balance (fdiv (FP.config.POSITION_SIZE_PERCENTAGE cfg) (flit 100)))
      (FP.config.MAX_POSITION_SIZE cfg) in
  let first_buy_size :=
    if flt (fdiv (fmul position_size (flit 0.6)) p1) min_order_size
    then fmul min_order_size p1 else fmul position_size (flit 0.6) in
  fis_zero (FP.TradingSignal.second_buy signal) = false ->
  fge (fdiv (fmul position_size (flit 0.4)) (FP.TradingSignal.second_buy signal))
    min_order_size = false ->
  List.filter FP.is_buy tr' = []
  /\ FP.filled_buys (FP.EvFetchBalance r_bal :: FP.EvLoadMarkets r_mk
                     :: FP.EvCreateLimitOrder s buy a1 p1 (Some o1) :: tr') = [(a1, p1)]
  /\ exists self' t,
       res = (true, self')
       /\ FP.TradeExecutor.active_trades self' !! FP.TradingSignal.symbol signal = Some t
       /\ FP.Trade.second_order t = None
       /\ FP.Trade.total_amount t = a1
       /\ FP.Trade.avg_entry_price t
          = (if fgt a1 (flit 0) then fdiv first_buy_size a1 else p1).
Proof.
  intros Hguard Hr. cbv zeta. intros Hp2 Hlt.
  pose proof (fp_after_markets _ _ _ _ _ _ _ Hguard Hr) as H. cbv zeta in H.
  destruct H as (r1 & tr2 & Htr & H). injection Htr as -> -> -> <- <-.
  rewrite Hp2, Hlt in H.
  destruct H as (second_order & stop_loss_order & tps & Hbuys & Hnone & ->).
  rewrite (Hnone eq_refl).
  split; [exact Hbuys|]. split.
  { simpl. rewrite fp_filled_buys_filter, Hbuys. reflexivity. }
  eexists _, _. split; [reflexivity|]. split; [apply lookup_insert_eq|].
  repeat split.
Qed.

(* ================================================================== *)
(** * The sizing claims on concrete executions in binary64 *)
(* ================================================================== *)

(** C3, evaluated where the claim fails.  Default options, a balance of
    1000, the first-buy range 0.104-0.104 and a second buy the exchange
    rejects: the only accepted tranche is the first, 60 / 0.104 =
    576.92307692307691 at 0.104, and the stored average entry price is
    60 / 576.92307692307691 = 0.10400000000000001, the float next above
    the first-tranche price 0.104, not that price. *)
Theorem C3_average_misses_first_price :
  let signal := FloatExamples.signal_of 0.104 0.104 0.1 in
  let tr := FloatExamples.trace_of FloatExamples.run_first_only in
  let p1 := float_of_Q 0.104 in
  let a1 := fdiv (float_of_Q 60) p1 in
  FP.runs (FP.TradeExecutor.execute_signal FP.config.default
             FloatExamples.fresh_executor signal)
    tr (FloatExamples.result_of FloatExamples.run_first_only)
  /\ FP.filled_buys tr = [(a1, p1)]
  /\ exists self' t,
       FloatExamples.result_of FloatExamples.run_first_only = (true, self')
       /\ FP.TradeExecutor.active_trades self' !! str "LSK" = Some t
       /\ FP.Trade.second_order t = None
       /\ FP.Trade.total_amount t = a1
       /\ FP.Trade.avg_entry_price t = fdiv (float_of_Q 60) a1
       /\ FP.Trade.avg_entry_price t = PrimFloat.next_up p1
       /\ PrimFloat.eqb (FP.Trade.avg_entry_price t) p1 = false.
Proof.
  cbv zeta. split.
  { apply fp_play_sound
      with (script := [FP.RBalances (FloatExamples.balance_of 1000); FP.RMarkets None;
                       FP.ROrder (Some (Examples.order "1")); FP.ROrder None;
                       FP.ROrder (Some (Examples.order "2"));
                       FP.ROrder (Some (Examples.order "3"));
                       FP.ROrder (Some (Examples.order "4"));
                       FP.ROrder (Some (Examples.order "5"))]).
    vm_compute. reflexivity. }
  split; [vm_compute; reflexivity|].
  eexists _, _. split; [vm_compute; reflexivity|].
  split; [vm_compute; reflexivity|].
  vm_compute. repeat split.
Qed.

(** The fallback of the average, on a concrete execution: with both
    buys for an amount of zero the total is zero, [total_amount > 0]
    fails, and the stored average is the first-tranche price. *)
Lemma zero_total_falls_back :
  let p1 := fdiv (fadd (float_of_Q 0.208) (float_of_Q 0.210)) (float_of_Q 2) in
  FP.filled_buys (FloatExamples.trace_of FloatExamples.run_empty)
  = [(float_of_Q 0, p1); (float_of_Q 0, float_of_Q 0.2)]
  /\ exists self' t,
       FloatExamples.result_of FloatExamples.run_empty = (true, self')
       /\ FP.TradeExecutor.active_trades self' !! str "LSK" = Some t
       /\ FP.Trade.total_amount t = float_of_Q 0
       /\ fgt (FP.Trade.total_amount t) (flit 0) = false
       /\ FP.Trade.avg_entry_price t = p1.
Proof.
  cbv zeta. split; [vm_compute; reflexivity|].
  eexists _, _. split; [vm_compute; reflexivity|].
  split; [vm_compute; reflexivity|].
  vm_compute. repeat split.
Qed.

Lemma C3_average_entry_price_witness :
  let cfg := FP.config.default in
  let self := FloatExamples.fresh_executor in
  let signal := FloatExamples.signal_of 0.208 0.210 0.1 in
  let r_bal := FloatExamples.balance_of 1000 in
  let r_mk := FloatExamples.markets_of 300 in
  let p1 := fdiv (fadd (float_of_Q 0.208) (float_of_Q 0.210)) (float_of_Q 2) in
  let a1 := float_of_Q 300 in
  let o1 := Examples.order "1" in
  let tr' := skipn 3 (FloatExamples.trace_of FloatExamples.run_raised) in
  let res := FloatExamples.result_of FloatExamples.run_raised in
  let balance :=
    FP.ExchangeConnector.free_balance r_bal (FP.config.DEFAULT_QUOTE_ASSET cfg) in
  let min_order_size :=
    FP.ExchangeConnector.amount_min r_mk
      (FP.ExchangeConnector.get_symbol (FP.TradeExecutor.exchange self)
         (FP.TradingSignal.symbol signal) (FP.config.DEFAULT_QUOTE_ASSET cfg)) in
  let position_size :=
    fmin (fmul balance (fdiv (FP.config.POSITION_SIZE_PERCENTAGE cfg) (flit 100)))
      (FP.config.MAX_POSITION_SIZE cfg) in
  let first_buy_size :=
    if flt (fdiv (fmul position_size (flit 0.6)) p1) min_order_size
    then fmul min_order_size p1 else fmul position_size (flit 0.6) in
  let second_buy_size := fmul position_size (flit 0.4) in
  let second_buy_amount := fdiv second_buy_size (FP.TradingSignal.second_buy signal) in
  (* both tranches are accepted: 300 at the midpoint and 400 at 0.1 *)
  FP.filled_buys (FloatExamples.trace_of FloatExamples.run_raised)
  = [(a1, p1); (float_of_Q 400, float_of_Q 0.1)]
  /\ exists self' t,
       res = (true, self')
       /\ FP.TradeExecutor.active_trades self' !! FP.TradingSignal.symbol signal = Some t
       /\ FP.filled_buys
            (FP.EvFetchBalance r_bal :: FP.EvLoadMarkets r_mk
             :: FP.EvCreateLimitOrder (str "LSK/USDT") buy a1 p1 (Some o1) :: tr')
          = (a1, p1) :: match FP.Trade.second_order t with
                        | Some _ =>
                            [(second_buy_amount, FP.TradingSignal.second_buy signal)]
                        | None => []
                        end
       /\ let total_amount :=
            match FP.Trade.second_order t with
            | Some _ => fadd a1 second_buy_amount
            | None => a1
            end in
          let total_cost :=
            match FP.Trade.second_order t with
            | Some _ => fadd first_buy_size second_buy_size
            | None => first_buy_size
            end in
          FP.Trade.total_amount t = total_amount
          /\ FP.Trade.avg_entry_price t
             = (if fgt total_amount (flit 0) then fdiv total_cost total_amount else p1).
Proof.
  cbv zeta. split; [vm_compute; reflexivity|].
  apply (C3_average_entry_price FP.config.default FloatExamples.fresh_executor
           (FloatExamples.signal_of 0.208 0.210 0.1)
           (FloatExamples.balance_of 1000) (FloatExamples.markets_of 300)
           (str "LSK/USDT") (float_of_Q 300)
           (fdiv (fadd (float_of_Q 0.208) (float_of_Q 0.210)) (float_of_Q 2))
           (Examples.order "1")
           (skipn 3 (FloatExamples.trace_of FloatExamples.run_raised))
           (FloatExamples.result_of FloatExamples.run_raised)).
  - exact binary64_guarded.
  - apply fp_play_sound
      with (script := FP.RBalances (FloatExamples.balance_of 1000)
                      :: FP.RMarkets (FloatExamples.markets_of 300)
                      :: FloatExamples.all_accepted).
    vm_compute. reflexivity.
  - vm_compute. reflexivity.
Defined.


Lemma C5_first_tranche_raised_witness :
  let cfg := FP.config.default in
  let self := FloatExamples.fresh_executor in
  let signal := FloatExamples.signal_of 0.208 0.210 0.1 in
  let r_bal := FloatExamples.balance_of 1000 in
  let r_mk := FloatExamples.markets_of 300 in
  let tr' := skipn 2 (FloatExamples.trace_of FloatExamples.run_raised) in
  let res := FloatExamples.result_of FloatExamples.run_raised in
  let symbol :=
    FP.ExchangeConnector.get_symbol (FP.TradeExecutor.exchange self)
      (FP.TradingSignal.symbol signal) (FP.config.DEFAULT_QUOTE_ASSET cfg) in
  let balance :=
    FP.ExchangeConnector.free_balance r_bal (FP.config.DEFAULT_QUOTE_ASSET cfg) in
  let min_order_size := FP.ExchangeConnector.amount_min r_mk symbol in
  let budget :=
    fmin (fmul balance (fdiv (FP.config.POSITION_SIZE_PERCENTAGE cfg) (flit 100)))
      (FP.config.MAX_POSITION_SIZE cfg) in
  let midpoint :=
    fdiv (fadd (fst (FP.TradingSignal.first_buy_range signal))
               (snd (FP.TradingSignal.first_buy_range signal))) (flit 2) in
  let second_amount :=
    fdiv (fmul budget (flit 0.4)) (FP.TradingSignal.second_buy signal) in
  (* the first amount is below the minimum of 300, the second reaches it,
     and both orders are accepted *)
  (flt (fdiv (fmul budget (flit 0.6)) midpoint) min_order_size = true
   /\ fge second_amount min_order_size = true
   /\ FP.filled_buys (FloatExamples.trace_of FloatExamples.run_raised)
      = [(float_of_Q 300, midpoint); (float_of_Q 400, float_of_Q 0.1)])
  /\ exists r1 tr'',
       tr' = FP.EvCreateLimitOrder symbol buy min_order_size midpoint r1 :: tr''
       /\ match r1 with
          | None => tr'' = [] /\ res = (false, self)
          | Some _ =>
              if fis_zero (FP.TradingSignal.second_buy signal)
              then tr'' = [] /\ res = (false, self)
              else
              exists self' t,
                res = (true, self')
                /\ FP.TradeExecutor.active_trades self'
                     !! FP.TradingSignal.symbol signal = Some t
                /\ List.filter FP.is_buy tr''
                   = (if fge second_amount min_order_size
                      then [FP.EvCreateLimitOrder symbol buy second_amount
                              (FP.TradingSignal.second_buy signal)
                              (FP.Trade.second_order t)]
                      else [])
                /\ match FP.Trade.second_order t with
                   | None =>
                       FP.Trade.total_amount t = min_order_size
                       /\ FP.Trade.avg_entry_price t
                          = (if fgt min_order_size (flit 0)
                             then fdiv (fmul min_order_size midpoint) min_order_size
                             else midpoint)
                   | Some _ =>
                       FP.Trade.total_amount t = fadd min_order_size second_amount
                       /\ FP.Trade.avg_entry_price t
                          = (if fgt (fadd min_order_size second_amount) (flit 0)
                             then fdiv (fadd (fmul min_order_size midpoint)
                                             (fmul budget (flit 0.4)))
                                       (fadd min_order_size second_amount)
                             else midpoint)
                   end
          end.
Proof.
  cbv zeta. split.
  - vm_compute. repeat split.
  - apply (C5_first_tranche_raised FP.config.default FloatExamples.fresh_executor
             (FloatExamples.signal_of 0.208 0.210 0.1)
             (FloatExamples.balance_of 1000) (FloatExamples.markets_of 300)
             (skipn 2 (FloatExamples.trace_of FloatExamples.run_raised))
             (FloatExamples.result_of FloatExamples.run_raised)).
    + exact binary64_guarded.
    + apply fp_play_sound
        with (script := FP.RBalances (FloatExamples.balance_of 1000)
                        :: FP.RMarkets (FloatExamples.markets_of 300)
                        :: FloatExamples.all_accepted).
      vm_compute. reflexivity.
    + vm_compute. reflexivity.
Defined.

Lemma C6_second_tranche_skipped_witness :
  let cfg := FloatExamples.capped_70 in
  let self := FloatExamples.fresh_executor in
  let signal := FloatExamples.signal_of 0.208 0.210 0.14 in
  let r_bal := FloatExamples.balance_of 1000 in
  let r_mk := FloatExamples.markets_of 200 in
  let p1 := fdiv (fadd (float_of_Q 0.208) (float_of_Q 0.210)) (float_of_Q 2) in
  let a1 := fdiv (fmul (float_of_Q 70) (float_of_Q 0.6)) p1 in
  let tr' := skipn 3 (FloatExamples.trace_of FloatExamples.run_skipped) in
  let res := FloatExamples.result_of FloatExamples.run_skipped in
  let balance :=
    FP.ExchangeConnector.free_balance r_bal (FP.config.DEFAULT_QUOTE_ASSET cfg) in
  let min_order_size :=
    FP.ExchangeConnector.amount_min r_mk
      (FP.ExchangeConnector.get_symbol (FP.TradeExecutor.exchange self)
         (FP.TradingSignal.symbol signal) (FP.config.DEFAULT_QUOTE_ASSET cfg)) in
  let position_size :=
    fmin (fmul balance (fdiv (FP.config.POSITION_SIZE_PERCENTAGE cfg) (flit 100)))
      (FP.config.MAX_POSITION_SIZE cfg) in
  let first_buy_size :=
    if flt (fdiv (fmul position_size (flit 0.6)) p1) min_order_size
    then fmul min_order_size p1 else fmul position_size (flit 0.6) in
  (* 70 * 0.4 / 0.14 is 199.99999999999997, the float next below the
     minimum of 200 *)
  (fdiv (fmul position_size (flit 0.4)) (FP.TradingSignal.second_buy signal)
   = PrimFloat.next_down (float_of_Q 200)
   /\ min_order_size = float_of_Q 200
   /\ flt (fdiv (fmul position_size (flit 0.4)) (FP.TradingSignal.second_buy signal))
        min_order_size = true)
  /\ List.filter FP.is_buy tr' = []
  /\ FP.filled_buys
       (FP.EvFetchBalance r_bal :: FP.EvLoadMarkets r_mk
        :: FP.EvCreateLimitOrder (str "LSK/USDT") buy a1 p1 (Some (Examples.order "1"))
        :: tr') = [(a1, p1)]
  /\ exists self' t,
       res = (true, self')
       /\ FP.TradeExecutor.active_trades self' !! FP.TradingSignal.symbol signal = Some t
       /\ FP.Trade.second_order t = None
       /\ FP.Trade.total_amount t = a1
       /\ FP.Trade.avg_entry_price t
          = (if fgt a1 (flit 0) then fdiv first_buy_size a1 else p1).
Proof.
  cbv zeta. split; [vm_compute; repeat split|].
  apply (C6_second_tranche_skipped FloatExamples.capped_70 FloatExamples.fresh_executor
           (FloatExamples.signal_of 0.208 0.210 0.14)
           (FloatExamples.balance_of 1000) (FloatExamples.markets_of 200)
           (str "LSK/USDT")
           (fdiv (fmul (float_of_Q 70) (float_of_Q 0.6))
              (fdiv (fadd (float_of_Q 0.208) (float_of_Q 0.210)) (float_of_Q 2)))
           (fdiv (fadd (float_of_Q 0.208) (float_of_Q 0.210)) (float_of_Q 2))
           (Examples.order "1")
           (skipn 3 (FloatExamples.trace_of FloatExamples.run_skipped))
           (FloatExamples.result_of FloatExamples.run_skipped)).
  - exact binary64_guarded.
  - apply fp_play_sound
      with (script := FP.RBalances (FloatExamples.balance_of 1000)
                      :: FP.RMarkets (FloatExamples.markets_of 200)
                      :: FloatExamples.all_accepted).
    vm_compute. reflexivity.
  - vm_compute. reflexivity.
  - vm_compute. reflexivity.
Defined.
